(** * GPT-Vencord plugin: the completion request/response flow

    A shallow embedding of [native.ts] (request builder, token estimate,
    debug summary) and of the plugin entry points that call it (context
    collector, response flow, [/respond] command, message popover
    button, settings and the handlers of their panel), with the
    properties of the flow proved over it. *)

From Stdlib Require Import Ascii String.
From Stdlib Require Import QArith Qpower Lqa.
From Stdlib Require Import ZArith NArith PArith Lia Bool.
From Stdlib Require Import SpecFloat.
From Stdlib Require Import List Permutation.
Import ListNotations.
Close Scope Q_scope.

Set Implicit Arguments.

Local Open Scope list_scope.

(* ================================================================== *)
(** * JavaScript strings *)

(** A JavaScript string is a sequence of UTF-16 code units and [.length]
    counts them; each element of the list stands for one code unit. *)
Definition code_unit := N.
Definition jsstring := list code_unit.

(** A string literal of the source (the literals used are all ASCII). *)
Definition lit (s : string) : jsstring :=
  map N_of_ascii (list_ascii_of_string s).

(** Truthiness of a string: [if (s)] holds exactly for the non-empty ones. *)
Definition truthy (s : jsstring) : bool :=
  match s with
  | [] => false
  | _ :: _ => true
  end.

(** Decimal digits of a non-negative integer, most significant first:
    what a template literal [`${n}`] yields for an integer below 10^21.
    The digits are produced from the least significant one; [fuel]
    bounds their number. *)
Fixpoint decimal_digits (fuel : nat) (n : N) (acc : jsstring) : jsstring :=
  match fuel with
  | O => acc
  | S fuel' =>
      let acc' := (48 + n mod 10)%N :: acc in
      if (n <? 10)%N then acc' else decimal_digits fuel' (n / 10) acc'
  end.

Definition decimal (n : N) : jsstring :=
  decimal_digits (S (N.to_nat (N.log2 n))) n [].

(** The value a decimal digit string denotes, most significant digit
    first; [None] when a character is not a digit. *)
Definition digit_value (c : code_unit) : option N :=
  if ((48 <=? c) && (c <=? 57))%N then Some (c - 48)%N else None.

Fixpoint read_decimal_from (acc : N) (s : jsstring) : option N :=
  match s with
  | [] => Some acc
  | c :: s' =>
      match digit_value c with
      | Some d => read_decimal_from (10 * acc + d)%N s'
      | None => None
      end
  end.

Definition read_decimal (s : jsstring) : option N :=
  match s with
  | [] => None
  | _ => read_decimal_from 0%N s
  end.

(** [needle] occurs in [hay] as a contiguous run of code units. *)
Definition occurs_in (needle hay : jsstring) : Prop :=
  exists before after, hay = before ++ needle ++ after.

(** Values that may be absent at run time: [None] stands for [undefined]
    or [null].  TypeScript types are erased at run time, so every object
    the code dereferences is modelled as possibly absent. *)
Definition nullable (A : Type) := option A.

(* ================================================================== *)
(** * JavaScript numbers *)

Module Number.

(** A fractional number is an IEEE 754 binary64 value, with the
    operations of the standard library's executable specification. *)
Definition prec : Z := 53.
Definition emax : Z := 1024.

Definition t := spec_float.

Definition add : t -> t -> t := SFadd prec emax.
Definition mul : t -> t -> t := SFmul prec emax.
Definition div : t -> t -> t := SFdiv prec emax.

(** The number an integer denotes ([ToNumber]); exact up to 2^53. *)
Definition of_N (n : N) : t := binary_normalize prec emax (Z.of_N n) 0 false.

Definition MAX_SAFE_INTEGER : N := 2 ^ 53 - 1.

(** A decimal literal [num/den] of the source is read as the binary64
    nearest to it (ties to even), which the correctly rounded quotient
    of the two exactly representable integers is. *)
Definition literal (num den : N) : t := div (of_N num) (of_N den).

(** [scaled_round f m e]: the integer [n] for which [n / 10^f] is closest
    to [m * 2^e], the larger one when two are equally close. *)
Definition scaled_round (f : N) (m : positive) (e : Z) : Z :=
  let scaled := (Zpos m * 10 ^ Z.of_N f)%Z in
  match e with
  | Zneg p => ((2 * scaled + 2 ^ Zpos p) / 2 ^ (Zpos p + 1))%Z
  | _ => (scaled * 2 ^ e)%Z
  end.

(** [m * 2^e >= 10^21] *)
Definition at_least_1e21 (m : positive) (e : Z) : bool :=
  match e with
  | Zneg p => (10 ^ 21 * 2 ^ Zpos p <=? Zpos m)%Z
  | _ => (10 ^ 21 <=? Zpos m * 2 ^ e)%Z
  end.

(** Step 10.c of [toFixed]: with [f] fraction digits, [m] is padded with
    zeros to [f + 1] digits and the point is put before the last [f]. *)
Definition with_fraction (f : nat) (m : jsstring) : jsstring :=
  match f with
  | O => m
  | _ =>
      let k := length m in
      let m := if (k <=? f)%nat
               then repeat 48%N (f + 1 - k) ++ m
               else m in
      let k := length m in
      firstn (k - f) m ++ lit "." ++ skipn (k - f) m
  end.

Section ToFixed.

(** [Number::toString], which [toFixed] falls back on for magnitudes
    of 10^21 and more.  Its digits there are implementation-defined,
    so it is left abstract. *)
Variable toString : t -> jsstring.

(** [Number.prototype.toFixed(fractionDigits)] for
    [0 <= fractionDigits <= 100], following ECMA-262 21.1.3.3. *)
Definition toFixed (x : t) (fractionDigits : N) : jsstring :=
  match x with
  | S754_nan => lit "NaN"
  | S754_infinity false => lit "Infinity"
  | S754_infinity true => lit "-Infinity"
  | S754_zero _ | S754_finite _ _ _ =>
      let f := N.to_nat fractionDigits in
      let s := match x with
               | S754_finite true _ _ => lit "-"
               | _ => []
               end in
      let large := match x with
                   | S754_finite _ m e => at_least_1e21 m e
                   | _ => false
                   end in
      if large then s ++ toString (SFabs x)
      else
        let n := match x with
                 | S754_finite _ m e => Z.to_N (scaled_round fractionDigits m e)
                 | _ => 0%N
                 end in
        let m := decimal n in
        s ++ with_fraction f m
  end.

End ToFixed.

End Number.

(* ================================================================== *)
(** * Data model *)

(** [role: "user" | "assistant" | "system"] *)
Inductive Role := user | assistant | system.

Module Author.
(** [author: { username: string; bot?: boolean }] *)
Record t := make { username : jsstring; bot : option bool }.
End Author.

Module Message.
(** [interface Message].  [content] is dereferenced by [estimateTokens]
    ([message.content.length]) and so may be absent. *)
Record t := make {
  content : nullable jsstring;
  author : Author.t;
  role : Role
}.

Definition well_formed (m : t) : Prop := content m <> None.

End Message.

Module Usage.
(** [usage: { prompt_tokens; completion_tokens; total_tokens }]: token
    counts, non-negative integers as the API reports them. *)
Record t := make {
  prompt_tokens : N;
  completion_tokens : N;
  total_tokens : N
}.

(** JavaScript holds the counts exactly up to 2^53 - 1. *)
Definition safe (u : t) : Prop :=
  (prompt_tokens u <= Number.MAX_SAFE_INTEGER)%N /\
  (completion_tokens u <= Number.MAX_SAFE_INTEGER)%N /\
  (total_tokens u <= Number.MAX_SAFE_INTEGER)%N.
End Usage.

Module ChoiceMessage.
(** [message: { content: string; role: string }] *)
Record t := make { content : jsstring; role : jsstring }.
End ChoiceMessage.

Module Choice.
Record t := make {
  message : nullable ChoiceMessage.t;
  finish_reason : jsstring;
  index : N
}.
End Choice.

Module OpenRouterResponse.
(** [interface OpenRouterResponse], as [response.json()] may hand it
    over: the array [choices], its elements, their [message] and the
    object [usage] are dereferenced by the code and may be absent. *)
Record t := make {
  id : jsstring;
  choices : nullable (list (nullable Choice.t));
  model : jsstring;
  usage : nullable Usage.t
}.

(** A response of the declared shape: nothing the interface requires
    is absent. *)
Definition well_formed (r : t) : Prop :=
  (exists cs, choices r = Some cs /\
     Forall (fun c => exists c', c = Some c' /\ Choice.message c' <> None) cs) /\
  usage r <> None.
End OpenRouterResponse.

Module Generated.
(** [{ text: generatedText, response }], the result of the flow. *)
Record t := make { text : jsstring; response : OpenRouterResponse.t }.
End Generated.

(** An element of the [messages] array of the request body: either the
    object [{ role: "system", content: systemPrompt }] pushed by
    [generateResponse], or one of the caller's messages. *)
Inductive BodyMessage :=
| SystemMessage (content : jsstring)
| Conversation (m : Message.t).

Definition BodyMessage_role (b : BodyMessage) : Role :=
  match b with
  | SystemMessage _ => system
  | Conversation m => Message.role m
  end.

(** A number that the source writes as a decimal literal and that is only
    serialized: [mantissa / 10^decimals]. *)
Record decimal_literal := { mantissa : N; decimals : N }.

Module RequestBody.
(** The object handed to [JSON.stringify]. *)
Record t := make {
  model : jsstring;
  messages : list BodyMessage;
  temperature : decimal_literal;
  max_tokens : N;
  stream : bool
}.
End RequestBody.

Inductive HttpMethod := POST.

Module Request.
Record t := make {
  url : jsstring;
  method : HttpMethod;
  headers : list (jsstring * jsstring);
  body : RequestBody.t
}.
End Request.

(** What can be thrown. *)
Inductive exn :=
| TypeError
| SyntaxError
| Error (message : jsstring).

Inductive outcome (A : Type) :=
| Returns (a : A)
| Throws (e : exn).
Arguments Returns {A} a.
Arguments Throws {A} e.

Module HttpResponse.
(** A [Response] of the Fetch API: the status, the body as text
    ([response.text()]) and the body parsed ([response.json()], which
    throws on a body that is not JSON). *)
Record t := make {
  status : N;
  text : jsstring;
  json : outcome (nullable OpenRouterResponse.t)
}.

(** [response.ok]: the status is in the range 200-299. *)
Definition ok (r : t) : bool := ((200 <=? status r) && (status r <=? 299))%N.
End HttpResponse.

(** ** Plugin settings *)

Inductive ChatScope := dms | channels | both.
Inductive OutputMode := ephemeral | typebar.

Module Settings.
Record t := make {
  contextLength : Z;
  model : jsstring;
  chatScope : ChatScope;
  systemInstructions : jsstring;
  outputMode : OutputMode;
  showDebugInfo : bool;
  showTokenCount : bool;
  logErrors : bool;
  apiKey : jsstring
}.
End Settings.

(** ** The host application *)

Module HostAuthor.
Record t := make { username : jsstring; bot : option bool }.
End HostAuthor.

Module HostMessage.
(** A message of the host's cache; [msg.author] is dereferenced by the
    collector. *)
Record t := make { content : nullable jsstring; author : nullable HostAuthor.t }.
End HostMessage.

Module Channel.
(** [ctx.channel]: [guild_id] is absent outside guilds. *)
Record t := make { id : jsstring; guild_id : nullable jsstring }.
End Channel.

Inductive ToastType := FAILURE | INFO | SUCCESS.

(** What an invocation does to the outside, in order. *)
Inductive event :=
| console_error (label : jsstring) (error : exn)
| console_log (text : jsstring)
| showToast (text : jsstring) (type : ToastType)
| MessageStore_getMessages (channelId : jsstring)
| fetch (request : Request.t)
| sendBotMessage (channelId : jsstring) (content : jsstring)
| insertTextIntoChatInputBox (text : jsstring).

Module Host.
(** The surroundings of one invocation: the settings store, the message
    cache ([getMessages(channelId)?.toArray()], oldest message first)
    and the remote API's answer to a request ([Throws] when the request
    itself fails). *)
Record t := make {
  store : Settings.t;
  cache : jsstring -> outcome (nullable (list (nullable HostMessage.t)));
  remote : Request.t -> outcome HttpResponse.t
}.
End Host.

(* ================================================================== *)
(** * Effects *)

(** A computation yields the events it caused, in order, and either
    returns or throws.  [await] is sequencing: one invocation runs from
    start to end. *)
Definition M (A : Type) : Type := (list event * outcome A)%type.

Definition ret {A} (a : A) : M A := ([], Returns a).
Definition throw {A} (e : exn) : M A := ([], Throws e).
Definition lift {A} (o : outcome A) : M A := ([], o).
Definition emit (e : event) : M unit := ([e], Returns tt).

Definition bind {A B} (m : M A) (k : A -> M B) : M B :=
  match m with
  | (t, Returns a) => let '(t', r) := k a in (t ++ t', r)
  | (t, Throws e) => (t, Throws e)
  end.

(** [try { body } catch (error) { handler }] *)
Definition try_catch {A} (body : M A) (handler : exn -> M A) : M A :=
  match body with
  | (t, Throws e) => let '(t', r) := handler e in (t ++ t', r)
  | (t, Returns a) => (t, Returns a)
  end.

(** Reading a property of [v]: a [TypeError] when [v] is [undefined] or
    [null]. *)
Definition deref {A} (v : nullable A) : M A :=
  match v with
  | Some a => ret a
  | None => throw TypeError
  end.

Definition trace {A} (m : M A) : list event := fst m.
Definition result {A} (m : M A) : outcome A := snd m.

Declare Scope js_scope.
Delimit Scope js_scope with js.
Notation "x <- m ;; k" := (bind m (fun x => k))
  (at level 100, m at next level, right associativity) : js_scope.
Notation "m ;; k" := (bind m (fun _ => k))
  (at level 100, right associativity) : js_scope.
Local Open Scope js_scope.

(** [array.map(f)] with a callback that may throw. *)
Fixpoint mapM {A B} (f : A -> M B) (l : list A) : M (list B) :=
  match l with
  | [] => ret []
  | a :: l' => b <- f a ;; bs <- mapM f l' ;; ret (b :: bs)
  end.

(** [array.slice(start)] for an integer [start] (ECMA-262 23.1.3.28): a
    negative [start] counts from the end, and the result runs to the end
    of the array. *)
Definition Array_slice {A} (l : list A) (start : Z) : list A :=
  let len := Z.of_nat (length l) in
  let k := if (start <? 0)%Z then Z.max (len + start) 0 else Z.min start len in
  skipn (Z.to_nat k) l.

(** [Math.ceil(num / den)] for non-negative integers [num] and [den > 0]:
    the quotient of integers below 2^53 by a power of two is exact in
    binary64, so the ceiling is taken of the exact quotient. *)
Definition Math_ceil_div (num den : N) : Z :=
  (- ((- Z.of_N num) / Z.of_N den))%Z.

Definition nl : jsstring := [10%N].

(** ** Message popover buttons *)

Module PopoverButton.
(** The object [renderMessagePopoverButton] hands to the host: label,
    icon, the message and channel it was rendered for, and the click
    handler.  The handler is a closure over the channel; it reads the
    settings store, the cache and the network when it is called, so it
    takes the host as it is at that time. *)
Record t (A : Type) := make {
  label : jsstring;
  icon : jsstring;
  message : A;
  channel : Channel.t;
  onClick : Host.t -> M unit
}.
End PopoverButton.

(* ================================================================== *)
(** * native.ts *)

(** ** generateResponse *)

Definition endpoint : jsstring := lit "https://openrouter.ai/api/v1/chat/completions".

(** Lines 43-69: the message array and the request. *)
Definition allMessages (messages : list Message.t) (systemPrompt : jsstring)
  : list BodyMessage :=
  let allMessages := [] in
  let allMessages :=
    if truthy systemPrompt
    then allMessages ++ [SystemMessage systemPrompt]
    else allMessages in
  allMessages ++ map Conversation messages.

Definition build_request (apiKey model : jsstring) (messages : list Message.t)
    (systemPrompt : jsstring) : Request.t :=
  Request.make endpoint POST
    [ (lit "Content-Type", lit "application/json");
      (lit "Authorization", lit "Bearer " ++ apiKey);
      (lit "HTTP-Referer", lit "https://vencord.dev/");
      (lit "X-Title", lit "Vencord GPT Plugin") ]
    (RequestBody.make model (allMessages messages systemPrompt)
       {| mantissa := 7; decimals := 1 |} 1024 false).

(** The error thrown for a status outside 200-299. *)
Definition upstream_error (status : N) (errorText : jsstring) : exn :=
  Error (lit "OpenRouter API error (" ++ decimal status ++ lit "): " ++ errorText).

Definition generateResponse (h : Host.t) (apiKey model : jsstring)
    (messages : list Message.t) (systemPrompt : jsstring)
  : M (nullable OpenRouterResponse.t) :=
  try_catch
    (let request := build_request apiKey model messages systemPrompt in
     emit (fetch request) ;;
     response <- lift (Host.remote h request) ;;
     if negb (HttpResponse.ok response) then
       let errorText := HttpResponse.text response in
       throw (upstream_error (HttpResponse.status response) errorText)
     else
       result <- lift (HttpResponse.json response) ;;
       ret result)
    (fun error =>
       emit (console_error (lit "Error in generateResponse:") error) ;;
       throw error).

(** ** estimateTokens *)

(** The loop of lines 93-95. *)
Fixpoint count_chars (totalChars : N) (messages : list (nullable Message.t)) : M N :=
  match messages with
  | [] => ret totalChars
  | message :: rest =>
      m <- deref message ;;
      content <- deref (Message.content m) ;;
      count_chars (totalChars + N.of_nat (length content)) rest
  end.

Definition estimateTokens_body (messages : nullable (list (nullable Message.t))) : M Z :=
  let totalChars := 0%N in
  messages <- deref messages ;;
  totalChars <- count_chars totalChars messages ;;
  ret (Math_ceil_div totalChars 4).

Definition estimateTokens (messages : nullable (list (nullable Message.t))) : M Z :=
  try_catch (estimateTokens_body messages)
    (fun error =>
       emit (console_error (lit "Error estimating tokens:") error) ;;
       ret 0%Z).

(** A message array of the declared type, as the run-time value. *)
Definition array_of (messages : list Message.t) : nullable (list (nullable Message.t)) :=
  Some (map Some messages).

Section Plugin.

(** The engine's [Number::toString], reached by [toFixed] only for
    magnitudes of 10^21 and more. *)
Variable Number_toString : Number.t -> jsstring.

(** ** formatDebugInfo *)

Definition promptCost (usage : Usage.t) : Number.t :=
  Number.mul (Number.div (Number.of_N (Usage.prompt_tokens usage)) (Number.of_N 1000))
             (Number.literal 1 10000).

Definition completionCost (usage : Usage.t) : Number.t :=
  Number.mul (Number.div (Number.of_N (Usage.completion_tokens usage)) (Number.of_N 1000))
             (Number.literal 2 10000).

Definition totalCost (usage : Usage.t) : Number.t :=
  Number.add (promptCost usage) (completionCost usage).

Definition formatDebugInfo_body (response : nullable OpenRouterResponse.t) : M jsstring :=
  r <- deref response ;;
  let model := OpenRouterResponse.model r in
  let usage := OpenRouterResponse.usage r in
  u <- deref usage ;;
  let totalCost := totalCost u in
  ret (lit "**Debug Info:**" ++ nl ++
       lit "- Model: " ++ model ++ nl ++
       lit "- Prompt Tokens: " ++ decimal (Usage.prompt_tokens u) ++ nl ++
       lit "- Completion Tokens: " ++ decimal (Usage.completion_tokens u) ++ nl ++
       lit "- Total Tokens: " ++ decimal (Usage.total_tokens u) ++ nl ++
       lit "- Estimated Cost: $" ++ Number.toFixed Number_toString totalCost 6 ++
       lit " (Free)").

Definition formatDebugInfo (response : nullable OpenRouterResponse.t) : M jsstring :=
  try_catch (formatDebugInfo_body response)
    (fun error =>
       emit (console_error (lit "Error formatting debug info:") error) ;;
       ret (lit "Error generating debug info")).

(** * The plugin *)

(** ** getChatContext *)

Definition to_context (msg : nullable HostMessage.t) : M Message.t :=
  m <- deref msg ;;
  let content := HostMessage.content m in
  a <- deref (HostMessage.author m) ;;
  ret (Message.make content
         (Author.make (HostAuthor.username a) (HostAuthor.bot a))
         user).

Definition getChatContext_body (h : Host.t) (channelId : jsstring) (contextLength : Z)
  : M (list Message.t) :=
  emit (MessageStore_getMessages channelId) ;;
  cached <- lift (Host.cache h channelId) ;;
  let messages := match cached with Some a => a | None => [] end in
  let contextMessages := Array_slice messages (- contextLength) in
  mapM to_context contextMessages.

Definition getChatContext (h : Host.t) (channelId : jsstring) (contextLength : Z)
  : M (list Message.t) :=
  try_catch (getChatContext_body h channelId contextLength)
    (fun error =>
       emit (console_error (lit "Error getting chat context:") error) ;;
       ret []).

(** ** generateAIResponse *)

(** [!response || !response.choices || response.choices.length === 0] *)
Definition no_choices (response : nullable OpenRouterResponse.t) : bool :=
  match response with
  | None => true
  | Some r =>
      match OpenRouterResponse.choices r with
      | None => true
      | Some cs => (length cs =? 0)%nat
      end
  end.

Definition generateAIResponse (h : Host.t) (channelId : jsstring)
  : M (nullable Generated.t) :=
  let store := Host.store h in
  try_catch
    (if negb (truthy (Settings.apiKey store)) then
       emit (showToast (lit "Please set your OpenRouter API key in the plugin settings") FAILURE) ;;
       ret None
     else
       context <- getChatContext h channelId (Settings.contextLength store) ;;
       if (length context =? 0)%nat then
         emit (showToast (lit "No messages found to generate context") FAILURE) ;;
         ret None
       else
         emit (showToast (lit "Generating AI response...") INFO) ;;
         response <- generateResponse h (Settings.apiKey store) (Settings.model store)
                       context (Settings.systemInstructions store) ;;
         if no_choices response then
           emit (showToast (lit "Failed to generate response") FAILURE) ;;
           ret None
         else
           r <- deref response ;;
           choices <- deref (OpenRouterResponse.choices r) ;;
           choice <- deref (hd None choices) ;;
           message <- deref (Choice.message choice) ;;
           let generatedText := ChoiceMessage.content message in
           (if Settings.showDebugInfo store || Settings.showTokenCount store then
              debugInfo <- formatDebugInfo response ;;
              emit (console_log debugInfo) ;;
              if Settings.showTokenCount store then
                usage <- deref (OpenRouterResponse.usage r) ;;
                emit (showToast (lit "Generated response (" ++
                                 decimal (Usage.total_tokens usage) ++
                                 lit " tokens)") SUCCESS)
              else ret tt
            else ret tt) ;;
           ret (Some (Generated.make generatedText r)))
    (fun error =>
       (if Settings.logErrors store
        then emit (console_error (lit "Error generating AI response:") error)
        else ret tt) ;;
       emit (showToast (lit "Error generating AI response") FAILURE) ;;
       ret None).

(** ** The [/respond] command *)

(** [Boolean(ctx.channel.guild_id)] *)
Definition isGuildChannel (channel : Channel.t) : bool :=
  match Channel.guild_id channel with
  | Some g => truthy g
  | None => false
  end.

Definition scope_mismatch (isGuildChannel : bool) (chatScope : ChatScope) : bool :=
  (isGuildChannel && match chatScope with dms => true | _ => false end)
  || (negb isGuildChannel && match chatScope with channels => true | _ => false end).

(** Lines 401-410, shared by the command and the message button. *)
Definition deliver (h : Host.t) (channelId : jsstring) (result : nullable Generated.t)
  : M unit :=
  match result with
  | Some result =>
      match Settings.outputMode (Host.store h) with
      | ephemeral =>
          debug <- (if Settings.showDebugInfo (Host.store h)
                    then (info <- formatDebugInfo (Some (Generated.response result)) ;;
                          ret (nl ++ nl ++ info))
                    else ret []) ;;
          emit (sendBotMessage channelId (Generated.text result ++ debug))
      | typebar =>
          emit (insertTextIntoChatInputBox (Generated.text result))
      end
  | None => ret tt
  end.

Definition execute (h : Host.t) (channel : Channel.t) : M unit :=
  let store := Host.store h in
  try_catch
    (let isGuildChannel := isGuildChannel channel in
     let chatScope := Settings.chatScope store in
     if scope_mismatch isGuildChannel chatScope then
       emit (sendBotMessage (Channel.id channel)
               (lit "AI responses are not enabled for this type of channel. Check your plugin settings."))
     else
       result <- generateAIResponse h (Channel.id channel) ;;
       deliver h (Channel.id channel) result)
    (fun error =>
       (if Settings.logErrors store
        then emit (console_error (lit "Error in /respond command:") error)
        else ret tt) ;;
       emit (sendBotMessage (Channel.id channel)
               (lit "Error generating AI response. Check console for details."))).

(** ** The message popover button *)

(** Lines 436-449: the click handler.  Unlike the command it has no
    [try]/[catch] of its own and does not look at the chat scope. *)
Definition onClick (channel : Channel.t) (h : Host.t) : M unit :=
  result <- generateAIResponse h (Channel.id channel) ;;
  deliver h (Channel.id channel) result.

(** Lines 422-451.  The scope is read from the settings store when the
    button is rendered. *)
Definition renderMessagePopoverButton (A : Type) (store : Settings.t)
    (message : A) (channel : Channel.t) : nullable (PopoverButton.t A) :=
  let isGuildChannel := isGuildChannel channel in
  let chatScope := Settings.chatScope store in
  if scope_mismatch isGuildChannel chatScope then None
  else Some (PopoverButton.make (lit "AI Response") (lit "robot")
               message channel (onClick channel)).

End Plugin.

(** ** The settings and their panel *)

(** The defaults of [definePluginSettings] (lines 175-238). *)
Definition default_settings : Settings.t :=
  Settings.make 20 (lit "google/gemini-flash-1.5-8b-exp") both
    (lit "You are acting as me in this conversation. Respond in my tone and voice, not as an AI assistant. Be concise and natural.")
    ephemeral false true true (lit "").

Module SettingsComponent.
(** What the panel holds between renders: the text of the key field
    ([useState]) and the settings store its handlers write to. *)
Record t := make { apiKey : jsstring; store : Settings.t }.

(** Assignments to one property of the store. *)
Definition set_apiKey (s : Settings.t) (v : jsstring) : Settings.t :=
  Settings.make (Settings.contextLength s) (Settings.model s) (Settings.chatScope s)
    (Settings.systemInstructions s) (Settings.outputMode s) (Settings.showDebugInfo s)
    (Settings.showTokenCount s) (Settings.logErrors s) v.

Definition set_showDebugInfo (s : Settings.t) (v : bool) : Settings.t :=
  Settings.make (Settings.contextLength s) (Settings.model s) (Settings.chatScope s)
    (Settings.systemInstructions s) (Settings.outputMode s) v
    (Settings.showTokenCount s) (Settings.logErrors s) (Settings.apiKey s).

Definition set_showTokenCount (s : Settings.t) (v : bool) : Settings.t :=
  Settings.make (Settings.contextLength s) (Settings.model s) (Settings.chatScope s)
    (Settings.systemInstructions s) (Settings.outputMode s) (Settings.showDebugInfo s)
    v (Settings.logErrors s) (Settings.apiKey s).

Definition set_logErrors (s : Settings.t) (v : bool) : Settings.t :=
  Settings.make (Settings.contextLength s) (Settings.model s) (Settings.chatScope s)
    (Settings.systemInstructions s) (Settings.outputMode s) (Settings.showDebugInfo s)
    (Settings.showTokenCount s) v (Settings.apiKey s).

(** [useState(settings.store.apiKey || "")]: the first render. *)
Definition mount (store : Settings.t) : t :=
  make (if truthy (Settings.apiKey store) then Settings.apiKey store else lit "") store.

(** Lines 243-246. *)
Definition updateApiKey (newValue : jsstring) (c : t) : t :=
  make newValue (set_apiKey (store c) newValue).

(** The [onChange] handlers of the three switches (lines 267, 274, 281). *)
Definition onChange_showDebugInfo (v : bool) (c : t) : t :=
  make (apiKey c) (set_showDebugInfo (store c) v).

Definition onChange_showTokenCount (v : bool) (c : t) : t :=
  make (apiKey c) (set_showTokenCount (store c) v).

Definition onChange_logErrors (v : bool) (c : t) : t :=
  make (apiKey c) (set_logErrors (store c) v).
End SettingsComponent.

(** The host after the panel wrote to the settings store. *)
Definition with_store (h : Host.t) (store : Settings.t) : Host.t :=
  Host.make store (Host.cache h) (Host.remote h).

(* ================================================================== *)
(** * Specification-level notions *)



(** The last [n] elements of a list, in the list's order. *)
Definition last_n {A} (n : nat) (l : list A) : list A :=
  skipn (length l - n) l.

Definition is_fetch (e : event) : bool :=
  match e with
  | fetch _ => true
  | _ => false
  end.

(** Events that deliver text to the chat: a bot message or text typed
    into the message bar. *)
Definition is_output (e : event) : bool :=
  match e with
  | sendBotMessage _ _ | insertTextIntoChatInputBox _ => true
  | _ => false
  end.

Definition is_store_read (e : event) : bool :=
  match e with
  | MessageStore_getMessages _ => true
  | _ => false
  end.

(** A cached message with its author, and the context message the
    collector makes of it. *)
Definition cached_message (p : nullable jsstring * HostAuthor.t) : nullable HostMessage.t :=
  Some (HostMessage.make (fst p) (Some (snd p))).

Definition context_message (p : nullable jsstring * HostAuthor.t) : Message.t :=
  Message.make (fst p)
    (Author.make (HostAuthor.username (snd p)) (HostAuthor.bot (snd p)))
    user.

Definition fetches {A} (m : M A) : list event := filter is_fetch (trace m).
Definition outputs {A} (m : M A) : list event := filter is_output (trace m).

(** The request the flow sends for a collected context. *)
Definition flow_request (h : Host.t) (context : list Message.t) : Request.t :=
  build_request (Settings.apiKey (Host.store h)) (Settings.model (Host.store h))
    context (Settings.systemInstructions (Host.store h)).

(** The remote API answers the flow's request for [channelId] with
    [response]: a key is set and the collected context is not empty. *)
Definition answered (h : Host.t) (channelId : jsstring) (response : HttpResponse.t) : Prop :=
  truthy (Settings.apiKey (Host.store h)) = true /\
  exists m ms,
    result (getChatContext h channelId (Settings.contextLength (Host.store h)))
      = Returns (m :: ms) /\
    Host.remote h (flow_request h (m :: ms)) = Returns response.

Definition generating : event := showToast (lit "Generating AI response...") INFO.
Definition failed_notice : event := showToast (lit "Failed to generate response") FAILURE.
Definition error_notice : event := showToast (lit "Error generating AI response") FAILURE.

Definition key_notice : event :=
  showToast (lit "Please set your OpenRouter API key in the plugin settings") FAILURE.
Definition no_context_notice : event :=
  showToast (lit "No messages found to generate context") FAILURE.
Definition not_enabled_notice (channel : Channel.t) : event :=
  sendBotMessage (Channel.id channel)
    (lit "AI responses are not enabled for this type of channel. Check your plugin settings.").

(** The toast that reports the token count of a completion. *)
Definition token_toast (u : Usage.t) : event :=
  showToast (lit "Generated response (" ++ decimal (Usage.total_tokens u) ++ lit " tokens)")
    SUCCESS.

Definition is_failure_toast (e : event) : bool :=
  match e with
  | showToast _ FAILURE => true
  | _ => false
  end.

(** A key is set, [context] is the non-empty context collected for
    [channelId], and the remote API answers the flow's request for it
    with a status in 200-299 and a body that parses to [value]. *)
Definition completion (h : Host.t) (channelId : jsstring)
    (context : list Message.t) (value : nullable OpenRouterResponse.t) : Prop :=
  truthy (Settings.apiKey (Host.store h)) = true /\
  context <> [] /\
  result (getChatContext h channelId (Settings.contextLength (Host.store h)))
    = Returns context /\
  exists response,
    Host.remote h (flow_request h context) = Returns response /\
    HttpResponse.ok response = true /\
    HttpResponse.json response = Returns value.

(** A cached message the collector cannot map: it is absent or has no
    author. *)
Definition unmappable (msg : nullable HostMessage.t) : Prop :=
  match msg with
  | None => True
  | Some m => HostMessage.author m = None
  end.


(** The labels under which the helpers the command runs through write
    to the console, whatever the settings. *)
Definition helper_labels : list jsstring :=
  [ lit "Error in generateResponse:";
    lit "Error formatting debug info:";
    lit "Error getting chat context:" ].

(** A decimal digit. *)
Definition is_digit (c : code_unit) : Prop := (48 <= c <= 57)%N.

(** [n / 10^f] is the multiple of [10^-f] nearest to [m * 2^e], the
    larger one of two equally near. *)
Definition is_nearest_scaled (f : N) (m : positive) (e : Z) (n : Z) : Prop :=
  match e with
  | Zneg p =>
      let d := (2 ^ Zpos p)%Z in
      (- d < 2 * (n * d - Zpos m * 10 ^ Z.of_N f) <= d)%Z
  | _ => n = (Zpos m * 10 ^ Z.of_N f * 2 ^ e)%Z
  end.

(** The text is digits, a point and six digits, and denotes [n]
    millionths. *)
Definition denotes_millionths (text : jsstring) (n : N) : Prop :=
  exists ip fp,
    text = ip ++ lit "." ++ fp /\
    ip <> [] /\
    length fp = 6%nat /\
    read_decimal (ip ++ fp) = Some n.

(** [n] millionths is the multiple of 10^-6 nearest to the non-negative
    number [x]. *)
Definition nearest_millionths (x : Number.t) (n : N) : Prop :=
  match x with
  | S754_zero _ => n = 0%N
  | S754_finite false m e => is_nearest_scaled 6 m e (Z.of_N n)
  | _ => False
  end.

(** [x] is zero or positive and below [2^b]. *)
Definition below_pow2 (b : Z) (x : Number.t) : Prop :=
  match x with
  | S754_zero false => True
  | S754_finite false m e => (Zpos (digits2_pos m) + e <= b)%Z
  | _ => False
  end.

(** The summary for a model name, a usage record and a rendered cost. *)
Definition debug_summary (model : jsstring) (u : Usage.t) (cost : jsstring) : jsstring :=
  lit "**Debug Info:**" ++ nl ++
  lit "- Model: " ++ model ++ nl ++
  lit "- Prompt Tokens: " ++ decimal (Usage.prompt_tokens u) ++ nl ++
  lit "- Completion Tokens: " ++ decimal (Usage.completion_tokens u) ++ nl ++
  lit "- Total Tokens: " ++ decimal (Usage.total_tokens u) ++ nl ++
  lit "- Estimated Cost: $" ++ cost ++ lit " (Free)".

(** ** Accuracy of binary64 arithmetic *)

(** Powers of two, of any integer exponent. *)
Definition pow2 (e : Z) : Q := (2 ^ e)%Q.

(** The rational a finite number denotes. *)
Definition B2Q (x : Number.t) : Q :=
  match x with
  | S754_finite false m e => (inject_Z (Zpos m) * pow2 e)%Q
  | S754_finite true m e => (- (inject_Z (Zpos m) * pow2 e))%Q
  | _ => 0%Q
  end.

(** The record [mrs] describes the position [y]: its integer part and
    how its fractional part compares with one half. *)
Definition rec_pos (mrs : shr_record) (y : Q) : Prop :=
  (0 <= shr_m mrs)%Z /\
  (inject_Z (shr_m mrs) <= y < inject_Z (shr_m mrs) + 1)%Q /\
  (shr_r mrs = true <-> (inject_Z (shr_m mrs) + (1 # 2) <= y)%Q) /\
  (shr_s mrs = true <->
     ~ (y == inject_Z (shr_m mrs))%Q /\ ~ (y == inject_Z (shr_m mrs) + (1 # 2))%Q).

(** The location [l] describes where [y] lies from [m] to [m + 1]. *)
Definition loc_pos (m : Z) (l : location) (y : Q) : Prop :=
  (0 <= m)%Z /\
  match l with
  | loc_Exact => (y == inject_Z m)%Q
  | loc_Inexact Lt => (inject_Z m < y < inject_Z m + (1 # 2))%Q
  | loc_Inexact Eq => (y == inject_Z m + (1 # 2))%Q
  | loc_Inexact Gt => (inject_Z m + (1 # 2) < y < inject_Z m + 1)%Q
  end.

(** The unit roundoff of binary64, 2^-53. *)
Definition unit_roundoff : Q := pow2 (-53).

(** [x] is [X] after one rounding: [|x - X| <= 2^-53 * X]. *)
Definition near (x X : Q) : Prop :=
  (X * (1 - unit_roundoff) <= x <= X * (1 + unit_roundoff))%Q.

(** A positive normal number: 53 digits, exponent from [lo] to [hi]. *)
Definition normal (lo hi : Z) (x : Number.t) : Prop :=
  exists m e,
    x = S754_finite false m e /\
    Zpos (digits2_pos m) = 53%Z /\
    (lo <= e <= hi)%Z.

(** [x] lies from [X * lo] to [X * hi]. *)
Definition within (lo hi x X : Q) : Prop := (X * lo <= x <= X * hi)%Q.

(** The bounds of one rounding and of four. *)
Definition lo1 : Q := (1 - unit_roundoff)%Q.
Definition hi1 : Q := (1 + unit_roundoff)%Q.

(** The exact cost of [p] prompt and [c] completion tokens. *)
Definition exact_cost (p c : N) : Q :=
  (inject_Z (Z.of_N p) * (1 # 1000) * (1 # 10000)
   + inject_Z (Z.of_N c) * (1 # 1000) * (2 # 10000))%Q.

Definition lo4 : Q := (lo1 * lo1 * lo1 * lo1)%Q.
Definition hi4 : Q := (hi1 * hi1 * hi1 * hi1)%Q.

(* ================================================================== *)
(** * Sample invocations *)

Definition sample_author : Author.t := Author.make (lit "ana") None.

Definition sample_messages : list Message.t :=
  [ Message.make (Some (lit "hello")) sample_author user;
    Message.make (Some (lit "how are you?")) sample_author user ].

Definition ana : HostAuthor.t := HostAuthor.make (lit "ana") None.
Definition helper_bot : HostAuthor.t := HostAuthor.make (lit "helper") (Some true).

Definition sample_cached : list (nullable jsstring * HostAuthor.t) :=
  [ (Some (lit "hi"), ana);
    (Some (lit "hello, how can I help?"), helper_bot);
    (Some (lit "what time is it?"), ana);
    (Some (lit "it is noon"), helper_bot);
    (Some (lit "thanks"), ana) ].

Definition sample_store (logErrors : bool) : Settings.t :=
  Settings.make 20 (lit "google/gemini-flash-1.5-8b-exp") both
    (lit "Be concise and natural.") ephemeral false true logErrors (lit "or-key").

Definition sample_usage : Usage.t := Usage.make 100 50 150.

Definition sample_response : OpenRouterResponse.t :=
  OpenRouterResponse.make (lit "gen-1")
    (Some [Some (Choice.make (Some (ChoiceMessage.make (lit "you are welcome")
                                      (lit "assistant")))
                   (lit "stop") 0)])
    (lit "google/gemini-flash-1.5-8b-exp")
    (Some sample_usage).

Definition sample_cache (channelId : jsstring)
  : outcome (nullable (list (nullable HostMessage.t))) :=
  Returns (Some (map cached_message sample_cached)).

(** The API answers with a completion. *)
Definition host_ok : Host.t :=
  Host.make (sample_store true) sample_cache
    (fun _ => Returns (HttpResponse.make 200 [] (Returns (Some sample_response)))).

(** The API rejects the key; error logging is switched off. *)
Definition host_401 : Host.t :=
  Host.make (sample_store false) sample_cache
    (fun _ => Returns (HttpResponse.make 401 (lit "Unauthorized") (Throws SyntaxError))).


Definition dm_channel : Channel.t := Channel.make (lit "c1") None.

Definition sample_context : list Message.t := map context_message sample_cached.

(** A completion without usage data. *)
Definition sample_response_no_usage : OpenRouterResponse.t :=
  OpenRouterResponse.make (lit "gen-2")
    (Some [Some (Choice.make (Some (ChoiceMessage.make (lit "sure") (lit "assistant")))
                   (lit "stop") 0)])
    (lit "rekaai/reka-flash-3:free")
    None.

Definition host_no_usage : Host.t :=
  Host.make (sample_store true) sample_cache
    (fun _ => Returns (HttpResponse.make 200 [] (Returns (Some sample_response_no_usage)))).

(** The request fails: the network is down. *)
Definition host_offline : Host.t :=
  Host.make (sample_store true) sample_cache (fun _ => Throws TypeError).

(** The API answers 200 with the body [null]. *)
Definition host_null : Host.t :=
  Host.make (sample_store true) sample_cache
    (fun _ => Returns (HttpResponse.make 200 (lit "null") (Returns None))).

(** The message cache cannot be read. *)
Definition host_cache_fails : Host.t :=
  Host.make (sample_store false) (fun _ => Throws TypeError)
    (fun _ => Returns (HttpResponse.make 200 [] (Returns (Some sample_response)))).

(** The newest cached message has no author. *)
Definition host_authorless : Host.t :=
  Host.make (sample_store false)
    (fun _ => Returns (Some (map cached_message sample_cached
                               ++ [Some (HostMessage.make (Some (lit "?")) None)])))
    (fun _ => Returns (HttpResponse.make 200 [] (Returns (Some sample_response)))).

(** A cache that holds only the last two of the sample messages. *)
Definition host_recent : Host.t :=
  Host.make (sample_store true)
    (fun _ => Returns (Some (map cached_message (skipn 3 sample_cached))))
    (fun _ => Returns (HttpResponse.make 200 [] (Returns (Some sample_response)))).

(* ================================================================== *)
(** * Checks of the JavaScript primitives *)

Example decimal_samples :
  decimal 0 = lit "0" /\ decimal 7 = lit "7" /\ decimal 150 = lit "150" /\
  decimal 1024 = lit "1024" /\ decimal 9007199254740991 = lit "9007199254740991".
Proof. repeat split; reflexivity. Qed.

Example Array_slice_samples :
  Array_slice [1; 2; 3] (-2) = [2; 3] /\
  Array_slice [1; 2; 3] (-5) = [1; 2; 3] /\
  Array_slice [1; 2; 3] 0 = [1; 2; 3] /\
  Array_slice [1; 2; 3] 2 = [3] /\
  Array_slice [1; 2; 3] 7 = [].
Proof. repeat split; reflexivity. Qed.

Example Math_ceil_div_samples :
  Math_ceil_div 0 4 = 0%Z /\ Math_ceil_div 1 4 = 1%Z /\ Math_ceil_div 4 4 = 1%Z /\
  Math_ceil_div 5 4 = 2%Z /\ Math_ceil_div 17 4 = 5%Z.
Proof. repeat split; reflexivity. Qed.

(** 0.0001, 0.0002 and 1000 as binary64. *)
Example literal_samples :
  Number.literal 1 10000 = S754_finite false 7378697629483821 (-66) /\
  Number.literal 2 10000 = S754_finite false 7378697629483821 (-65) /\
  Number.of_N 1000 = S754_finite false 8796093022208000 (-43).
Proof. repeat split; reflexivity. Qed.

(** Known results of [toFixed], among them [(1.005).toFixed(2)] and
    [(1.45).toFixed(1)], which round down because the binary64 nearest
    to the literal lies below it. *)
Example toFixed_samples (toString : Number.t -> jsstring) :
  Number.toFixed toString (Number.literal 1005 1000) 2 = lit "1.00" /\
  Number.toFixed toString (Number.literal 25 10) 0 = lit "3" /\
  Number.toFixed toString (Number.literal 145 100) 1 = lit "1.4" /\
  Number.toFixed toString (Number.literal 8345 1000) 2 = lit "8.35" /\
  Number.toFixed toString (Number.of_N 0) 6 = lit "0.000000" /\
  Number.toFixed toString (Number.of_N 12) 2 = lit "12.00" /\
  Number.toFixed toString (SFopp (Number.literal 15 10)) 0 = lit "-2" /\
  Number.toFixed toString (SFopp (Number.literal 1 10000000)) 6 = lit "-0.000000" /\
  Number.toFixed toString (Number.literal 123456789 1000) 3 = lit "123456.789" /\
  Number.toFixed toString S754_nan 6 = lit "NaN".
Proof. repeat split; reflexivity. Qed.

(* ================================================================== *)
(** * Properties of the request builder *)

Lemma allMessages_eq (messages : list Message.t) (systemPrompt : jsstring) :
  allMessages messages systemPrompt =
  (if truthy systemPrompt then [SystemMessage systemPrompt] else [])
    ++ map Conversation messages.
Proof.
  unfold allMessages. destruct (truthy systemPrompt); reflexivity.
Qed.

Lemma truthy_nonempty (s : jsstring) : truthy s = true <-> s <> [].
Proof.
  destruct s; simpl; split; intro H; congruence.
Qed.

Lemma generateResponse_trace (h : Host.t) (apiKey model : jsstring)
    (messages : list Message.t) (systemPrompt : jsstring) :
  let request := build_request apiKey model messages systemPrompt in
  let run := generateResponse h apiKey model messages systemPrompt in
  match result run with
  | Returns _ => trace run = [fetch request]
  | Throws e => trace run = [fetch request; console_error (lit "Error in generateResponse:") e]
  end.
Proof.
  unfold generateResponse. cbv zeta.
  set (request := build_request apiKey model messages systemPrompt).
  unfold try_catch, bind, emit, lift, throw, ret.
  destruct (Host.remote h request) as [response | e]; simpl; [ | reflexivity].
  destruct (HttpResponse.ok response); simpl; [ | reflexivity].
  destruct (HttpResponse.json response); reflexivity.
Qed.

(** C1.  The request body built by [generateResponse], which is the one
    request it sends, holds a system message at index 0, followed by the
    caller's messages, exactly when the instruction string is non-empty,
    and holds the caller's messages alone exactly when it is empty; the
    caller's messages keep their order, none added or dropped; the body
    carries temperature 0.7, max_tokens 1024 and stream false. *)
Theorem generateResponse_request_body (h : Host.t) (apiKey model : jsstring)
    (messages : list Message.t) (systemPrompt : jsstring) :
  let request := build_request apiKey model messages systemPrompt in
  let body := Request.body request in
  let sent := RequestBody.messages body in
  let offset := if truthy systemPrompt then 1%nat else 0%nat in
  filter is_fetch (trace (generateResponse h apiKey model messages systemPrompt))
    = [fetch request] /\
  (systemPrompt <> [] <->
     sent = SystemMessage systemPrompt :: map Conversation messages) /\
  (systemPrompt = [] <-> sent = map Conversation messages) /\
  (systemPrompt <> [] ->
     option_map BodyMessage_role (nth_error sent 0) = Some system) /\
  length sent = (offset + length messages)%nat /\
  (forall i, nth_error sent (offset + i) = option_map Conversation (nth_error messages i)) /\
  RequestBody.model body = model /\
  RequestBody.temperature body = {| mantissa := 7; decimals := 1 |} /\
  RequestBody.max_tokens body = 1024%N /\
  RequestBody.stream body = false.
Proof.
  cbv zeta. simpl Request.body. simpl RequestBody.messages.
  rewrite allMessages_eq.
  split.
  { pose proof (generateResponse_trace h apiKey model messages systemPrompt) as T.
    cbv zeta in T.
    destruct (result (generateResponse h apiKey model messages systemPrompt));
      rewrite T; reflexivity. }
  destruct systemPrompt as [ | c s]; simpl.
  - repeat split; try congruence; try reflexivity.
    + intro E. apply (f_equal (@length _)) in E. simpl in E.
      rewrite length_map in E. lia.
    + apply length_map.
    + intro i. apply nth_error_map.
  - repeat split; try congruence; try reflexivity.
    + intro E. apply (f_equal (@length _)) in E. simpl in E.
      rewrite length_map in E. lia.
    + now rewrite length_map.
    + intro i. apply nth_error_map.
Qed.

(** When no message of the caller has role "system" -- as for every
    context the collector returns -- the body starts with a message of
    role "system" exactly when the instruction string is non-empty. *)
Lemma system_role_at_index_0 (messages : list Message.t) (systemPrompt : jsstring) :
  (forall m, In m messages -> Message.role m <> system) ->
  (option_map BodyMessage_role (nth_error (allMessages messages systemPrompt) 0)
     = Some system
   <-> systemPrompt <> []).
Proof.
  intro Hrole. rewrite allMessages_eq.
  destruct systemPrompt as [ | c s]; simpl.
  - split; [ | congruence].
    destruct messages as [ | m ms]; simpl; [discriminate | ].
    intro E. injection E as E.
    exfalso. apply (Hrole m); [left; reflexivity | exact E].
  - split; [discriminate | reflexivity].
Qed.

(* ================================================================== *)
(** * Properties of the token estimate *)





(** 17 characters make 5 tokens. *)
Example estimateTokens_sample :
  estimateTokens (array_of sample_messages) = ([], Returns 5%Z).
Proof. reflexivity. Qed.

(* ================================================================== *)
(** * Properties of the context collector *)

Lemma Array_slice_last (A : Type) (l : list A) (n : Z) :
  (0 < n)%Z -> Array_slice l (- n) = last_n (Z.to_nat n) l.
Proof.
  intro Hn. unfold Array_slice, last_n.
  destruct (Z.ltb_spec (- n) 0) as [_ | H]; [ | lia].
  f_equal. lia.
Qed.

Lemma last_n_length (A : Type) (n : nat) (l : list A) :
  length (last_n n l) = Nat.min n (length l).
Proof.
  unfold last_n. rewrite length_skipn. lia.
Qed.

Lemma last_n_all (A : Type) (n : nat) (l : list A) :
  (length l <= n)%nat -> last_n n l = l.
Proof.
  intro H. unfold last_n. replace (length l - n)%nat with 0%nat by lia. reflexivity.
Qed.

Lemma last_n_suffix (A : Type) (n : nat) (l : list A) :
  exists older, l = older ++ last_n n l /\ length older = (length l - n)%nat.
Proof.
  exists (firstn (length l - n) l). unfold last_n. split.
  - symmetry. apply firstn_skipn.
  - rewrite length_firstn. lia.
Qed.

Lemma mapM_to_context_cached (ps : list (nullable jsstring * HostAuthor.t)) :
  mapM to_context (map cached_message ps) = ret (map context_message ps).
Proof.
  induction ps as [ | p ps IH]; simpl; [reflexivity | ].
  rewrite IH. reflexivity.
Qed.

(** Whatever the cache holds, mapping it either throws a [TypeError] or
    returns one message of role [user] per cached message; it causes no
    event. *)
Lemma mapM_to_context_cases (l : list (nullable HostMessage.t)) :
  match mapM to_context l with
  | (t, Returns out) =>
      t = [] /\ length out = length l /\ Forall (fun m => Message.role m = user) out
  | (t, Throws e) => t = [] /\ e = TypeError
  end.
Proof.
  induction l as [ | msg l IH]; simpl.
  - repeat split. constructor.
  - destruct (mapM to_context l) as [t [out | e]];
      unfold to_context, deref, bind, ret, throw;
      destruct msg as [m | ]; simpl; auto;
      destruct (HostMessage.author m) as [a | ]; simpl; auto;
      destruct IH as (-> & Hlen & Hall); repeat split;
      [ now rewrite Hlen | constructor; [reflexivity | exact Hall] ].
Qed.

(** C5.  With a positive context length L and a cache of M messages, the
    collector returns the last min(L, M) of them, oldest first, after one
    read of the cache and without logging an error; with L = 20 and
    M = 5 these are all 5 messages, and an empty cache gives the empty
    list. *)
Theorem getChatContext_last_messages (h : Host.t) (channelId : jsstring)
    (contextLength : Z) (cached : list (nullable jsstring * HostAuthor.t)) :
  Host.cache h channelId = Returns (Some (map cached_message cached)) ->
  (0 < contextLength)%Z ->
  let L := Z.to_nat contextLength in
  let M := length cached in
  let out := map context_message (last_n L cached) in
  getChatContext h channelId contextLength
    = ([MessageStore_getMessages channelId], Returns out) /\
  length out = Nat.min L M /\
  (exists older, cached = older ++ last_n L cached /\ length older = (M - L)%nat) /\
  (L = 20%nat -> M = 5%nat -> out = map context_message cached /\ length out = 5%nat) /\
  (M = 0%nat -> out = []).
Proof.
  intros Hcache Hpos. cbv zeta.
  split; [ | split; [ | split; [ | split]]].
  - unfold getChatContext, getChatContext_body.
    rewrite Hcache. unfold lift, emit. unfold bind at 1 2.
    rewrite (Array_slice_last _ Hpos).
    unfold last_n. rewrite length_map, skipn_map.
    rewrite mapM_to_context_cached. reflexivity.
  - rewrite length_map. apply last_n_length.
  - apply last_n_suffix.
  - intros HL HM. rewrite last_n_all by lia. rewrite length_map. auto.
  - intro HM. destruct cached; [reflexivity | discriminate].
Qed.

(** A channel without a cache gives the empty context, without error. *)
Lemma getChatContext_no_cache (h : Host.t) (channelId : jsstring) (contextLength : Z) :
  Host.cache h channelId = Returns None ->
  getChatContext h channelId contextLength
    = ([MessageStore_getMessages channelId], Returns []).
Proof.
  intro Hcache. unfold getChatContext, getChatContext_body.
  rewrite Hcache. unfold Array_slice. simpl.
  destruct (- contextLength <? 0)%Z; simpl;
    destruct (Z.to_nat _); reflexivity.
Qed.

(** A context length of 0 does not give an empty context: [slice(-0)]
    is [slice(0)], the whole cache. *)
Lemma getChatContext_zero_length (h : Host.t) (channelId : jsstring)
    (cached : list (nullable jsstring * HostAuthor.t)) :
  Host.cache h channelId = Returns (Some (map cached_message cached)) ->
  getChatContext h channelId 0
    = ([MessageStore_getMessages channelId], Returns (map context_message cached)).
Proof.
  intro Hcache. unfold getChatContext, getChatContext_body.
  rewrite Hcache. unfold lift, emit. unfold bind at 1 2.
  assert (Array_slice (map cached_message cached) (- 0) = map cached_message cached) as E.
  { unfold Array_slice. change (- 0 <? 0)%Z with false. cbv iota.
    replace (Z.to_nat _) with 0%nat by lia. reflexivity. }
  rewrite E, mapM_to_context_cached. reflexivity.
Qed.

(** C6.  The collector always returns, and every message it returns has
    role [user], whoever wrote the cached message. *)
Theorem getChatContext_role_user (h : Host.t) (channelId : jsstring) (contextLength : Z) :
  exists out,
    result (getChatContext h channelId contextLength) = Returns out /\
    Forall (fun m => Message.role m = user) out.
Proof.
  unfold getChatContext, getChatContext_body.
  destruct (Host.cache h channelId) as [cached | e]; simpl.
  - pose proof (mapM_to_context_cases
                  (Array_slice (match cached with Some a => a | None => [] end)
                               (- contextLength))) as C.
    destruct (mapM to_context _) as [t [out | e]]; simpl.
    + exists out. split; [reflexivity | apply C].
    + exists []. split; [reflexivity | constructor].
  - exists []. split; [reflexivity | constructor].
Qed.

(* ================================================================== *)
(** * Reasoning about computations *)

Lemma M_eta (A : Type) (m : M A) : m = (trace m, result m).
Proof. now destruct m. Qed.

(** ** The four ways [generateResponse] ends *)

Lemma generateResponse_cases (h : Host.t) (apiKey model : jsstring)
    (messages : list Message.t) (systemPrompt : jsstring) :
  let request := build_request apiKey model messages systemPrompt in
  let logged e := [fetch request; console_error (lit "Error in generateResponse:") e] in
  generateResponse h apiKey model messages systemPrompt =
  match Host.remote h request with
  | Throws e => (logged e, Throws e)
  | Returns response =>
      if HttpResponse.ok response then
        match HttpResponse.json response with
        | Returns r => ([fetch request], Returns r)
        | Throws e => (logged e, Throws e)
        end
      else
        let e := upstream_error (HttpResponse.status response)
                                (HttpResponse.text response) in
        (logged e, Throws e)
  end.
Proof.
  cbv zeta. unfold generateResponse.
  destruct (Host.remote h _) as [response | e]; simpl; [ | reflexivity].
  destruct (HttpResponse.ok response); simpl; [ | reflexivity].
  destruct (HttpResponse.json response); reflexivity.
Qed.

(** ** The collector and the debug summary never throw *)

Lemma getChatContext_cases (h : Host.t) (channelId : jsstring) (contextLength : Z) :
  (exists out,
     getChatContext h channelId contextLength
       = ([MessageStore_getMessages channelId], Returns out) /\
     getChatContext_body h channelId contextLength
       = ([MessageStore_getMessages channelId], Returns out)) \/
  (exists e,
     getChatContext h channelId contextLength
       = ([MessageStore_getMessages channelId;
           console_error (lit "Error getting chat context:") e], Returns []) /\
     getChatContext_body h channelId contextLength
       = ([MessageStore_getMessages channelId], Throws e)).
Proof.
  unfold getChatContext, getChatContext_body.
  destruct (Host.cache h channelId) as [cached | e]; simpl.
  - pose proof (mapM_to_context_cases
                  (Array_slice (match cached with Some a => a | None => [] end)
                               (- contextLength))) as C.
    destruct (mapM to_context _) as [t [out | e]]; simpl.
    + destruct C as (-> & _). left. exists out. auto.
    + destruct C as (-> & _). right. exists e. auto.
  - right. exists e. auto.
Qed.

Lemma formatDebugInfo_cases (toString : Number.t -> jsstring)
    (response : nullable OpenRouterResponse.t) :
  (exists text,
     formatDebugInfo toString response = ([], Returns text) /\
     formatDebugInfo_body toString response = ([], Returns text)) \/
  (exists e,
     formatDebugInfo toString response
       = ([console_error (lit "Error formatting debug info:") e],
          Returns (lit "Error generating debug info")) /\
     formatDebugInfo_body toString response = ([], Throws e)).
Proof.
  unfold formatDebugInfo, formatDebugInfo_body.
  destruct response as [r | ]; simpl.
  - destruct (OpenRouterResponse.usage r) as [u | ]; simpl.
    + left. eexists. split; reflexivity.
    + right. exists TypeError. split; reflexivity.
  - right. exists TypeError. split; reflexivity.
Qed.

Lemma estimateTokens_cases (messages : nullable (list (nullable Message.t))) :
  (exists n,
     estimateTokens messages = ([], Returns n) /\
     estimateTokens_body messages = ([], Returns n)) \/
  (exists e,
     estimateTokens messages
       = ([console_error (lit "Error estimating tokens:") e], Returns 0%Z) /\
     estimateTokens_body messages = ([], Throws e)).
Proof.
  assert (forall l totalChars,
             (exists n, count_chars totalChars l = ([], Returns n)) \/
             (exists e, count_chars totalChars l = ([], Throws e))) as C.
  { induction l as [ | message l IH]; intro totalChars; simpl.
    - left. eexists. reflexivity.
    - destruct message as [m | ]; simpl; [ | right; eexists; reflexivity].
      destruct (Message.content m) as [content | ]; simpl;
        [ | right; eexists; reflexivity].
      destruct (IH (totalChars + N.of_nat (length content))%N) as [[n E] | [e E]];
        rewrite E; [left | right]; eexists; reflexivity. }
  unfold estimateTokens, estimateTokens_body.
  destruct messages as [l | ]; simpl.
  - destruct (C l 0%N) as [[n E] | [e E]]; rewrite E; simpl;
      [left | right]; eexists; split; reflexivity.
  - right. exists TypeError. split; reflexivity.
Qed.

(** C10.  [estimateTokens], [formatDebugInfo] and [getChatContext]
    return on every input: when their body throws, the exception is
    caught and the function returns its fallback (0, the fixed string
    "Error generating debug info", the empty list); when the body
    returns, the function returns the same value. *)
Theorem helpers_total (toString : Number.t -> jsstring)
    (messages : nullable (list (nullable Message.t)))
    (response : nullable OpenRouterResponse.t)
    (h : Host.t) (channelId : jsstring) (contextLength : Z) :
  (exists n, result (estimateTokens messages) = Returns n /\
     match result (estimateTokens_body messages) with
     | Throws _ => n = 0%Z
     | Returns n' => n = n'
     end) /\
  (exists text, result (formatDebugInfo toString response) = Returns text /\
     match result (formatDebugInfo_body toString response) with
     | Throws _ => text = lit "Error generating debug info"
     | Returns text' => text = text'
     end) /\
  (exists out, result (getChatContext h channelId contextLength) = Returns out /\
     match result (getChatContext_body h channelId contextLength) with
     | Throws _ => out = []
     | Returns out' => out = out'
     end).
Proof.
  split; [ | split].
  - destruct (estimateTokens_cases messages) as [(n & E & B) | (e & E & B)];
      rewrite E, B; simpl; eauto.
  - destruct (formatDebugInfo_cases toString response)
      as [(text & E & B) | (e & E & B)]; rewrite E, B; simpl; eauto.
  - destruct (getChatContext_cases h channelId contextLength)
      as [(out & E & B) | (e & E & B)]; rewrite E, B; simpl; eauto.
Qed.

(** Inputs on which the bodies do throw. *)
Example estimateTokens_undefined :
  estimateTokens None
  = ([console_error (lit "Error estimating tokens:") TypeError], Returns 0%Z).
Proof. reflexivity. Qed.

Example estimateTokens_missing_content :
  estimateTokens
    (Some [Some (Message.make (Some (lit "hi")) (Author.make (lit "ana") None) user);
           Some (Message.make None (Author.make (lit "bo") None) user)])
  = ([console_error (lit "Error estimating tokens:") TypeError], Returns 0%Z).
Proof. reflexivity. Qed.

Example formatDebugInfo_missing_usage (toString : Number.t -> jsstring) :
  formatDebugInfo toString
    (Some (OpenRouterResponse.make (lit "gen-1") (Some []) (lit "m") None))
  = ([console_error (lit "Error formatting debug info:") TypeError],
     Returns (lit "Error generating debug info")).
Proof. reflexivity. Qed.

(* ================================================================== *)
(** * Properties of the response flow *)

Ltac debug_info_cases toString response :=
  let text := fresh "text" in
  let e := fresh "e" in
  let E := fresh "E" in
  destruct (formatDebugInfo_cases toString response)
    as [(text & E & _) | (e & E & _)]; rewrite E; clear E.

Ltac flag f := let F := fresh "F" in destruct f eqn:F.

(** Runs a computation as far as its known parts go. *)
Ltac run :=
  cbn [bind ret emit throw deref lift try_catch app no_choices result trace
       fst snd negb orb andb hd length Nat.eqb].

Ltac log_flag h :=
  flag (Settings.logErrors (Host.store h)); run.

(** The requests the flow sends: none without an API key or without
    context, otherwise the one built from the collected context. *)
Lemma generateAIResponse_fetches (toString : Number.t -> jsstring)
    (h : Host.t) (channelId : jsstring) :
  fetches (generateAIResponse toString h channelId) =
  if truthy (Settings.apiKey (Host.store h)) then
    match result (getChatContext h channelId (Settings.contextLength (Host.store h))) with
    | Returns (m :: ms) => [fetch (flow_request h (m :: ms))]
    | _ => []
    end
  else [].
Proof.
  unfold fetches, generateAIResponse, flow_request.
  flag (truthy (Settings.apiKey (Host.store h))); [ | reflexivity].
  destruct (getChatContext_cases h channelId (Settings.contextLength (Host.store h)))
    as [(out & E & _) | (e & E & _)]; rewrite E; clear E; [ | reflexivity].
  destruct out as [ | m ms]; [reflexivity | ].
  run. rewrite generateResponse_cases. cbv zeta.
  destruct (Host.remote h _) as [response | e]; run;
    [ | log_flag h; reflexivity].
  destruct (HttpResponse.ok response); run;
    [ | log_flag h; reflexivity].
  destruct (HttpResponse.json response) as [r | e]; run;
    [ | log_flag h; reflexivity].
  destruct r as [r | ]; run; [ | reflexivity].
  destruct (OpenRouterResponse.choices r) as [[ | c cs] | ] eqn:C; run;
    [reflexivity | | reflexivity].
  destruct c as [c | ]; run; [ | log_flag h; reflexivity].
  destruct (Choice.message c) as [message | ]; run;
    [ | log_flag h; reflexivity].
  flag (Settings.showDebugInfo (Host.store h));
    flag (Settings.showTokenCount (Host.store h)); run;
    try reflexivity;
    debug_info_cases toString (Some r); run;
    try reflexivity;
    destruct (OpenRouterResponse.usage r); run;
    try reflexivity;
    log_flag h; reflexivity.
Qed.

(** C7.  Every request the flow sends carries at least one conversation
    message; without an API key, and with a key but an empty collected
    context, the flow shows a failure notice, returns null and sends no
    request. *)
Theorem flow_sends_no_empty_context (toString : Number.t -> jsstring)
    (h : Host.t) (channelId : jsstring) :
  let run := generateAIResponse toString h channelId in
  let collected := getChatContext h channelId (Settings.contextLength (Host.store h)) in
  (forall request, In (fetch request) (trace run) ->
     exists m ms,
       result collected = Returns (m :: ms) /\
       request = flow_request h (m :: ms) /\
       In (Conversation m) (RequestBody.messages (Request.body request)) /\
       RequestBody.messages (Request.body request) <> []) /\
  (Settings.apiKey (Host.store h) = [] ->
     run = ([showToast (lit "Please set your OpenRouter API key in the plugin settings")
               FAILURE], Returns None)) /\
  (Settings.apiKey (Host.store h) <> [] -> result collected = Returns [] ->
     run = (trace collected ++
              [showToast (lit "No messages found to generate context") FAILURE],
            Returns None) /\
     fetches run = []).
Proof.
  cbv zeta. split; [ | split].
  - intros request Hin.
    assert (In (fetch request) (fetches (generateAIResponse toString h channelId))) as F.
    { unfold fetches. apply filter_In. split; [exact Hin | reflexivity]. }
    rewrite generateAIResponse_fetches in F.
    destruct (truthy (Settings.apiKey (Host.store h))); [ | destruct F].
    destruct (result (getChatContext h channelId _)) as [[ | m ms] | e];
      [destruct F | | destruct F].
    destruct F as [F | []]. injection F as <-.
    exists m, ms. split; [reflexivity | split; [reflexivity | ]].
    unfold flow_request, build_request. cbn [Request.body RequestBody.messages].
    rewrite allMessages_eq. split.
    + apply in_or_app. right. left. reflexivity.
    + destruct (truthy _); discriminate.
  - intro K. unfold generateAIResponse. rewrite K. reflexivity.
  - intros K Hempty.
    assert (generateAIResponse toString h channelId
            = (trace (getChatContext h channelId (Settings.contextLength (Host.store h)))
                 ++ [showToast (lit "No messages found to generate context") FAILURE],
               Returns None)) as E.
    { unfold generateAIResponse.
      apply truthy_nonempty in K. rewrite K.
      rewrite (M_eta (getChatContext h channelId _)), Hempty.
      reflexivity. }
    split; [exact E | ].
    rewrite generateAIResponse_fetches, Hempty.
    destruct (truthy _); reflexivity.
Qed.

Lemma getChatContext_no_outputs (h : Host.t) (channelId : jsstring) (contextLength : Z) :
  outputs (getChatContext h channelId contextLength) = [] /\
  fetches (getChatContext h channelId contextLength) = [].
Proof.
  destruct (getChatContext_cases h channelId contextLength)
    as [(out & E & _) | (e & E & _)]; rewrite E; split; reflexivity.
Qed.

(** ** Non-success statuses *)

(** What the flow does when the API answers with a status outside
    200-299: [generateResponse] logs the error, which carries the status
    and the body, before rethrowing it; the flow logs it once more when
    [logErrors] is set, shows the generic notice and returns null. *)
Lemma upstream_error_flow (toString : Number.t -> jsstring)
    (h : Host.t) (channelId : jsstring) (response : HttpResponse.t) :
  answered h channelId response ->
  HttpResponse.ok response = false ->
  let collected := getChatContext h channelId (Settings.contextLength (Host.store h)) in
  let error := upstream_error (HttpResponse.status response) (HttpResponse.text response) in
  exists context,
    result collected = Returns context /\
    result (generateResponse h (Settings.apiKey (Host.store h))
              (Settings.model (Host.store h)) context
              (Settings.systemInstructions (Host.store h))) = Throws error /\
    generateAIResponse toString h channelId =
      (trace collected ++
         [generating; fetch (flow_request h context);
          console_error (lit "Error in generateResponse:") error] ++
         (if Settings.logErrors (Host.store h)
          then [console_error (lit "Error generating AI response:") error]
          else []) ++
         [error_notice],
       Returns None).
Proof.
  intros (K & m & ms & Hctx & Hremote) Hok. cbv zeta.
  exists (m :: ms). split; [exact Hctx | ].
  pose proof (generateResponse_cases h (Settings.apiKey (Host.store h))
                (Settings.model (Host.store h)) (m :: ms)
                (Settings.systemInstructions (Host.store h))) as G.
  cbv zeta in G. fold (flow_request h (m :: ms)) in G.
  rewrite Hremote, Hok in G.
  split; [rewrite G; reflexivity | ].
  unfold generateAIResponse. rewrite K.
  rewrite (M_eta (getChatContext h channelId _)), Hctx.
  run. rewrite G. run.
  log_flag h; rewrite <- app_assoc; reflexivity.
Qed.

(** On such a status the command delivers nothing to the chat; it only
    shows the generic notice. *)
Lemma upstream_error_no_output (toString : Number.t -> jsstring)
    (h : Host.t) (channel : Channel.t) (response : HttpResponse.t) :
  answered h (Channel.id channel) response ->
  HttpResponse.ok response = false ->
  scope_mismatch (isGuildChannel channel) (Settings.chatScope (Host.store h)) = false ->
  result (generateAIResponse toString h (Channel.id channel)) = Returns None /\
  result (execute toString h channel) = Returns tt /\
  outputs (execute toString h channel) = [] /\
  In error_notice (trace (execute toString h channel)).
Proof.
  intros Hans Hok Hscope.
  destruct (upstream_error_flow toString Hans Hok) as (context & _ & _ & E).
  cbv zeta in E.
  split; [rewrite E; reflexivity | ].
  unfold execute. rewrite Hscope, E. run. cbn [deliver]. run.
  rewrite !app_nil_r.
  split; [reflexivity | split].
  - unfold outputs. cbn [trace fst]. rewrite !filter_app.
    destruct (getChatContext_no_outputs h (Channel.id channel)
                (Settings.contextLength (Host.store h))) as [O _].
    unfold outputs in O. rewrite O.
    destruct (Settings.logErrors (Host.store h)); reflexivity.
  - cbn [trace fst]. apply in_or_app. right.
    do 3 right. apply in_or_app. right. left. reflexivity.
Qed.

(** ** Interpreting the response *)

(** C8.  When the API answers with a well-formed response, the flow
    returns the content of the first choice's message as the generated
    text if there is a choice; if the choices are empty, it shows the
    failure notice and returns null, and the command delivers nothing
    to the chat. *)
Theorem first_choice_is_generated_text (toString : Number.t -> jsstring)
    (h : Host.t) (channel : Channel.t) (response : HttpResponse.t)
    (r : OpenRouterResponse.t) :
  answered h (Channel.id channel) response ->
  HttpResponse.ok response = true ->
  HttpResponse.json response = Returns (Some r) ->
  OpenRouterResponse.well_formed r ->
  let run := generateAIResponse toString h (Channel.id channel) in
  (forall first rest,
     OpenRouterResponse.choices r = Some (first :: rest) ->
     exists c message,
       first = Some c /\ Choice.message c = Some message /\
       result run = Returns (Some (Generated.make (ChoiceMessage.content message) r))) /\
  (OpenRouterResponse.choices r = Some [] ->
     result run = Returns None /\
     In failed_notice (trace run) /\
     (scope_mismatch (isGuildChannel channel) (Settings.chatScope (Host.store h)) = false ->
      result (execute toString h channel) = Returns tt /\
      outputs (execute toString h channel) = [] /\
      In failed_notice (trace (execute toString h channel)))).
Proof.
  intros (K & m & ms & Hctx & Hremote) Hok Hjson ((cs0 & C0 & Hall) & Husage).
  cbv zeta.
  pose proof (generateResponse_cases h (Settings.apiKey (Host.store h))
                (Settings.model (Host.store h)) (m :: ms)
                (Settings.systemInstructions (Host.store h))) as G.
  cbv zeta in G. fold (flow_request h (m :: ms)) in G.
  rewrite Hremote, Hok, Hjson in G.
  destruct (OpenRouterResponse.usage r) as [u | ] eqn:U; [clear Husage | congruence].
  split.
  - intros first rest C.
    rewrite C in C0. injection C0 as <-.
    apply Forall_inv in Hall. destruct Hall as (c & -> & Hm).
    destruct (Choice.message c) as [message | ] eqn:Hmessage; [clear Hm | congruence].
    exists c, message. split; [reflexivity | split; [exact Hmessage | ]].
    unfold generateAIResponse. rewrite K.
    rewrite (M_eta (getChatContext h (Channel.id channel) _)), Hctx.
    run. rewrite G. run. rewrite C. run. rewrite Hmessage. run.
    flag (Settings.showDebugInfo (Host.store h));
      flag (Settings.showTokenCount (Host.store h)); run;
      try reflexivity;
      debug_info_cases toString (Some r); run; rewrite ?U; reflexivity.
  - intro C.
    assert (generateAIResponse toString h (Channel.id channel)
            = (trace (getChatContext h (Channel.id channel)
                        (Settings.contextLength (Host.store h)))
                 ++ [generating; fetch (flow_request h (m :: ms)); failed_notice],
               Returns None)) as E.
    { unfold generateAIResponse. rewrite K.
      rewrite (M_eta (getChatContext h (Channel.id channel) _)), Hctx.
      run. rewrite G. run. rewrite C. reflexivity. }
    split; [rewrite E; reflexivity | ].
    split.
    { rewrite E. cbn [trace fst]. apply in_or_app. right. simpl. auto. }
    intro Scope. unfold execute. rewrite Scope, E. run.
    cbn [deliver]. run. rewrite !app_nil_r.
    split; [reflexivity | split].
    + unfold outputs. cbn [trace fst]. rewrite filter_app.
      destruct (getChatContext_no_outputs h (Channel.id channel)
                  (Settings.contextLength (Host.store h))) as [O _].
      unfold outputs in O. rewrite O. reflexivity.
    + cbn [trace fst]. apply in_or_app. right. simpl. auto.
Qed.

(* ================================================================== *)
(** * Properties of the command *)


Lemma getChatContext_last_messages_witness :
  getChatContext host_ok (lit "c1") 20
    = ([MessageStore_getMessages (lit "c1")], Returns sample_context) /\
  length sample_context = 5%nat.
Proof.
  pose proof (@getChatContext_last_messages host_ok (lit "c1") 20 sample_cached
                eq_refl eq_refl) as (E & _ & _ & F & _).
  destruct (F eq_refl eq_refl) as (Eall & Hlen).
  rewrite Eall in E, Hlen. exact (conj E Hlen).
Defined.

Lemma answered_host_ok :
  answered host_ok (lit "c1")
    (HttpResponse.make 200 [] (Returns (Some sample_response))).
Proof.
  split; [reflexivity | ].
  exists (context_message (Some (lit "hi"), ana)),
         (map context_message (tl sample_cached)).
  split; reflexivity.
Defined.

Lemma sample_response_well_formed : OpenRouterResponse.well_formed sample_response.
Proof.
  split.
  - eexists. split; [reflexivity | ].
    constructor; [ | constructor].
    eexists. split; [reflexivity | discriminate].
  - discriminate.
Defined.

Lemma first_choice_is_generated_text_witness :
  result (generateAIResponse (fun _ => []) host_ok (lit "c1"))
  = Returns (Some (Generated.make (lit "you are welcome") sample_response)).
Proof.
  destruct (@first_choice_is_generated_text (fun _ => []) host_ok dm_channel
              (HttpResponse.make 200 [] (Returns (Some sample_response)))
              sample_response answered_host_ok eq_refl eq_refl
              sample_response_well_formed) as (Hfirst & _).
  destruct (Hfirst _ _ eq_refl) as (c & message & Hc & Hm & Hrun).
  injection Hc as <-. injection Hm as <-. exact Hrun.
Defined.


(** C2.  The API answers 401 with body "Unauthorized" while error
    logging is switched off: [generateResponse] throws the error that
    carries the status and the body, the command shows the generic
    notice and delivers no text -- and the error, with status and body,
    is written to the console all the same, by [generateResponse]'s own
    handler. *)
Theorem upstream_401_logged_with_logging_off (toString : Number.t -> jsstring) :
  Settings.logErrors (Host.store host_401) = false /\
  execute toString host_401 dm_channel =
    ([MessageStore_getMessages (lit "c1");
      generating;
      fetch (flow_request host_401 sample_context);
      console_error (lit "Error in generateResponse:")
        (Error (lit "OpenRouter API error (401): Unauthorized"));
      error_notice],
     Returns tt).
Proof.
  split; reflexivity.
Qed.

(* ================================================================== *)
(** * Decimal rendering *)

Lemma digit_value_digit (d : N) :
  (d < 10)%N -> digit_value (48 + d)%N = Some d.
Proof.
  intro H. unfold digit_value.
  destruct (N.leb_spec 48 (48 + d)%N); [ | lia].
  destruct (N.leb_spec (48 + d)%N 57); [ | lia].
  cbn [andb]. f_equal. lia.
Qed.

Lemma read_decimal_from_app (ds rest : jsstring) (a : N) :
  read_decimal_from a (ds ++ rest) =
  match read_decimal_from a ds with
  | Some v => read_decimal_from v rest
  | None => None
  end.
Proof.
  revert a. induction ds as [ | c ds IH]; intro a; simpl; [reflexivity | ].
  destruct (digit_value c); [apply IH | reflexivity].
Qed.

Lemma read_decimal_from_zeros (k : nat) (s : jsstring) :
  read_decimal_from 0 (repeat 48%N k ++ s) = read_decimal_from 0 s.
Proof.
  induction k as [ | k IH]; [reflexivity | ].
  cbn [repeat app read_decimal_from].
  change (digit_value 48%N) with (Some 0%N). exact IH.
Qed.

Lemma decimal_digits_step (fuel : nat) (n : N) (acc : jsstring) :
  decimal_digits (S fuel) n acc =
  if (n <? 10)%N then (48 + n mod 10)%N :: acc
  else decimal_digits fuel (n / 10) ((48 + n mod 10)%N :: acc).
Proof. reflexivity. Qed.

(** The digits of [n], read back from an accumulator [a], give
    [a * 10^(number of digits) + n]. *)
Lemma decimal_digits_read (fuel : nat) :
  forall (n : N) (acc : jsstring),
    (n < 2 ^ N.of_nat (S fuel))%N ->
    exists ds,
      decimal_digits (S fuel) n acc = ds ++ acc /\
      ds <> [] /\
      forall a, read_decimal_from a ds = Some (a * 10 ^ N.of_nat (length ds) + n)%N.
Proof.
  induction fuel as [ | fuel IH]; intros n acc Hn.
  - change (2 ^ N.of_nat 1)%N with 2%N in Hn.
    exists [(48 + n mod 10)%N]. cbn [decimal_digits].
    destruct (N.ltb_spec n 10); [ | lia].
    split; [reflexivity | split; [discriminate | ]].
    intro a. cbn [read_decimal_from length].
    rewrite digit_value_digit by (apply N.mod_lt; lia).
    rewrite N.mod_small by lia. f_equal.
    change (N.of_nat 1) with 1%N. rewrite N.pow_1_r. lia.
  - rewrite decimal_digits_step.
    destruct (N.ltb_spec n 10) as [Hsmall | Hbig].
    + exists [(48 + n mod 10)%N].
      split; [reflexivity | split; [discriminate | ]].
      intro a. cbn [read_decimal_from length].
      rewrite digit_value_digit by (apply N.mod_lt; lia).
      rewrite N.mod_small by lia. f_equal.
      change (N.of_nat 1) with 1%N. rewrite N.pow_1_r. lia.
    + assert (n / 10 < 2 ^ N.of_nat (S fuel))%N as Hq.
      { rewrite Nat2N.inj_succ, N.pow_succ_r' in Hn.
        apply N.Div0.div_lt_upper_bound. lia. }
      destruct (IH (n / 10)%N ((48 + n mod 10)%N :: acc) Hq) as (ds & E & Hne & R).
      exists (ds ++ [(48 + n mod 10)%N]).
      split; [rewrite E, <- app_assoc; reflexivity | split].
      * destruct ds; discriminate.
      * intro a. rewrite read_decimal_from_app, R.
        cbn [read_decimal_from].
        rewrite digit_value_digit by (apply N.mod_lt; lia).
        f_equal. rewrite length_app. cbn [length].
        rewrite Nat.add_1_r, Nat2N.inj_succ, N.pow_succ_r'.
        pose proof (N.div_mod n 10 ltac:(lia)). lia.
Qed.

Lemma decimal_read (n : N) :
  decimal n <> [] /\ read_decimal_from 0 (decimal n) = Some n.
Proof.
  unfold decimal.
  assert (n < 2 ^ N.of_nat (S (N.to_nat (N.log2 n))))%N as Hn.
  { rewrite Nat2N.inj_succ, N2Nat.id.
    destruct n as [ | p]; [reflexivity | ].
    apply N.log2_spec. lia. }
  destruct (decimal_digits_read [] Hn) as (ds & E & Hne & R).
  rewrite E, app_nil_r. split; [exact Hne | ].
  rewrite R. f_equal.
Qed.

(** The digits of a count, read back, give the count. *)
Lemma read_decimal_decimal (n : N) : read_decimal (decimal n) = Some n.
Proof.
  destruct (decimal_read n) as [Hne R].
  unfold read_decimal. destruct (decimal n); [congruence | exact R].
Qed.

(* ================================================================== *)
(** * Rendering with a fixed number of decimals *)

Lemma scaled_round_nearest (f : N) (m : positive) (e : Z) :
  is_nearest_scaled f m e (Number.scaled_round f m e) /\
  (0 <= Number.scaled_round f m e)%Z.
Proof.
  unfold is_nearest_scaled, Number.scaled_round.
  assert (0 < 10 ^ Z.of_N f)%Z as H10 by (apply Z.pow_pos_nonneg; lia).
  destruct e as [ | p | p].
  - split; [reflexivity | lia].
  - split; [reflexivity | ].
    assert (0 < 2 ^ Zpos p)%Z by (apply Z.pow_pos_nonneg; lia). nia.
  - cbv zeta.
    assert (0 < 2 ^ Zpos p)%Z as Hd by (apply Z.pow_pos_nonneg; lia).
    replace (2 ^ (Zpos p + 1))%Z with (2 * 2 ^ Zpos p)%Z
      by (rewrite Z.pow_add_r by lia; lia).
    set (d := (2 ^ Zpos p)%Z) in *.
    set (s := (Zpos m * 10 ^ Z.of_N f)%Z).
    assert (0 < s)%Z by (unfold s; nia).
    pose proof (Z.div_mod (2 * s + d) (2 * d) ltac:(lia)) as D.
    pose proof (Z.mod_pos_bound (2 * s + d) (2 * d) ltac:(lia)) as B.
    set (n := ((2 * s + d) / (2 * d))%Z) in *.
    split; [nia | ].
    apply Z.div_pos; lia.
Qed.

Lemma with_fraction_read (f : nat) (m : jsstring) :
  f <> 0%nat -> m <> [] ->
  exists ip fp,
    Number.with_fraction f m = ip ++ lit "." ++ fp /\
    ip <> [] /\
    length fp = f /\
    read_decimal_from 0 (ip ++ fp) = read_decimal_from 0 m.
Proof.
  intros Hf Hm. unfold Number.with_fraction. unfold jsstring, code_unit in *.
  destruct f as [ | f']; [congruence | ]. cbv iota beta.
  remember (S f') as f eqn:Ef. cbv zeta.
  set (padded := if (length m <=? f)%nat
                 then repeat 48%N (f + 1 - length m) ++ m else m).
  assert (f < length padded)%nat as Hlen.
  { unfold padded. destruct (Nat.leb_spec (length m) f).
    - rewrite length_app, repeat_length. lia.
    - lia. }
  assert (read_decimal_from 0 padded = read_decimal_from 0 m) as Hread.
  { unfold padded. destruct (length m <=? f)%nat; [ | reflexivity].
    apply read_decimal_from_zeros. }
  exists (firstn (length padded - f) padded), (skipn (length padded - f) padded).
  split; [reflexivity | split; [ | split]].
  - intro E. apply (f_equal (@length _)) in E.
    rewrite length_firstn in E. simpl in E. lia.
  - rewrite length_skipn. lia.
  - rewrite firstn_skipn. exact Hread.
Qed.

Lemma toFixed_six_decimals (toString : Number.t -> jsstring) (x : Number.t) :
  match x with
  | S754_zero _ => True
  | S754_finite false m e => Number.at_least_1e21 m e = false
  | _ => False
  end ->
  exists n,
    denotes_millionths (Number.toFixed toString x 6) n /\
    nearest_millionths x n.
Proof.
  intro Hx. unfold denotes_millionths, nearest_millionths.
  destruct x as [s | s | | s m e]; try contradiction.
  - cbn [Number.toFixed app].
    destruct (decimal_read 0) as [Hne R].
    destruct (@with_fraction_read (N.to_nat 6) (decimal 0) ltac:(discriminate) Hne)
      as (ip & fp & E & Hip & Hfp & Hr).
    exists 0%N. split; [ | reflexivity].
    exists ip, fp. rewrite E.
    repeat split; try assumption.
    unfold read_decimal. rewrite Hr, R.
    destruct (ip ++ fp) eqn:A; [ | reflexivity].
    apply app_eq_nil in A. destruct A. congruence.
  - destruct s; [contradiction | ].
    cbn [Number.toFixed]. rewrite Hx. cbn [app].
    destruct (scaled_round_nearest 6 m e) as [Hnear Hpos].
    set (n := Z.to_N (Number.scaled_round 6 m e)).
    destruct (decimal_read n) as [Hne R].
    destruct (@with_fraction_read (N.to_nat 6) (decimal n) ltac:(discriminate) Hne)
      as (ip & fp & E & Hip & Hfp & Hr).
    exists n. split.
    + exists ip, fp. rewrite E.
      repeat split; try assumption.
      unfold read_decimal. rewrite Hr, R.
      destruct (ip ++ fp) eqn:A; [ | reflexivity].
      apply app_eq_nil in A. destruct A. congruence.
    + unfold n. rewrite Z2N.id by exact Hpos. exact Hnear.
Qed.

Unset Implicit Arguments.

(* ================================================================== *)
(** * Magnitude of the cost *)

Lemma digits2_pos_bounds (p : positive) :
  (2 ^ (Zpos (digits2_pos p) - 1) <= Zpos p < 2 ^ Zpos (digits2_pos p))%Z.
Proof.
  induction p as [p IH | p IH | ]; cbn [digits2_pos].
  - rewrite Pos2Z.inj_succ.
    replace (Z.succ (Zpos (digits2_pos p)) - 1)%Z
      with (Z.succ (Zpos (digits2_pos p) - 1))%Z by lia.
    rewrite !Z.pow_succ_r by lia. lia.
  - rewrite Pos2Z.inj_succ.
    replace (Z.succ (Zpos (digits2_pos p)) - 1)%Z
      with (Z.succ (Zpos (digits2_pos p) - 1))%Z by lia.
    rewrite !Z.pow_succ_r by lia. lia.
  - simpl. lia.
Qed.

Lemma Zdigits2_nonneg (m : Z) : (0 <= Zdigits2 m)%Z.
Proof. destruct m; simpl; lia. Qed.

Lemma Zdigits2_upper (m : Z) : (0 <= m)%Z -> (m < 2 ^ Zdigits2 m)%Z.
Proof.
  destruct m as [ | p | p]; intro H; [simpl; lia | | lia].
  apply digits2_pos_bounds.
Qed.

Lemma Zdigits2_lower (m : Z) : (0 < m)%Z -> (2 ^ (Zdigits2 m - 1) <= m)%Z.
Proof.
  destruct m as [ | p | p]; intro H; try lia.
  apply digits2_pos_bounds.
Qed.

Lemma Zdigits2_le (m k : Z) :
  (0 <= m)%Z -> (0 <= k)%Z -> (m < 2 ^ k)%Z -> (Zdigits2 m <= k)%Z.
Proof.
  intros Hm Hk Hlt.
  destruct (Z.eq_dec m 0) as [-> | Hne]; [simpl; lia | ].
  pose proof (Zdigits2_lower m ltac:(lia)) as L.
  pose proof (Zdigits2_nonneg m) as N.
  destruct (Z.le_gt_cases (Zdigits2 m) k) as [ | Hgt]; [assumption | exfalso].
  assert (2 ^ k <= 2 ^ (Zdigits2 m - 1))%Z by (apply Z.pow_le_mono_r; lia).
  lia.
Qed.

Lemma Zdigits2_succ (m : Z) : (0 <= m)%Z -> (Zdigits2 (m + 1) <= Zdigits2 m + 1)%Z.
Proof.
  intro Hm. pose proof (Zdigits2_upper m Hm) as U.
  pose proof (Zdigits2_nonneg m) as N.
  apply Zdigits2_le; try lia.
  rewrite Z.pow_add_r by lia. lia.
Qed.

Lemma Zdigits2_mul (a b : positive) :
  (Zpos (digits2_pos (a * b)) <= Zpos (digits2_pos a) + Zpos (digits2_pos b))%Z.
Proof.
  pose proof (digits2_pos_bounds a) as [_ A].
  pose proof (digits2_pos_bounds b) as [_ B].
  change (Zpos (digits2_pos (a * b))) with (Zdigits2 (Zpos (a * b))).
  apply Zdigits2_le; try lia.
  rewrite Z.pow_add_r by lia. rewrite Pos2Z.inj_mul. nia.
Qed.

(** ** Shifting right *)

Lemma shr_1_digits (mrs : shr_record) :
  (0 <= shr_m mrs)%Z ->
  (0 <= shr_m (shr_1 mrs))%Z /\
  Zdigits2 (shr_m (shr_1 mrs)) = Z.max 0 (Zdigits2 (shr_m mrs) - 1).
Proof.
  destruct mrs as [m r s]. cbn [shr_m]. intro Hm.
  destruct m as [ | [p | p | ] | p]; cbn [shr_1 shr_m Zdigits2 digits2_pos];
    try lia; rewrite ?Pos2Z.inj_succ; lia.
Qed.

Lemma iter_shr_1_digits (n : positive) :
  forall mrs,
    (0 <= shr_m mrs)%Z ->
    (0 <= shr_m (SpecFloat.iter_pos shr_1 n mrs))%Z /\
    Zdigits2 (shr_m (SpecFloat.iter_pos shr_1 n mrs)) = Z.max 0 (Zdigits2 (shr_m mrs) - Zpos n).
Proof.
  induction n as [n IH | n IH | ]; intros mrs Hm; cbn [SpecFloat.iter_pos].
  - destruct (shr_1_digits mrs Hm) as [H1 D1].
    destruct (IH _ H1) as [H2 D2]. destruct (IH _ H2) as [H3 D3].
    split; [exact H3 | ]. rewrite D3, D2, D1. lia.
  - destruct (IH _ Hm) as [H2 D2]. destruct (IH _ H2) as [H3 D3].
    split; [exact H3 | ]. rewrite D3, D2. lia.
  - destruct (shr_1_digits mrs Hm) as [H1 D1]. split; [exact H1 | ]. rewrite D1. lia.
Qed.

Lemma shr_record_of_loc_m (m : Z) (l : location) : shr_m (shr_record_of_loc m l) = m.
Proof. destruct l as [ | []]; reflexivity. Qed.

(** After [shr_fexp] the mantissa has at most 53 digits, and neither the
    exponent nor the magnitude exceeds the bound it had. *)
Lemma shr_fexp_bound (m e b : Z) (l : location) :
  (0 <= m)%Z -> (Zdigits2 m + e <= b)%Z -> (e <= b)%Z -> (-1074 <= b)%Z ->
  let '(mrs, e') := shr_fexp Number.prec Number.emax m e l in
  (0 <= shr_m mrs)%Z /\
  (Zdigits2 (shr_m mrs) <= 53)%Z /\
  (Zdigits2 (shr_m mrs) + e' <= b)%Z /\
  (e' <= b)%Z.
Proof.
  intros Hm Hmag He Hb.
  unfold shr_fexp, shr, fexp, emin, Number.prec, Number.emax.
  pose proof (Zdigits2_nonneg m) as N.
  destruct (Z.max (Zdigits2 m + e - 53) (3 - 1024 - 53) - e)%Z as [ | n | n] eqn:En.
  - rewrite shr_record_of_loc_m. repeat split; lia.
  - destruct (iter_shr_1_digits n (shr_record_of_loc m l)) as [H D].
    { now rewrite shr_record_of_loc_m. }
    rewrite shr_record_of_loc_m in D.
    repeat split; try assumption; rewrite ?D; lia.
  - rewrite shr_record_of_loc_m. repeat split; lia.
Qed.

Lemma round_nearest_even_bound (m : Z) (l : location) :
  (0 <= m)%Z ->
  (0 <= round_nearest_even m l)%Z /\
  (Zdigits2 (round_nearest_even m l) <= Zdigits2 m + 1)%Z.
Proof.
  intro Hm. pose proof (Zdigits2_succ m Hm) as S.
  unfold round_nearest_even.
  destruct l as [ | [ | | ]]; try destruct (Z.even m); split; lia.
Qed.

(** Rounding keeps the sign and raises the magnitude by at most one
    binary digit; there is no overflow below [2^971]. *)
Lemma binary_round_aux_below (mx ex b : Z) (lx : location) :
  (0 <= mx)%Z -> (Zdigits2 mx + ex <= b)%Z -> (ex <= b)%Z ->
  (-1074 <= b)%Z -> (b + 1 <= 971)%Z ->
  below_pow2 (b + 1) (binary_round_aux Number.prec Number.emax false mx ex lx).
Proof.
  intros Hm Hmag He Hlo Hhi. unfold binary_round_aux.
  pose proof (shr_fexp_bound mx ex b lx Hm Hmag He Hlo) as S1.
  destruct (shr_fexp Number.prec Number.emax mx ex lx) as [mrs' e'].
  destruct S1 as (H1 & D1 & M1 & E1).
  destruct (round_nearest_even_bound (shr_m mrs') (loc_of_shr_record mrs') H1)
    as [H2 D2].
  pose proof (shr_fexp_bound (round_nearest_even (shr_m mrs') (loc_of_shr_record mrs'))
                e' (b + 1) loc_Exact H2 ltac:(lia) ltac:(lia) ltac:(lia)) as S2.
  destruct (shr_fexp Number.prec Number.emax _ e' loc_Exact) as [mrs'' e''].
  destruct S2 as (H3 & D3 & M3 & E3).
  destruct (shr_m mrs'') as [ | m | m]; [exact I | | lia].
  unfold Number.emax, Number.prec.
  destruct (Z.leb_spec e'' (1024 - 53)); [ | lia].
  exact M3.
Qed.

Lemma iter_xO_digits (m d : positive) :
  digits2_pos (Pos.iter xO m d) = (digits2_pos m + d)%positive.
Proof.
  induction d as [ | d IH] using Pos.peano_ind.
  - simpl. lia.
  - rewrite Pos.iter_succ. cbn [digits2_pos]. rewrite IH. lia.
Qed.

Lemma shl_align_digits (mx : positive) (ex ex' : Z) :
  let '(mz, ez) := shl_align mx ex ex' in
  (Zpos (digits2_pos mz) + ez = Zpos (digits2_pos mx) + ex)%Z /\
  (ez <= ex)%Z /\ (ez = Z.min ex ex')%Z.
Proof.
  unfold shl_align.
  destruct (ex' - ex)%Z as [ | d | d] eqn:E; try (repeat split; lia).
  rewrite iter_xO_digits. repeat split; lia.
Qed.

Lemma binary_round_below (mx : positive) (ex b : Z) :
  (Zpos (digits2_pos mx) + ex <= b)%Z ->
  (-1074 <= b)%Z -> (b + 1 <= 971)%Z ->
  below_pow2 (b + 1) (binary_round Number.prec Number.emax false mx ex).
Proof.
  intros Hmag Hlo Hhi. unfold binary_round.
  pose proof (shl_align_digits mx ex
                (fexp Number.prec Number.emax (Zpos (digits2_pos mx) + ex))) as A.
  destruct (shl_align mx ex _) as [mz ez]. destruct A as (A1 & A2 & _).
  apply binary_round_aux_below; cbn [Zdigits2]; lia.
Qed.

Lemma of_N_below (n : N) :
  (n <= Number.MAX_SAFE_INTEGER)%N -> below_pow2 54 (Number.of_N n).
Proof.
  intro Hn. unfold Number.of_N, binary_normalize.
  destruct n as [ | p]; [exact I | ].
  cbn [Z.of_N].
  apply (binary_round_below p 0 53); try lia.
  assert (Zpos p < 2 ^ 53)%Z as Hp.
  { unfold Number.MAX_SAFE_INTEGER in Hn. lia. }
  pose proof (Zdigits2_le (Zpos p) 53 ltac:(lia) ltac:(lia) Hp) as D.
  cbn [Zdigits2] in D. lia.
Qed.

Lemma iter_xO_value (m d : positive) :
  Zpos (Pos.iter xO m d) = (Zpos m * 2 ^ Zpos d)%Z.
Proof.
  induction d as [ | d IH] using Pos.peano_ind.
  - simpl. lia.
  - rewrite Pos.iter_succ, Pos2Z.inj_xO, IH, Pos2Z.inj_succ, Z.pow_succ_r by lia. lia.
Qed.

(** An integer below 2^53 is held exactly: the number [of_N n] is
    [m * 2^-k] with [m = n * 2^k], a mantissa of 53 digits. *)
Lemma of_N_exact (p : positive) :
  (Zpos p < 2 ^ 53)%Z ->
  exists m k,
    Number.of_N (Npos p) = S754_finite false m (- Z.of_N k) /\
    Zpos m = (Zpos p * 2 ^ Z.of_N k)%Z /\
    Zpos (digits2_pos m) = 53%Z /\
    (Z.of_N k <= 52)%Z.
Proof.
  intro Hp.
  pose proof (digits2_pos_bounds p) as [L U].
  assert (Zpos (digits2_pos p) <= 53)%Z as D.
  { pose proof (Zdigits2_le (Zpos p) 53 ltac:(lia) ltac:(lia) Hp). assumption. }
  unfold Number.of_N, binary_normalize. cbn [Z.of_N].
  unfold binary_round.
  pose proof (shl_align_digits p 0
                (fexp Number.prec Number.emax (Zpos (digits2_pos p) + 0))) as A.
  assert (exists k, shl_align p 0 (fexp Number.prec Number.emax (Zpos (digits2_pos p) + 0))
                    = (match k with N0 => p | Npos d => Pos.iter xO p d end, (- Z.of_N k)%Z)
                    /\ Z.of_N k = (53 - Zpos (digits2_pos p))%Z) as (k & Ek & Hk).
  { unfold shl_align, fexp, emin, Number.prec, Number.emax.
    replace (Z.max (Zpos (digits2_pos p) + 0 - 53) (3 - 1024 - 53))
      with (Zpos (digits2_pos p) - 53)%Z by lia.
    destruct (Zpos (digits2_pos p) - 53 - 0)%Z as [ | d | d] eqn:E.
    - exists 0%N. split; [reflexivity | cbn [Z.of_N]; lia].
    - lia.
    - exists (Npos d). split; [ | cbn [Z.of_N]; lia].
      f_equal. cbn [Z.of_N]. lia. }
  rewrite Ek in *. destruct A as (A1 & _ & _).
  set (mz := match k with N0 => p | Npos d => Pos.iter xO p d end) in *.
  assert (Zpos mz = Zpos p * 2 ^ Z.of_N k)%Z as Hmz.
  { unfold mz. destruct k as [ | d]; [simpl; lia | apply iter_xO_value]. }
  exists mz, k. split; [ | split; [exact Hmz | lia]].
  unfold binary_round_aux.
  assert (forall l, shr_fexp Number.prec Number.emax (Zpos mz) (- Z.of_N k) l
                    = (shr_record_of_loc (Zpos mz) l, (- Z.of_N k)%Z)) as S.
  { intro l. unfold shr_fexp, fexp, emin, Number.prec, Number.emax. cbn [Zdigits2].
    replace (Z.max (Zpos (digits2_pos mz) + - Z.of_N k - 53) (3 - 1024 - 53)
             - - Z.of_N k)%Z with 0%Z by lia.
    reflexivity. }
  rewrite S. cbn [shr_record_of_loc shr_m loc_of_shr_record round_nearest_even].
  rewrite S. cbn [shr_record_of_loc shr_m].
  unfold Number.emax, Number.prec.
  destruct (Z.leb_spec (- Z.of_N k) (1024 - 53)); [reflexivity | lia].
Qed.

Lemma mul_below (x y : Number.t) (bx by' : Z) :
  below_pow2 bx x -> below_pow2 by' y ->
  (-1074 <= bx + by')%Z -> (bx + by' + 1 <= 971)%Z ->
  below_pow2 (bx + by' + 1) (Number.mul x y).
Proof.
  intros Hx Hy Hlo Hhi.
  destruct x as [[ | ] | | | [ | ] mx ex]; try contradiction;
    destruct y as [[ | ] | | | [ | ] my ey]; try contradiction;
    try exact I.
  cbn [below_pow2] in Hx, Hy.
  unfold Number.mul. cbn [SFmul xorb].
  pose proof (Zdigits2_mul mx my) as D.
  apply binary_round_aux_below; cbn [Zdigits2]; lia.
Qed.

Lemma below_pow2_weaken (b b' : Z) (x : Number.t) :
  (b <= b')%Z -> below_pow2 b x -> below_pow2 b' x.
Proof.
  intro H. destruct x as [[ | ] | | | [ | ] m e]; cbn [below_pow2]; auto. lia.
Qed.

(** Division by a positive finite number of magnitude [2^(magy-1)] or
    more. *)
Lemma div_below (x : Number.t) (bx : Z) (my : positive) (ey : Z) :
  below_pow2 bx x ->
  let magy := (Zpos (digits2_pos my) + ey)%Z in
  (-1074 <= bx - magy + 1)%Z -> (bx - magy + 2 <= 971)%Z ->
  below_pow2 (bx - magy + 2) (Number.div x (S754_finite false my ey)).
Proof.
  intros Hx magy Hlo Hhi.
  destruct x as [[ | ] | | | [ | ] mx ex]; try contradiction; [exact I | ].
  cbn [below_pow2] in Hx.
  unfold Number.div. cbn [SFdiv xorb].
  unfold SFdiv_core_binary. cbn [Zdigits2].
  set (dx := Zpos (digits2_pos mx)) in *.
  set (dy := Zpos (digits2_pos my)) in *.
  set (e' := Z.min (fexp Number.prec Number.emax (dx + ex - (dy + ey))) (ex - ey)).
  assert (e' <= ex - ey)%Z as He1 by (unfold e'; lia).
  assert (e' <= Z.max (dx + ex - (dy + ey) - 53) (-1074))%Z as He2.
  { unfold e', fexp, emin, Number.prec, Number.emax. lia. }
  set (s := (ex - ey - e')%Z).
  assert (0 <= s)%Z as Hs by (unfold s; lia).
  set (m' := match s with
             | 0%Z => Zpos mx
             | Zpos _ => Z.shiftl (Zpos mx) s
             | Zneg _ => 0%Z
             end).
  assert (m' = Zpos mx * 2 ^ s)%Z as Hm'.
  { unfold m'. destruct s as [ | p | p] eqn:Es.
    - simpl. lia.
    - apply Z.shiftl_mul_pow2. lia.
    - lia. }
  clearbody m'.
  destruct (Z.div_eucl m' (Zpos my)) as [q r] eqn:Ediv.
  assert (q = m' / Zpos my)%Z as Hq by (unfold Z.div; now rewrite Ediv).
  assert (0 < 2 ^ s)%Z as Hpow by (apply Z.pow_pos_nonneg; lia).
  assert (0 <= q)%Z as Hq0 by (rewrite Hq; apply Z.div_pos; nia).
  replace (bx - magy + 2)%Z with ((bx - magy + 1) + 1)%Z by lia.
  subst magy. fold dy. fold dy in Hlo, Hhi.
  assert (e' <= bx - (dy + ey) + 1)%Z as He3 by lia.
  apply binary_round_aux_below; [exact Hq0 | | exact He3 | exact Hlo | lia].
  destruct (Z.eq_dec q 0) as [-> | Hq1].
  - change (Zdigits2 0) with 0%Z. lia.
  - pose proof (Zdigits2_lower q ltac:(lia)) as Lq.
    pose proof (Zdigits2_nonneg q) as Nq.
    assert (1 <= Zdigits2 q)%Z as Dq1.
    { destruct q; simpl in *; lia. }
    pose proof (digits2_pos_bounds my) as [Ly _]. fold dy in Ly.
    pose proof (digits2_pos_bounds mx) as [_ Ux]. fold dx in Ux.
    assert (q * Zpos my <= m')%Z as Hqm.
    { rewrite Hq. rewrite Z.mul_comm. apply Z.mul_div_le. lia. }
    assert (2 ^ (Zdigits2 q - 1) * 2 ^ (dy - 1) <= q * Zpos my)%Z as Hprod.
    { apply Z.mul_le_mono_nonneg; try lia;
        apply Z.pow_nonneg; lia. }
    assert (m' < 2 ^ dx * 2 ^ s)%Z as Hupper by (rewrite Hm'; nia).
    rewrite <- Z.pow_add_r in Hprod by (unfold dy; lia).
    rewrite <- Z.pow_add_r in Hupper by (unfold dx; lia).
    assert (2 ^ (Zdigits2 q - 1 + (dy - 1)) < 2 ^ (dx + s))%Z as Hlt by lia.
    apply Z.pow_lt_mono_r_iff in Hlt; [ | lia | unfold dx; lia].
    unfold s in Hlt. lia.
Qed.

Lemma add_below (x y : Number.t) (b : Z) :
  below_pow2 b x -> below_pow2 b y ->
  (-1074 <= b + 1)%Z -> (b + 2 <= 971)%Z ->
  below_pow2 (b + 2) (Number.add x y).
Proof.
  intros Hx Hy Hlo Hhi.
  destruct x as [[ | ] | | | [ | ] mx ex]; try contradiction;
    destruct y as [[ | ] | | | [ | ] my ey]; try contradiction;
    unfold Number.add; cbn [SFadd];
    try (apply (@below_pow2_weaken b); [lia | assumption]).
  cbn [below_pow2] in Hx, Hy.
  pose proof (shl_align_digits mx ex (Z.min ex ey)) as A.
  pose proof (shl_align_digits my ey (Z.min ex ey)) as B.
  destruct (shl_align mx ex (Z.min ex ey)) as [a ea].
  destruct (shl_align my ey (Z.min ex ey)) as [c ec].
  destruct A as (A1 & A2 & A3). destruct B as (B1 & B2 & B3).
  cbn [fst cond_Zopp Z.add binary_normalize].
  replace (b + 2)%Z with ((b + 1) + 1)%Z by lia.
  apply binary_round_below; try lia.
  pose proof (digits2_pos_bounds a) as [_ Ua].
  pose proof (digits2_pos_bounds c) as [_ Uc].
  set (da := Zpos (digits2_pos a)) in *.
  set (dc := Zpos (digits2_pos c)) in *.
  assert (2 ^ da <= 2 ^ Z.max da dc)%Z by (apply Z.pow_le_mono_r; lia).
  assert (2 ^ dc <= 2 ^ Z.max da dc)%Z by (apply Z.pow_le_mono_r; lia).
  assert (Zdigits2 (Zpos (a + c)) <= Z.max da dc + 1)%Z as D.
  { apply Zdigits2_le; try lia.
    rewrite Z.pow_add_r, Z.pow_1_r by lia. rewrite Pos2Z.inj_add. lia. }
  cbn [Zdigits2] in D.
  change (IntDef.Z.min ex ey) with (Z.min ex ey). lia.
Qed.

(** For token counts that JavaScript holds exactly, the total cost is
    zero or positive and below [2^37]. *)
Lemma totalCost_below (u : Usage.t) :
  (Usage.prompt_tokens u <= Number.MAX_SAFE_INTEGER)%N ->
  (Usage.completion_tokens u <= Number.MAX_SAFE_INTEGER)%N ->
  below_pow2 37 (totalCost u).
Proof.
  intros Hp Hc. unfold totalCost, promptCost, completionCost.
  assert (Number.of_N 1000 = S754_finite false 8796093022208000 (-43)) as E1000
    by reflexivity.
  assert (Number.literal 1 10000 = S754_finite false 7378697629483821 (-66)) as E1
    by reflexivity.
  assert (Number.literal 2 10000 = S754_finite false 7378697629483821 (-65)) as E2
    by reflexivity.
  rewrite E1000.
  pose proof (@div_below _ 54 8796093022208000 (-43)
                (@of_N_below _ Hp) ltac:(simpl; lia) ltac:(simpl; lia)) as Dp.
  pose proof (@div_below _ 54 8796093022208000 (-43)
                (@of_N_below _ Hc) ltac:(simpl; lia) ltac:(simpl; lia)) as Dc.
  change (54 - (Zpos (digits2_pos 8796093022208000) + -43) + 2)%Z with 46%Z in Dp, Dc.
  assert (below_pow2 (-12) (Number.literal 1 10000)) as L1 by (rewrite E1; simpl; lia).
  assert (below_pow2 (-12) (Number.literal 2 10000)) as L2 by (rewrite E2; simpl; lia).
  pose proof (@mul_below _ _ _ _ Dp L1 ltac:(lia) ltac:(lia)) as Mp.
  pose proof (@mul_below _ _ _ _ Dc L2 ltac:(lia) ltac:(lia)) as Mc.
  change (46 + -12 + 1)%Z with 35%Z in Mp, Mc.
  exact (@add_below _ _ _ Mp Mc ltac:(lia) ltac:(lia)).
Qed.

Lemma below_pow2_small (x : Number.t) :
  below_pow2 37 x ->
  match x with
  | S754_zero _ => True
  | S754_finite false m e => Number.at_least_1e21 m e = false
  | _ => False
  end.
Proof.
  destruct x as [[ | ] | | | [ | ] m e]; cbn [below_pow2]; auto.
  intro H. unfold Number.at_least_1e21.
  pose proof (digits2_pos_bounds m) as [_ U].
  set (d := Zpos (digits2_pos m)) in *.
  assert (2 ^ 37 < 10 ^ 21)%Z as C by reflexivity.
  destruct e as [ | p | p].
  - apply Z.leb_gt.
    assert (2 ^ d <= 2 ^ 37)%Z by (apply Z.pow_le_mono_r; lia).
    rewrite Z.pow_0_r. lia.
  - apply Z.leb_gt.
    assert (2 ^ d * 2 ^ Zpos p <= 2 ^ 37)%Z.
    { rewrite <- Z.pow_add_r by (unfold d; lia). apply Z.pow_le_mono_r; lia. }
    assert (0 < 2 ^ Zpos p)%Z by (apply Z.pow_pos_nonneg; lia).
    nia.
  - apply Z.leb_gt.
    assert (2 ^ d <= 2 ^ 37 * 2 ^ Zpos p)%Z.
    { rewrite <- Z.pow_add_r by lia. apply Z.pow_le_mono_r; lia. }
    assert (0 < 2 ^ Zpos p)%Z by (apply Z.pow_pos_nonneg; lia).
    nia.
Qed.

(* ================================================================== *)
(** * Accuracy of the cost *)

Lemma pow2_pos (e : Z) : (0 < pow2 e)%Q.
Proof. apply Qpower_0_lt. reflexivity. Qed.

Lemma pow2_add (a b : Z) : (pow2 (a + b) == pow2 a * pow2 b)%Q.
Proof. apply Qpower_plus. discriminate. Qed.

Lemma pow2_1 : (pow2 1 == 2)%Q.
Proof. reflexivity. Qed.

Lemma pow2_0 : (pow2 0 == 1)%Q.
Proof. reflexivity. Qed.

Lemma pow2_succ (e : Z) : (pow2 (e + 1) == 2 * pow2 e)%Q.
Proof. rewrite pow2_add, pow2_1. ring. Qed.

Lemma pow2_Z (k : Z) : (0 <= k)%Z -> (pow2 k == inject_Z (2 ^ k))%Q.
Proof. intro H. unfold pow2. now rewrite Zpower_Qpower. Qed.

Lemma pow2_le (a b : Z) : (a <= b)%Z -> (pow2 a <= pow2 b)%Q.
Proof.
  intro H. replace b with (a + (b - a))%Z by lia.
  rewrite pow2_add.
  pose proof (pow2_pos a).
  assert (1 <= pow2 (b - a))%Q.
  { rewrite pow2_Z by lia. change 1%Q with (inject_Z 1). rewrite <- Zle_Qle.
    assert (0 < 2 ^ (b - a))%Z by (apply Z.pow_pos_nonneg; lia). lia. }
  nra.
Qed.

(** ** Positions and locations *)

Lemma rec_pos_ext (mrs : shr_record) (y y' : Q) :
  (y == y')%Q -> rec_pos mrs y -> rec_pos mrs y'.
Proof.
  intros E (H0 & H1 & H2 & H3). unfold rec_pos.
  setoid_rewrite <- E. auto.
Qed.

Lemma inject_Z_xO (p : positive) : (inject_Z (Zpos p~0) == 2 * inject_Z (Zpos p))%Q.
Proof. rewrite Pos2Z.inj_xO, inject_Z_mult. reflexivity. Qed.

Lemma inject_Z_xI (p : positive) : (inject_Z (Zpos p~1) == 2 * inject_Z (Zpos p) + 1)%Q.
Proof. rewrite Pos2Z.inj_xI, inject_Z_plus, inject_Z_mult. reflexivity. Qed.

Lemma orb_true_cases (r s : bool) (P R S : Prop) :
  (r = true <-> R) -> (s = true <-> S) -> (P <-> R \/ S) -> (r || s = true <-> P).
Proof.
  intros HR HS HP. rewrite orb_true_iff, HR, HS. tauto.
Qed.

Lemma shr_1_pos (mrs : shr_record) (y : Q) :
  rec_pos mrs y -> rec_pos (shr_1 mrs) (y * (1 # 2))%Q.
Proof.
  destruct mrs as [m r s]. unfold rec_pos. cbn [shr_m shr_r shr_s].
  intros (H0 & H1 & H2 & H3).
  assert (r || s = true <-> ~ (y == inject_Z m)%Q) as Hrs.
  { apply (@orb_true_cases r s _ _ _ H2 H3).
    destruct (Qeq_dec y (inject_Z m)) as [E | NE].
    - split; [tauto | ]. intros [A | [A _]]; [lra | tauto].
    - split; [ | tauto]. intros _.
      destruct (Qeq_dec y (inject_Z m + (1 # 2))) as [E2 | NE2]; [left; lra | right; tauto]. }
  destruct m as [ | [p | p | ] | p]; try lia; cbn [shr_1 shr_m shr_r shr_s].
  - (* 0 *)
    change (inject_Z 0) with 0%Q in *.
    split; [lia | ]. split; [lra | ]. split; [split; [discriminate | intro; lra] | ].
    rewrite Hrs. split.
    + intro NE. split; intro E; [apply NE; lra | lra].
    + intros [NE _] E. apply NE. lra.
  - (* 2p + 1 *)
    pose proof (inject_Z_xI p) as Ep.
    split; [lia | ]. split; [lra | ]. split; [split; [intros _; lra | reflexivity] | ].
    rewrite Hrs. split.
    + intro NE. split; intro E; [lra | apply NE; lra].
    + intros [_ NE] E. apply NE. lra.
  - (* 2p *)
    pose proof (inject_Z_xO p) as Ep.
    split; [lia | ]. split; [lra | ]. split; [split; [discriminate | intro; lra] | ].
    rewrite Hrs. split.
    + intro NE. split; intro E; [apply NE; lra | lra].
    + intros [NE _] E. apply NE. lra.
  - (* 1 *)
    change (inject_Z 1) with 1%Q in *. change (inject_Z 0) with 0%Q.
    split; [lia | ]. split; [lra | ]. split; [split; [intros _; lra | reflexivity] | ].
    rewrite Hrs. split.
    + intro NE. split; intro E; [lra | apply NE; lra].
    + intros [_ NE] E. apply NE. lra.
Qed.

Lemma pow2_m1 : (pow2 (-1) == 1 # 2)%Q.
Proof. reflexivity. Qed.

Lemma iter_shr_1_pos (n : positive) :
  forall (mrs : shr_record) (y : Q),
    rec_pos mrs y -> rec_pos (SpecFloat.iter_pos shr_1 n mrs) (y * pow2 (Zneg n))%Q.
Proof.
  induction n as [n IH | n IH | ]; intros mrs y H; cbn [SpecFloat.iter_pos].
  - apply (rec_pos_ext _ (y * (1 # 2) * pow2 (Zneg n) * pow2 (Zneg n))%Q).
    + replace (Zneg n~1) with (-1 + (Zneg n + Zneg n))%Z by lia.
      rewrite !pow2_add, pow2_m1. ring.
    + apply IH, IH, shr_1_pos, H.
  - apply (rec_pos_ext _ (y * pow2 (Zneg n) * pow2 (Zneg n))%Q).
    + replace (Zneg n~0) with (Zneg n + Zneg n)%Z by lia.
      rewrite !pow2_add. ring.
    + apply IH, IH, H.
  - apply (rec_pos_ext _ (y * (1 # 2))%Q).
    + rewrite pow2_m1. reflexivity.
    + apply shr_1_pos, H.
Qed.

Lemma shr_record_of_loc_pos (m : Z) (l : location) (y : Q) :
  loc_pos m l y -> rec_pos (shr_record_of_loc m l) y.
Proof.
  intros [H0 H]. unfold rec_pos.
  destruct l as [ | [ | | ]]; cbn [shr_record_of_loc shr_m shr_r shr_s];
    (split; [exact H0 | ]); (split; [lra | ]); split; split;
    try discriminate; try reflexivity; try tauto; try lra;
    try (intros _; split; intro; lra);
    try (intros [A B]; exfalso; (apply A; lra) || (apply B; lra)).
Qed.

(** Rounding to nearest: the result is within one half of the position. *)
Lemma round_nearest_even_pos (mrs : shr_record) (y : Q) :
  rec_pos mrs y ->
  let m1 := round_nearest_even (shr_m mrs) (loc_of_shr_record mrs) in
  (m1 = shr_m mrs \/ m1 = (shr_m mrs + 1)%Z) /\
  (- (1 # 2) <= inject_Z m1 - y <= 1 # 2)%Q.
Proof.
  destruct mrs as [m r s]. unfold rec_pos. cbn [shr_m shr_r shr_s].
  intros (H0 & H1 & H2 & H3). cbv zeta.
  assert (inject_Z (m + 1) == inject_Z m + 1)%Q as E1
    by (rewrite inject_Z_plus; reflexivity).
  destruct r, s; cbn [loc_of_shr_record round_nearest_even].
  - (* above one half *)
    split; [right; reflexivity | ].
    assert (inject_Z m + (1 # 2) <= y)%Q by (apply H2; reflexivity). lra.
  - (* one half *)
    assert (inject_Z m + (1 # 2) <= y)%Q as A by (apply H2; reflexivity).
    assert (y == inject_Z m + (1 # 2))%Q as E.
    { destruct (Qeq_dec y (inject_Z m + (1 # 2))) as [E | NE]; [exact E | ].
      assert (false = true) by (apply H3; split; [lra | exact NE]). discriminate. }
    destruct (Z.even m);
      (split; [(left; reflexivity) || (right; reflexivity) | lra]).
  - (* below one half *)
    split; [left; reflexivity | ].
    assert (~ (inject_Z m + (1 # 2) <= y)%Q) as A.
    { intro A. apply H2 in A. discriminate. }
    lra.
  - (* exact *)
    split; [left; reflexivity | ].
    assert (~ (inject_Z m + (1 # 2) <= y)%Q) as A.
    { intro A. apply H2 in A. discriminate. }
    assert (y == inject_Z m)%Q as E.
    { destruct (Qeq_dec y (inject_Z m)) as [E | NE]; [exact E | ].
      assert (false = true) by (apply H3; split; [exact NE | lra]). discriminate. }
    lra.
Qed.

Lemma Zdigits2_ge (m k : Z) : (2 ^ k <= m)%Z -> (0 <= k)%Z -> (k < Zdigits2 m)%Z.
Proof.
  intros H Hk.
  assert (0 < 2 ^ k)%Z by (apply Z.pow_pos_nonneg; lia).
  pose proof (Zdigits2_upper m ltac:(lia)) as U.
  pose proof (Zdigits2_nonneg m) as N.
  apply (Z.pow_lt_mono_r_iff 2); lia.
Qed.

Lemma inject_Z_le (a b : Z) : (a <= b)%Z -> (inject_Z a <= inject_Z b)%Q.
Proof. intro H. now rewrite <- Zle_Qle. Qed.

(** The first shift of [binary_round_aux]: a mantissa of 53 digits or
    more is shortened to 53 digits, and the position is kept. *)
Lemma shr_fexp_pos (mx ex : Z) (lx : location) (y : Q) :
  loc_pos mx lx y ->
  (53 <= Zdigits2 mx)%Z ->
  let e1 := (Zdigits2 mx + ex - 53)%Z in
  (-1074 <= e1)%Z ->
  exists mrs y',
    shr_fexp Number.prec Number.emax mx ex lx = (mrs, e1) /\
    rec_pos mrs y' /\
    Zdigits2 (shr_m mrs) = 53%Z /\
    (y' * pow2 e1 == y * pow2 ex)%Q.
Proof.
  intros Hloc Hd e1 Hlo.
  pose proof (shr_record_of_loc_pos mx lx y Hloc) as R0.
  destruct Hloc as [H0 _].
  unfold shr_fexp, shr, fexp, emin, Number.prec, Number.emax.
  replace (Z.max (Zdigits2 mx + ex - 53) (3 - 1024 - 53)) with e1 by (unfold e1; lia).
  destruct (e1 - ex)%Z as [ | n | n] eqn:En.
  - exists (shr_record_of_loc mx lx), y.
    assert (e1 = ex) as Ee by lia.
    split; [now rewrite Ee | ]. split; [exact R0 | ]. split.
    + rewrite shr_record_of_loc_m. unfold e1 in En. lia.
    + now rewrite Ee.
  - exists (SpecFloat.iter_pos shr_1 n (shr_record_of_loc mx lx)), (y * pow2 (Zneg n))%Q.
    split; [f_equal; lia | ]. split; [apply iter_shr_1_pos, R0 | ]. split.
    + destruct (iter_shr_1_digits n (shr_record_of_loc mx lx)) as [_ D].
      { rewrite shr_record_of_loc_m. exact H0. }
      rewrite D, shr_record_of_loc_m. unfold e1 in En. lia.
    + assert (pow2 ex == pow2 e1 * pow2 (Zneg n))%Q as Ep.
      { rewrite <- pow2_add. replace (e1 + Zneg n)%Z with ex by lia. reflexivity. }
      rewrite Ep. ring.
  - unfold e1 in En. lia.
Qed.

(** Rounding a position of 53 digits or more: the result is a normal
    number within half a unit in the last place of the value
    [y * 2^ex]. *)
Lemma binary_round_aux_correct (mx ex : Z) (lx : location) (y : Q) :
  loc_pos mx lx y ->
  (53 <= Zdigits2 mx)%Z ->
  let e1 := (Zdigits2 mx + ex - 53)%Z in
  (-1074 <= e1)%Z -> (e1 + 1 <= 971)%Z ->
  exists m e,
    binary_round_aux Number.prec Number.emax false mx ex lx = S754_finite false m e /\
    Zpos (digits2_pos m) = 53%Z /\
    (e1 <= e <= e1 + 1)%Z /\
    (- (pow2 e1 * (1 # 2)) <= inject_Z (Zpos m) * pow2 e - y * pow2 ex
       <= pow2 e1 * (1 # 2))%Q /\
    (pow2 (e1 + 52) <= y * pow2 ex)%Q.
Proof.
  intros Hloc Hd e1 Hlo Hhi.
  destruct (shr_fexp_pos mx ex lx y Hloc Hd Hlo) as (mrs & y' & E1 & R1 & D1 & Ey).
  fold e1 in E1, Ey.
  unfold binary_round_aux. rewrite E1.
  destruct (round_nearest_even_pos mrs y' R1) as [Hm1 Herr].
  set (m1 := round_nearest_even (shr_m mrs) (loc_of_shr_record mrs)) in *.
  destruct R1 as (M0 & My & _ & _).
  assert (2 ^ 52 <= shr_m mrs < 2 ^ 53)%Z as Mb.
  { split.
    - pose proof (Zdigits2_lower (shr_m mrs)) as L. rewrite D1 in L.
      apply L. destruct (shr_m mrs); simpl in D1; lia.
    - pose proof (Zdigits2_upper (shr_m mrs) M0) as U. now rewrite D1 in U. }
  pose proof (pow2_pos e1) as P1.
  assert (pow2 (e1 + 52) <= y * pow2 ex)%Q as Hlow.
  { rewrite <- Ey, Z.add_comm, pow2_add, (pow2_Z 52) by lia.
    pose proof (inject_Z_le _ _ (proj1 Mb)). nra. }
  assert (- (pow2 e1 * (1 # 2)) <= inject_Z m1 * pow2 e1 - y * pow2 ex
          <= pow2 e1 * (1 # 2))%Q as Hm1err.
  { rewrite <- Ey. nra. }
  assert (2 ^ 52 <= m1 <= 2 ^ 53)%Z as M1b by lia.
  destruct (Z.eq_dec m1 (2 ^ 53)) as [Etop | Ntop].
  - (* the mantissa was rounded up to 2^53 *)
    exists (2 ^ 52)%positive, (e1 + 1)%Z.
    rewrite Etop in *.
    split.
    { unfold shr_fexp, shr, fexp, emin, Number.prec, Number.emax.
      change (Zdigits2 (2 ^ 53)) with 54%Z.
      replace (Z.max (54 + e1 - 53) (3 - 1024 - 53) - e1)%Z with 1%Z by lia.
      cbn [shr_record_of_loc SpecFloat.iter_pos].
      change (shr_1 {| shr_m := 2 ^ 53; shr_r := false; shr_s := false |})
        with {| shr_m := 2 ^ 52; shr_r := false; shr_s := false |}.
      cbn [shr_m].
      change (2 ^ 52)%Z with (Zpos (2 ^ 52)).
      destruct (Z.leb_spec (e1 + 1) (1024 - 53)); [reflexivity | lia]. }
    split; [reflexivity | ]. split; [lia | ]. split; [ | exact Hlow].
    rewrite pow2_succ.
    change (inject_Z (Zpos (2 ^ 52))) with (inject_Z (2 ^ 52)).
    assert (inject_Z (2 ^ 53) == 2 * inject_Z (2 ^ 52))%Q as E2 by reflexivity.
    assert (inject_Z (2 ^ 52) * (2 * pow2 e1) == inject_Z (2 ^ 53) * pow2 e1)%Q as E3
      by (rewrite E2; ring).
    rewrite E3. exact Hm1err.
  - (* the mantissa keeps 53 digits *)
    assert (Zdigits2 m1 = 53%Z) as D2.
    { pose proof (Zdigits2_le m1 53 ltac:(lia) ltac:(lia) ltac:(lia)).
      pose proof (Zdigits2_ge m1 52 ltac:(lia) ltac:(lia)). lia. }
    destruct m1 as [ | pm | pm] eqn:Em1; try lia.
    exists pm, e1.
    split.
    { unfold shr_fexp, shr, fexp, emin, Number.prec, Number.emax.
      rewrite D2.
      replace (Z.max (53 + e1 - 53) (3 - 1024 - 53) - e1)%Z with 0%Z by lia.
      cbn [shr_record_of_loc shr_m].
      destruct (Z.leb_spec e1 (1024 - 53)); [reflexivity | lia]. }
    split; [exact D2 | ]. split; [lia | ]. split; assumption.
Qed.

Lemma round_near (mx ex : Z) (lx : location) (y : Q) :
  loc_pos mx lx y ->
  (53 <= Zdigits2 mx)%Z ->
  let e1 := (Zdigits2 mx + ex - 53)%Z in
  (-1074 <= e1)%Z -> (e1 + 1 <= 971)%Z ->
  normal e1 (e1 + 1) (binary_round_aux Number.prec Number.emax false mx ex lx) /\
  near (B2Q (binary_round_aux Number.prec Number.emax false mx ex lx)) (y * pow2 ex).
Proof.
  intros Hloc Hd e1 Hlo Hhi.
  destruct (binary_round_aux_correct mx ex lx y Hloc Hd Hlo Hhi)
    as (m & e & E & D & He & Herr & Hlow).
  fold e1 in He, Herr, Hlow. rewrite E.
  split; [exists m, e; auto | ].
  unfold near, unit_roundoff. cbn [B2Q].
  assert (pow2 e1 * (1 # 2) == pow2 (e1 + 52) * pow2 (-53))%Q as Eu.
  { rewrite <- pow2_add. replace (e1 + 52 + -53)%Z with (e1 + -1)%Z by lia.
    rewrite pow2_add, pow2_m1. reflexivity. }
  rewrite Eu in Herr.
  pose proof (pow2_pos (-53)). pose proof (pow2_pos (e1 + 52)).
  nra.
Qed.

Lemma digits_53_bounds (m : positive) :
  Zpos (digits2_pos m) = 53%Z -> (2 ^ 52 <= Zpos m < 2 ^ 53)%Z.
Proof.
  intro D. pose proof (digits2_pos_bounds m) as B. rewrite D in B. exact B.
Qed.

(** ** Multiplication *)

Lemma mul_near (x y : Number.t) (lx hx ly hy : Z) :
  normal lx hx x -> normal ly hy y ->
  (-1074 <= lx + ly + 52)%Z -> (hx + hy + 54 <= 971)%Z ->
  normal (lx + ly + 52) (hx + hy + 54) (Number.mul x y) /\
  near (B2Q (Number.mul x y)) (B2Q x * B2Q y).
Proof.
  intros (mx & ex & -> & Dx & Hex) (my & ey & -> & Dy & Hey) Hlo Hhi.
  unfold Number.mul. cbn [SFmul xorb B2Q].
  pose proof (digits_53_bounds mx Dx) as Bx.
  pose proof (digits_53_bounds my Dy) as By.
  assert (105 <= Zdigits2 (Zpos (mx * my)) <= 106)%Z as Dm.
  { split.
    - assert (104 < Zdigits2 (Zpos (mx * my)))%Z; [ | lia].
      apply Zdigits2_ge; [ | lia].
      rewrite Pos2Z.inj_mul.
      change (2 ^ 104)%Z with (2 ^ 52 * 2 ^ 52)%Z. nia.
    - pose proof (Zdigits2_mul mx my) as M. cbn [Zdigits2]. lia. }
  assert (loc_pos (Zpos (mx * my)) loc_Exact (inject_Z (Zpos (mx * my)))) as Hloc.
  { split; [lia | reflexivity]. }
  destruct (round_near (Zpos (mx * my)) (ex + ey) loc_Exact _ Hloc
              ltac:(lia) ltac:(lia) ltac:(lia)) as [(m & e & E & D & He) Hn].
  split.
  - exists m, e. split; [exact E | split; [exact D | lia]].
  - unfold near in *.
    assert (inject_Z (Zpos (mx * my)) * pow2 (ex + ey)
            == inject_Z (Zpos mx) * pow2 ex * (inject_Z (Zpos my) * pow2 ey))%Q as Ev.
    { rewrite Pos2Z.inj_mul, inject_Z_mult, pow2_add. ring. }
    rewrite <- Ev. exact Hn.
Qed.

(** ** Division *)

(** The location computed from the remainder [r] of a division by [b]
    describes the position [q + r / b]. *)
Lemma new_location_pos (b q r : Z) (t : Q) :
  (0 <= q)%Z -> (0 <= r < b)%Z ->
  (t * inject_Z b == 1)%Q ->
  loc_pos q (new_location b r) (inject_Z q + inject_Z r * t)%Q.
Proof.
  intros Hq Hr Ht.
  assert (0 < inject_Z b)%Q as Hb.
  { change 0%Q with (inject_Z 0). rewrite <- Zlt_Qlt. lia. }
  assert (0 < t)%Q as Htpos.
  { destruct (Qlt_le_dec 0 t) as [ | Hneg]; [assumption | exfalso]. nra. }
  assert (0 <= inject_Z r)%Q as Hr0.
  { change 0%Q with (inject_Z 0). rewrite <- Zle_Qle. lia. }
  assert (forall k : Z, (2 * r < k * b)%Z -> (2 * (inject_Z r * t) < inject_Z k)%Q) as Lt2.
  { intros k H. rewrite Zlt_Qlt, !inject_Z_mult in H.
    change (inject_Z 2) with 2%Q in H. nra. }
  assert (forall k : Z, (k * b < 2 * r)%Z -> (inject_Z k < 2 * (inject_Z r * t))%Q) as Gt2.
  { intros k H. rewrite Zlt_Qlt, !inject_Z_mult in H.
    change (inject_Z 2) with 2%Q in H. nra. }
  assert (forall k : Z, (k * b = 2 * r)%Z -> (inject_Z k == 2 * (inject_Z r * t))%Q) as Eq2.
  { intros k H. apply (f_equal inject_Z) in H. rewrite !inject_Z_mult in H.
    change (inject_Z 2) with 2%Q in H.
    assert (inject_Z k * inject_Z b == 2 * inject_Z r)%Q as H' by (rewrite H; reflexivity).
    nra. }
  change (inject_Z 1) with 1%Q in *. change (inject_Z 0) with 0%Q in *.
  split; [exact Hq | ].
  unfold new_location, new_location_even, new_location_odd.
  destruct (Z.even b) eqn:Eb.
  - destruct (Z.eqb_spec r 0) as [-> | Hne].
    + change (inject_Z 0) with 0%Q. lra.
    + destruct (Z.compare_spec (2 * r) b) as [E | L | G].
      * pose proof (Eq2 1%Z ltac:(lia)) as A. change (inject_Z 1) with 1%Q in A. lra.
      * pose proof (Lt2 1%Z ltac:(lia)) as A. change (inject_Z 1) with 1%Q in A.
        pose proof (Gt2 0%Z ltac:(lia)) as B. change (inject_Z 0) with 0%Q in B. lra.
      * pose proof (Gt2 1%Z ltac:(lia)) as A. change (inject_Z 1) with 1%Q in A.
        pose proof (Lt2 2%Z ltac:(lia)) as B. change (inject_Z 2) with 2%Q in B. lra.
  - assert (2 * r <> b)%Z as Hodd.
    { intro E. rewrite <- E, Z.even_mul in Eb. discriminate. }
    destruct (Z.eqb_spec r 0) as [-> | Hne].
    + change (inject_Z 0) with 0%Q. lra.
    + destruct (Z.compare_spec (2 * r + 1) b) as [E | L | G].
      * pose proof (Lt2 1%Z ltac:(lia)) as A. change (inject_Z 1) with 1%Q in A.
        pose proof (Gt2 0%Z ltac:(lia)) as B. change (inject_Z 0) with 0%Q in B. lra.
      * pose proof (Lt2 1%Z ltac:(lia)) as A. change (inject_Z 1) with 1%Q in A.
        pose proof (Gt2 0%Z ltac:(lia)) as B. change (inject_Z 0) with 0%Q in B. lra.
      * pose proof (Gt2 1%Z ltac:(lia)) as A. change (inject_Z 1) with 1%Q in A.
        pose proof (Lt2 2%Z ltac:(lia)) as B. change (inject_Z 2) with 2%Q in B. lra.
Qed.

Lemma B2Q_normal_pos (x : Number.t) (lo hi : Z) : normal lo hi x -> (0 < B2Q x)%Q.
Proof.
  intros (m & e & -> & _ & _). cbn [B2Q].
  pose proof (pow2_pos e).
  assert (0 < inject_Z (Zpos m))%Q by (change 0%Q with (inject_Z 0); rewrite <- Zlt_Qlt; lia).
  nra.
Qed.

(** Division of normal numbers: the result is within one rounding of the
    exact quotient [V]. *)
Lemma div_near (x d : Number.t) (lx hx ld hd : Z) :
  normal lx hx x -> normal ld hd d ->
  (-1074 <= lx - hd - 53)%Z -> (hx - ld - 51 <= 971)%Z ->
  exists V : Q,
    (V * B2Q d == B2Q x)%Q /\
    normal (lx - hd - 53) (hx - ld - 51) (Number.div x d) /\
    near (B2Q (Number.div x d)) V.
Proof.
  intros (mx & ex & -> & Dx & Hex) (my & ey & -> & Dy & Hey) Hlo Hhi.
  unfold Number.div. cbn [SFdiv xorb B2Q].
  pose proof (digits_53_bounds mx Dx) as Bx.
  pose proof (digits_53_bounds my Dy) as By.
  unfold SFdiv_core_binary. cbn [Zdigits2]. rewrite Dx, Dy.
  unfold fexp, emin, Number.prec, Number.emax.
  replace (Z.max (53 + ex - (53 + ey) - 53) (3 - 1024 - 53)) with (ex - ey - 53)%Z by lia.
  change (IntDef.Z.min (ex - ey - 53) (ex - ey)) with (Z.min (ex - ey - 53) (ex - ey)).
  replace (Z.min (ex - ey - 53) (ex - ey)) with (ex - ey - 53)%Z by lia.
  replace (ex - ey - (ex - ey - 53))%Z with 53%Z by lia.
  cbv iota beta.
  rewrite Z.shiftl_mul_pow2 by lia.
  pose proof (Z_div_mod (Zpos mx * 2 ^ 53) (Zpos my) ltac:(lia)) as DM.
  destruct (Z.div_eucl (Zpos mx * 2 ^ 53) (Zpos my)) as [q r].
  destruct DM as [Eq Hr].
  assert (2 ^ 52 <= q < 2 ^ 54)%Z as Bq.
  { change (2 ^ 54)%Z with (2 ^ 52 * 4)%Z. change (2 ^ 53)%Z with (2 ^ 52 * 2)%Z in *.
    split; nia. }
  assert (53 <= Zdigits2 q <= 54)%Z as Dq.
  { split.
    - pose proof (Zdigits2_ge q 52 ltac:(lia) ltac:(lia)). lia.
    - apply Zdigits2_le; lia. }
  set (t := (/ inject_Z (Zpos my))%Q).
  assert (t * inject_Z (Zpos my) == 1)%Q as Ht.
  { unfold t. field. change 0%Q with (inject_Z 0). intro E.
    apply inject_Z_injective in E. discriminate. }
  pose proof (new_location_pos (Zpos my) q r t ltac:(lia) Hr Ht) as Hloc.
  set (y := (inject_Z q + inject_Z r * t)%Q) in *.
  destruct (round_near q (ex - ey - 53) (new_location (Zpos my) r) y Hloc
              ltac:(lia) ltac:(lia) ltac:(lia)) as [(m & e & E & D & He) Hn].
  exists (y * pow2 (ex - ey - 53))%Q.
  split; [ | split].
  - assert (y * inject_Z (Zpos my) == inject_Z (Zpos mx) * pow2 53)%Q as Ey.
    { unfold y. rewrite (pow2_Z 53) by lia.
      assert (inject_Z (Zpos mx * 2 ^ 53) == inject_Z (Zpos my * q + r))%Q as E'
        by (rewrite Eq; reflexivity).
      rewrite inject_Z_plus, !inject_Z_mult in E'.
      assert (inject_Z r * t * inject_Z (Zpos my) == inject_Z r)%Q as Er
        by (rewrite <- Qmult_assoc, Ht; ring).
      transitivity (inject_Z q * inject_Z (Zpos my)
                    + inject_Z r * t * inject_Z (Zpos my))%Q; [ring | ].
      rewrite Er, E'. ring. }
    assert (pow2 ex == pow2 (ex - ey - 53) * pow2 ey * pow2 53)%Q as Ep.
    { rewrite <- !pow2_add. replace (ex - ey - 53 + ey + 53)%Z with ex by lia. reflexivity. }
    rewrite Ep.
    transitivity (y * inject_Z (Zpos my) * (pow2 (ex - ey - 53) * pow2 ey))%Q; [ring | ].
    rewrite Ey. ring.
  - exists m, e. split; [exact E | split; [exact D | lia]].
  - exact Hn.
Qed.

(** ** Addition *)

Lemma shl_align_value (mx : positive) (ex ex' : Z) :
  let '(mz, ez) := shl_align mx ex ex' in
  (inject_Z (Zpos mz) * pow2 ez == inject_Z (Zpos mx) * pow2 ex)%Q.
Proof.
  unfold shl_align.
  destruct (ex' - ex)%Z as [ | d | d] eqn:E; try reflexivity.
  rewrite iter_xO_value, inject_Z_mult, <- (pow2_Z (Zpos d)) by lia.
  replace ex with (ex' + Zpos d)%Z by lia.
  rewrite pow2_add. ring.
Qed.

Lemma add_near (x y : Number.t) (lo hi : Z) :
  normal lo hi x -> normal lo hi y ->
  (-1074 <= lo)%Z -> (hi + 2 <= 971)%Z ->
  normal lo (hi + 2) (Number.add x y) /\
  near (B2Q (Number.add x y)) (B2Q x + B2Q y).
Proof.
  intros (mx & ex & -> & Dx & Hex) (my & ey & -> & Dy & Hey) Hlo Hhi.
  unfold Number.add. cbn [SFadd B2Q].
  change (IntDef.Z.min ex ey) with (Z.min ex ey).
  pose proof (shl_align_digits mx ex (Z.min ex ey)) as A.
  pose proof (shl_align_value mx ex (Z.min ex ey)) as VA.
  pose proof (shl_align_digits my ey (Z.min ex ey)) as C.
  pose proof (shl_align_value my ey (Z.min ex ey)) as VC.
  destruct (shl_align mx ex (Z.min ex ey)) as [a ea].
  destruct (shl_align my ey (Z.min ex ey)) as [c ec].
  destruct A as (A1 & _ & A3). destruct C as (C1 & _ & C3).
  assert (ea = Z.min ex ey) as Ea by lia.
  assert (ec = Z.min ex ey) as Ec by lia.
  subst ea ec.
  set (ez := Z.min ex ey) in *.
  cbn [fst cond_Zopp Z.add binary_normalize].
  pose proof (digits2_pos_bounds a) as [La Ua].
  pose proof (digits2_pos_bounds c) as [Lc Uc].
  set (da := Zpos (digits2_pos a)) in *.
  set (dc := Zpos (digits2_pos c)) in *.
  assert (Z.max da dc <= Zdigits2 (Zpos (a + c)) <= Z.max da dc + 1)%Z as Dm.
  { rewrite Pos2Z.inj_add. split.
    - assert (Z.max da dc - 1 < Zdigits2 (Zpos a + Zpos c))%Z; [ | lia].
      apply Zdigits2_ge; [ | lia].
      destruct (Z.max_spec da dc) as [[_ ->] | [_ ->]]; lia.
    - apply Zdigits2_le; try lia.
      assert (2 ^ da <= 2 ^ Z.max da dc)%Z by (apply Z.pow_le_mono_r; lia).
      assert (2 ^ dc <= 2 ^ Z.max da dc)%Z by (apply Z.pow_le_mono_r; lia).
      rewrite Z.pow_add_r, Z.pow_1_r by lia. lia. }
  assert (Z.max da dc + ez = 53 + Z.max ex ey)%Z as Emax by lia.
  unfold binary_round.
  assert (shl_align (a + c) ez
            (fexp Number.prec Number.emax (Zpos (digits2_pos (a + c)) + ez))
          = (a + c, ez)%positive) as Es.
  { unfold shl_align, fexp, emin, Number.prec, Number.emax.
    cbn [Zdigits2] in Dm.
    destruct (Z.max (Zpos (digits2_pos (a + c)) + ez - 53) (3 - 1024 - 53) - ez)%Z
      eqn:E; try reflexivity. lia. }
  rewrite Es.
  assert (loc_pos (Zpos (a + c)) loc_Exact (inject_Z (Zpos (a + c)))) as Hloc.
  { split; [lia | reflexivity]. }
  destruct (round_near (Zpos (a + c)) ez loc_Exact _ Hloc
              ltac:(lia) ltac:(lia) ltac:(lia)) as [(m & e & E & D & He) Hn].
  split.
  - exists m, e. split; [exact E | split; [exact D | lia]].
  - unfold near in *.
    assert (inject_Z (Zpos (a + c)) * pow2 ez
            == inject_Z (Zpos mx) * pow2 ex + inject_Z (Zpos my) * pow2 ey)%Q as Ev.
    { replace (Z.min ex ez) with ez in VA by (unfold ez; lia).
      replace (Z.min ey ez) with ez in VC by (unfold ez; lia).
      rewrite Pos2Z.inj_add, inject_Z_plus. lra. }
    rewrite <- Ev. exact Hn.
Qed.

(** ** Integers *)

Lemma of_N_normal (p : positive) :
  (Zpos p < 2 ^ 53)%Z ->
  normal (-52) 0 (Number.of_N (Npos p)) /\
  (B2Q (Number.of_N (Npos p)) == inject_Z (Zpos p))%Q.
Proof.
  intro Hp.
  destruct (of_N_exact p Hp) as (m & k & E & Em & Dm & Hk).
  rewrite E. split.
  - exists m, (- Z.of_N k)%Z. split; [reflexivity | split; [exact Dm | lia]].
  - cbn [B2Q]. rewrite Em, inject_Z_mult, <- (pow2_Z (Z.of_N k)) by lia.
    assert (pow2 (Z.of_N k) * pow2 (- Z.of_N k) == 1)%Q as E1.
    { rewrite <- pow2_add. replace (Z.of_N k + - Z.of_N k)%Z with 0%Z by lia. reflexivity. }
    rewrite <- Qmult_assoc, E1. ring.
Qed.

(** ** Chains of roundings *)

Lemma near_within (x X : Q) :
  near x X -> within (1 - unit_roundoff) (1 + unit_roundoff) x X.
Proof. exact (fun H => H). Qed.

Lemma Qmul_le_mono (a b c d : Q) :
  (0 <= a)%Q -> (a <= b)%Q -> (0 <= c)%Q -> (c <= d)%Q -> (a * c <= b * d)%Q.
Proof. intros. nra. Qed.

Lemma within_mul (l1 h1 l2 h2 x X y Y : Q) :
  within l1 h1 x X -> within l2 h2 y Y ->
  (0 <= X)%Q -> (0 <= Y)%Q -> (0 <= l1)%Q -> (0 <= l2)%Q ->
  within (l1 * l2) (h1 * h2) (x * y) (X * Y).
Proof.
  unfold within. intros [Lx Ux] [Ly Uy] HX HY Hl1 Hl2.
  assert (0 <= X * l1)%Q by nra. assert (0 <= Y * l2)%Q by nra.
  assert (X * Y * (l1 * l2) == (X * l1) * (Y * l2))%Q as E1 by ring.
  assert (X * Y * (h1 * h2) == (X * h1) * (Y * h2))%Q as E2 by ring.
  rewrite E1, E2.
  split; apply Qmul_le_mono; lra.
Qed.

Lemma within_add (l h x X y Y : Q) :
  within l h x X -> within l h y Y -> within l h (x + y) (X + Y).
Proof. unfold within. intros [Lx Ux] [Ly Uy]. split; lra. Qed.

Lemma within_weaken (l h l' h' x X : Q) :
  within l h x X -> (0 <= X)%Q -> (l' <= l)%Q -> (h <= h')%Q -> within l' h' x X.
Proof. unfold within. intros [L U] HX Hl Hh. split; nra. Qed.

Lemma within_ext (l h x X X' : Q) :
  (X == X')%Q -> within l h x X -> within l h x X'.
Proof. unfold within. intros E [L U]. rewrite <- E. split; assumption. Qed.

Lemma normal_weaken (lo hi lo' hi' : Z) (x : Number.t) :
  normal lo hi x -> (lo' <= lo)%Z -> (hi <= hi')%Z -> normal lo' hi' x.
Proof.
  intros (m & e & E & D & He) Hl Hh. exists m, e. repeat split; auto; lia.
Qed.

(** ** The constants of the cost formula *)

Lemma thousand_normal :
  normal (-43) (-43) (Number.of_N 1000) /\ (B2Q (Number.of_N 1000) == 1000)%Q.
Proof.
  split; [ | reflexivity].
  exists 8796093022208000%positive, (-43)%Z. repeat split; reflexivity || lia.
Qed.

Lemma literal_0_0001 :
  normal (-66) (-66) (Number.literal 1 10000) /\
  near (B2Q (Number.literal 1 10000)) (1 # 10000).
Proof.
  split.
  - exists 7378697629483821%positive, (-66)%Z. repeat split; reflexivity || lia.
  - split; apply Qle_bool_iff; reflexivity.
Qed.

Lemma literal_0_0002 :
  normal (-65) (-65) (Number.literal 2 10000) /\
  near (B2Q (Number.literal 2 10000)) (2 # 10000).
Proof.
  split.
  - exists 7378697629483821%positive, (-65)%Z. repeat split; reflexivity || lia.
  - split; apply Qle_bool_iff; reflexivity.
Qed.

Lemma within_trans (l1 h1 l2 h2 x X' X : Q) :
  within l1 h1 x X' -> within l2 h2 X' X ->
  (0 <= l1)%Q -> (0 <= h1)%Q ->
  within (l2 * l1) (h2 * h1) x X.
Proof.
  unfold within. intros [L1 U1] [L2 U2] Hl1 Hh1.
  assert (X * (l2 * l1) == (X * l2) * l1)%Q as E1 by ring.
  assert (X * (h2 * h1) == (X * h2) * h1)%Q as E2 by ring.
  rewrite E1, E2. split; nra.
Qed.

Lemma lo1_hi1 : (0 <= lo1)%Q /\ (0 <= hi1)%Q.
Proof. split; apply Qle_bool_iff; reflexivity. Qed.

(** One term of the cost: [n / 1000 * k], for a literal [k] that
    approximates [K]; three roundings in all. *)
Lemma term_near (n : positive) (k : Number.t) (ek : Z) (K : Q) :
  (Zpos n < 2 ^ 53)%Z ->
  normal ek ek k -> (-66 <= ek <= -65)%Z ->
  near (B2Q k) K -> (0 <= K)%Q ->
  let t := Number.mul (Number.div (Number.of_N (Npos n)) (Number.of_N 1000)) k in
  normal (-76) (-19) t /\
  within (lo1 * lo1 * lo1) (hi1 * hi1 * hi1) (B2Q t)
         (inject_Z (Zpos n) * (1 # 1000) * K).
Proof.
  intros Hn Nk Hek Hk HK. cbv zeta.
  destruct lo1_hi1 as [Hlo Hhi].
  destruct (of_N_normal n Hn) as [N0 E0].
  destruct thousand_normal as [N1000 E1000].
  destruct (div_near _ _ _ _ _ _ N0 N1000 ltac:(lia) ltac:(lia))
    as (V & EV & Na & Ha).
  rewrite E0, E1000 in EV.
  assert (V == inject_Z (Zpos n) * (1 # 1000))%Q as EV' by lra.
  assert (0 <= inject_Z (Zpos n))%Q as Hn0.
  { change 0%Q with (inject_Z 0). rewrite <- Zle_Qle. lia. }
  destruct (mul_near _ _ _ _ _ _ Na Nk ltac:(lia) ltac:(lia)) as [Nt Ht].
  split.
  - apply (normal_weaken _ _ _ _ _ Nt); lia.
  - apply near_within in Ha, Hk, Ht. fold lo1 hi1 in Ha, Hk, Ht.
    pose proof (within_mul _ _ _ _ _ _ _ _ Ha Hk ltac:(lra) HK Hlo Hlo) as Hp.
    pose proof (within_trans _ _ _ _ _ _ _ Ht Hp Hlo Hhi) as Hc.
    apply (within_ext _ _ _ (V * K)); [rewrite EV'; reflexivity | exact Hc].
Qed.

Lemma exact_cost_nonneg (p c : N) : (0 <= exact_cost p c)%Q.
Proof.
  unfold exact_cost.
  assert (0 <= inject_Z (Z.of_N p))%Q
    by (change 0%Q with (inject_Z 0); rewrite <- Zle_Qle; lia).
  assert (0 <= inject_Z (Z.of_N c))%Q
    by (change 0%Q with (inject_Z 0); rewrite <- Zle_Qle; lia).
  lra.
Qed.

Lemma add_zero_l (y : Number.t) (lo hi : Z) :
  normal lo hi y -> Number.add (S754_zero false) y = y.
Proof. intros (m & e & -> & _). reflexivity. Qed.

Lemma add_zero_r (x : Number.t) (lo hi : Z) :
  normal lo hi x -> Number.add x (S754_zero false) = x.
Proof. intros (m & e & -> & _). reflexivity. Qed.

(** The cost in binary64 is zero for no tokens, and otherwise a positive
    number within four roundings of the exact cost. *)
Lemma totalCost_accuracy (p c t : N) :
  (p < 2 ^ 53)%N -> (c < 2 ^ 53)%N ->
  let x := totalCost (Usage.make p c t) in
  (x = S754_zero false /\ p = 0%N /\ c = 0%N) \/
  (exists m e,
     x = S754_finite false m e /\
     within lo4 hi4 (inject_Z (Zpos m) * pow2 e) (exact_cost p c)).
Proof.
  intros Hp Hc. cbv zeta.
  destruct lo1_hi1 as [Hlo Hhi].
  assert (lo1 <= 1)%Q as Hlo1 by (apply Qle_bool_iff; reflexivity).
  assert (1 <= hi1)%Q as Hhi1 by (apply Qle_bool_iff; reflexivity).
  assert (lo4 <= lo1 * lo1 * lo1)%Q as L43 by (apply Qle_bool_iff; reflexivity).
  assert (hi1 * hi1 * hi1 <= hi4)%Q as H43 by (apply Qle_bool_iff; reflexivity).
  destruct literal_0_0001 as [Nk1 Hk1]. destruct literal_0_0002 as [Nk2 Hk2].
  unfold totalCost, promptCost, completionCost.
  cbn [Usage.prompt_tokens Usage.completion_tokens].
  destruct p as [ | p]; destruct c as [ | c].
  - left. repeat split; reflexivity.
  - right.
    change (Number.mul (Number.div (Number.of_N 0) (Number.of_N 1000))
                       (Number.literal 1 10000)) with (S754_zero false).
    destruct (term_near c _ (-65) (2 # 10000) ltac:(lia) Nk2 ltac:(lia) Hk2 ltac:(lra))
      as [Nt Ht].
    rewrite (add_zero_l _ _ _ Nt).
    destruct Nt as (m & e & E & _). rewrite E in *.
    exists m, e. split; [reflexivity | ]. cbn [B2Q] in Ht.
    pose proof (exact_cost_nonneg 0 (Npos c)) as G.
    apply (within_ext _ _ _ (inject_Z (Zpos c) * (1 # 1000) * (2 # 10000))%Q).
    { unfold exact_cost. cbn [Z.of_N]. change (inject_Z 0) with 0%Q. ring. }
    apply (within_weaken _ _ _ _ _ _ Ht); [ | exact L43 | exact H43].
    unfold exact_cost in G. cbn [Z.of_N] in G. change (inject_Z 0) with 0%Q in G. lra.
  - right.
    change (Number.mul (Number.div (Number.of_N 0) (Number.of_N 1000))
                       (Number.literal 2 10000)) with (S754_zero false).
    destruct (term_near p _ (-66) (1 # 10000) ltac:(lia) Nk1 ltac:(lia) Hk1 ltac:(lra))
      as [Nt Ht].
    rewrite (add_zero_r _ _ _ Nt).
    destruct Nt as (m & e & E & _). rewrite E in *.
    exists m, e. split; [reflexivity | ]. cbn [B2Q] in Ht.
    pose proof (exact_cost_nonneg (Npos p) 0) as G.
    apply (within_ext _ _ _ (inject_Z (Zpos p) * (1 # 1000) * (1 # 10000))%Q).
    { unfold exact_cost. cbn [Z.of_N]. change (inject_Z 0) with 0%Q. ring. }
    apply (within_weaken _ _ _ _ _ _ Ht); [ | exact L43 | exact H43].
    unfold exact_cost in G. cbn [Z.of_N] in G. change (inject_Z 0) with 0%Q in G. lra.
  - right.
    destruct (term_near p _ (-66) (1 # 10000) ltac:(lia) Nk1 ltac:(lia) Hk1 ltac:(lra))
      as [Np Htp].
    destruct (term_near c _ (-65) (2 # 10000) ltac:(lia) Nk2 ltac:(lia) Hk2 ltac:(lra))
      as [Nc Htc].
    destruct (add_near _ _ _ _ Np Nc ltac:(lia) ltac:(lia)) as [Nx Hx].
    apply near_within in Hx. fold lo1 hi1 in Hx.
    pose proof (within_add _ _ _ _ _ _ Htp Htc) as Hsum.
    pose proof (within_trans _ _ _ _ _ _ _ Hx Hsum Hlo Hhi) as Hall.
    destruct Nx as (m & e & E & _). rewrite E in *.
    exists m, e. split; [reflexivity | ]. exact Hall.
Qed.

Lemma inject_Z_sub (a b : Z) : inject_Z (a - b) = (inject_Z a - inject_Z b)%Q.
Proof. unfold Z.sub. now rewrite inject_Z_plus, inject_Z_opp. Qed.

(** The integer [toFixed(6)] renders is within one half of the number
    scaled by 10^6. *)
Lemma nearest_scaled_Q (m : positive) (e n : Z) :
  is_nearest_scaled 6 m e n ->
  (- (1 # 2) <= inject_Z n - 1000000 * (inject_Z (Zpos m) * pow2 e) <= 1 # 2)%Q.
Proof.
  unfold is_nearest_scaled. change (10 ^ Z.of_N 6)%Z with 1000000%Z.
  destruct e as [ | p | p].
  - intros ->. rewrite Z.pow_0_r, Z.mul_1_r, inject_Z_mult, pow2_0.
    change (inject_Z 1000000) with 1000000%Q. lra.
  - intros ->. rewrite !inject_Z_mult, <- (pow2_Z (Zpos p)) by lia.
    change (inject_Z 1000000) with 1000000%Q. lra.
  - cbv zeta. intros [L U].
    set (D := inject_Z (2 ^ Zpos p)).
    set (w := pow2 (Zneg p)).
    assert (D * w == 1)%Q as E.
    { unfold D, w. rewrite <- (pow2_Z (Zpos p)), <- pow2_add by lia.
      replace (Zpos p + Zneg p)%Z with 0%Z by lia. reflexivity. }
    assert (0 < w)%Q as Hw by apply pow2_pos.
    rewrite Zlt_Qlt in L. rewrite Zle_Qle in U.
    rewrite inject_Z_opp in L.
    rewrite inject_Z_mult, inject_Z_sub, !inject_Z_mult in L, U.
    fold D in L, U.
    change (inject_Z 2) with 2%Q in *. change (inject_Z 1000000) with 1000000%Q in *.
    set (N := inject_Z n) in *. set (M := inject_Z (Zpos m)) in *.
    assert (N * D * w == N)%Q as EN by (rewrite <- Qmult_assoc, E; ring).
    assert (0 <= (D - 2 * (N * D - M * 1000000)) * w)%Q as A by nra.
    assert (0 <= (2 * (N * D - M * 1000000) + D) * w)%Q as B by nra.
    split; nra.
Qed.

(** For token counts up to 2^48, the integer rendered by [toFixed(6)],
    in units of 10^-6, is within half a unit of the exact cost
    [(p + 2 c) / 10^7]: the reported cost is the exact cost rounded to
    six decimals, either way at a tie. *)
Lemma reported_cost_accuracy (p c t : N) (n : N) :
  (p <= 2 ^ 48)%N -> (c <= 2 ^ 48)%N ->
  match totalCost (Usage.make p c t) with
  | S754_zero _ => n = 0%N
  | S754_finite false m e => is_nearest_scaled 6 m e (Z.of_N n)
  | _ => False
  end ->
  (Z.abs (10 * Z.of_N n - Z.of_N (p + 2 * c)) <= 5)%Z.
Proof.
  intros Hp Hc Hn.
  assert (2 ^ 48 < 2 ^ 53)%N as H4853 by reflexivity.
  destruct (totalCost_accuracy p c t ltac:(lia) ltac:(lia))
    as [(E & -> & ->) | (m & e & E & [L U])].
  - cbv zeta in E. rewrite E in Hn. subst n. simpl. lia.
  - cbv zeta in E. rewrite E in Hn.
    apply nearest_scaled_Q in Hn.
    set (x := (inject_Z (Zpos m) * pow2 e)%Q) in *.
    set (N := inject_Z (Z.of_N n)) in *.
    assert (1 - (5 # 1) * unit_roundoff <= lo4)%Q as Hl by (apply Qle_bool_iff; reflexivity).
    assert (hi4 <= 1 + (5 # 1) * unit_roundoff)%Q as Hh by (apply Qle_bool_iff; reflexivity).
    assert (unit_roundoff == 1 # 9007199254740992)%Q as Eu by reflexivity.
    pose proof (exact_cost_nonneg p c) as HX.
    set (X := exact_cost p c) in *.
    assert (10000000 * X == inject_Z (Z.of_N (p + 2 * c)))%Q as EK.
    { unfold X, exact_cost. rewrite N2Z.inj_add, N2Z.inj_mul, inject_Z_plus, inject_Z_mult.
      change (inject_Z (Z.of_N 2)) with 2%Q. field. }
    assert (inject_Z (Z.of_N (p + 2 * c)) <= 844424930131968)%Q as HK.
    { change 844424930131968%Q with (inject_Z 844424930131968). rewrite <- Zle_Qle.
      change (2 ^ 48)%N with 281474976710656%N in Hp, Hc. lia. }
    set (K := inject_Z (Z.of_N (p + 2 * c))) in *.
    assert (X * (1 - 5 * unit_roundoff) <= x)%Q as L' by nra.
    assert (x <= X * (1 + 5 * unit_roundoff))%Q as U' by nra.
    assert (- (6 # 1) < 10 * N - K < 6 # 1)%Q as HQ.
    { rewrite Eu in L', U'. split; nra. }
    assert (-6 < 10 * Z.of_N n - Z.of_N (p + 2 * c) < 6)%Z; [ | lia].
    rewrite !Zlt_Qlt, inject_Z_sub, inject_Z_mult.
    fold N K. change (inject_Z 10) with 10%Q. change (inject_Z (-6)) with (- (6 # 1))%Q.
    change (inject_Z 6) with (6 # 1)%Q. exact HQ.
Qed.

(* ================================================================== *)
(** * Properties of the debug summary *)

Ltac occurs_between before :=
  exists before; eexists; unfold debug_summary;
  repeat rewrite <- app_assoc; reflexivity.

(** C4.  For a response whose usage holds token counts up to 2^53 - 1,
    [formatDebugInfo] returns the summary with the model name and the
    three token counts in decimal, and with the cost
    [prompt_tokens / 1000 * 0.0001 + completion_tokens / 1000 * 0.0002],
    computed in binary64, rendered by [toFixed(6)] between "$" and
    " (Free)": digits, a point and six digits, denoting the multiple of
    10^-6 nearest to the computed cost.  For token counts up to 2^48
    this is the exact cost [(prompt_tokens + 2 completion_tokens) / 10^7]
    rounded to six decimals (either way at an exact tie); for 100 prompt
    and 50 completion tokens the cost reads 0.000020. *)
Theorem formatDebugInfo_report (toString : Number.t -> jsstring)
    (r : OpenRouterResponse.t) (u : Usage.t) :
  OpenRouterResponse.usage r = Some u ->
  Usage.safe u ->
  let cost := Number.toFixed toString (totalCost u) 6 in
  let text := debug_summary (OpenRouterResponse.model r) u cost in
  formatDebugInfo toString (Some r) = ([], Returns text) /\
  totalCost u =
    Number.add
      (Number.mul (Number.div (Number.of_N (Usage.prompt_tokens u)) (Number.of_N 1000))
                  (Number.literal 1 10000))
      (Number.mul (Number.div (Number.of_N (Usage.completion_tokens u)) (Number.of_N 1000))
                  (Number.literal 2 10000)) /\
  (exists n : N,
     denotes_millionths cost n /\
     nearest_millionths (totalCost u) n /\
     ((Usage.prompt_tokens u <= 2 ^ 48)%N ->
      (Usage.completion_tokens u <= 2 ^ 48)%N ->
      (Z.abs (10 * Z.of_N n
              - Z.of_N (Usage.prompt_tokens u + 2 * Usage.completion_tokens u)) <= 5)%Z)) /\
  occurs_in (lit "$" ++ cost ++ lit " (Free)") text /\
  occurs_in (lit "Model: " ++ OpenRouterResponse.model r) text /\
  occurs_in (lit "Prompt Tokens: " ++ decimal (Usage.prompt_tokens u)) text /\
  occurs_in (lit "Completion Tokens: " ++ decimal (Usage.completion_tokens u)) text /\
  occurs_in (lit "Total Tokens: " ++ decimal (Usage.total_tokens u)) text /\
  read_decimal (decimal (Usage.prompt_tokens u)) = Some (Usage.prompt_tokens u) /\
  read_decimal (decimal (Usage.completion_tokens u)) = Some (Usage.completion_tokens u) /\
  read_decimal (decimal (Usage.total_tokens u)) = Some (Usage.total_tokens u) /\
  (Usage.prompt_tokens u = 100%N -> Usage.completion_tokens u = 50%N ->
   cost = lit "0.000020").
Proof.
  intros Hu (Hp & Hc & _). cbv zeta.
  split.
  { unfold formatDebugInfo, formatDebugInfo_body. cbn [deref bind ret].
    rewrite Hu. reflexivity. }
  split; [reflexivity | ].
  split.
  { destruct (toFixed_six_decimals toString (totalCost u)) as (n & Hd & Hn).
    { apply below_pow2_small. apply totalCost_below; assumption. }
    exists n. split; [exact Hd | split; [exact Hn | ]].
    intros Hp48 Hc48. destruct u as [p c t].
    apply (reported_cost_accuracy p c t n Hp48 Hc48 Hn). }
  split.
  { occurs_between
      (lit "**Debug Info:**" ++ nl ++
       lit "- Model: " ++ OpenRouterResponse.model r ++ nl ++
       lit "- Prompt Tokens: " ++ decimal (Usage.prompt_tokens u) ++ nl ++
       lit "- Completion Tokens: " ++ decimal (Usage.completion_tokens u) ++ nl ++
       lit "- Total Tokens: " ++ decimal (Usage.total_tokens u) ++ nl ++
       lit "- Estimated Cost: "). }
  split.
  { occurs_between (lit "**Debug Info:**" ++ nl ++ lit "- "). }
  split.
  { occurs_between
      (lit "**Debug Info:**" ++ nl ++
       lit "- Model: " ++ OpenRouterResponse.model r ++ nl ++ lit "- "). }
  split.
  { occurs_between
      (lit "**Debug Info:**" ++ nl ++
       lit "- Model: " ++ OpenRouterResponse.model r ++ nl ++
       lit "- Prompt Tokens: " ++ decimal (Usage.prompt_tokens u) ++ nl ++ lit "- "). }
  split.
  { occurs_between
      (lit "**Debug Info:**" ++ nl ++
       lit "- Model: " ++ OpenRouterResponse.model r ++ nl ++
       lit "- Prompt Tokens: " ++ decimal (Usage.prompt_tokens u) ++ nl ++
       lit "- Completion Tokens: " ++ decimal (Usage.completion_tokens u) ++ nl ++
       lit "- "). }
  repeat split; try apply read_decimal_decimal.
  intros E100 E50. unfold totalCost, promptCost, completionCost.
  rewrite E100, E50. reflexivity.
Qed.

Lemma formatDebugInfo_report_witness :
  formatDebugInfo (fun _ => []) (Some sample_response)
  = ([], Returns (debug_summary (lit "google/gemini-flash-1.5-8b-exp")
                    sample_usage (lit "0.000020"))).
Proof.
  destruct (formatDebugInfo_report (fun _ => []) sample_response sample_usage eq_refl)
    as (E & _ & _ & _ & _ & _ & _ & _ & _ & _ & _ & Ecost).
  - unfold Usage.safe, Number.MAX_SAFE_INTEGER. simpl. lia.
  - rewrite (Ecost eq_refl eq_refl) in E. exact E.
Defined.

(** The cost is computed in binary64: at an exact tie the last digit may
    go either way.  One prompt and 27 completion tokens cost 0.0000055,
    reported as 0.000005; 5 prompt tokens cost 0.0000005, reported as
    0.000001. *)
Example cost_at_ties (toString : Number.t -> jsstring) :
  Number.toFixed toString (totalCost (Usage.make 1 27 28)) 6 = lit "0.000005" /\
  Number.toFixed toString (totalCost (Usage.make 5 0 5)) 6 = lit "0.000001".
Proof. split; reflexivity. Qed.

(* ================================================================== *)
(** * One invocation, from the command to the chat *)

Set Implicit Arguments.

Lemma try_catch_returns (A : Type) (body : M A) (handler : exn -> M A) (a : A) :
  result body = Returns a -> try_catch body handler = body.
Proof.
  destruct body as [t [a' | e]]; simpl; intro H; [reflexivity | discriminate].
Qed.

Lemma bind_returns (A B : Type) (m : M A) (k : A -> M B) (a : A) :
  result m = Returns a ->
  bind m k = (trace m ++ trace (k a), result (k a)).
Proof.
  destruct m as [t [a' | e]]; simpl; intro H; [ | discriminate].
  injection H as ->. destruct (k a); reflexivity.
Qed.

(** What a case analysis of the flow splits on. *)
Ltac is_scrutinee x :=
  lazymatch x with
  | truthy _ => idtac
  | Settings.showDebugInfo _ => idtac
  | Settings.showTokenCount _ => idtac
  | Settings.logErrors _ => idtac
  | Settings.outputMode _ => idtac
  | Host.remote _ _ => idtac
  | HttpResponse.ok _ => idtac
  | HttpResponse.json _ => idtac
  | OpenRouterResponse.choices _ => idtac
  | OpenRouterResponse.usage _ => idtac
  | Choice.message _ => idtac
  | _ => is_var x
  end.

(** One step of the flow: the helpers end in one of their two ways, and
    a test is decided either way. *)
Ltac flow_step toString :=
  match goal with
  | |- context [getChatContext ?h ?c ?l] =>
      let E := fresh "E" in
      destruct (getChatContext_cases h c l) as [(? & E & _) | (? & E & _)];
      rewrite E; clear E
  | |- context [generateResponse ?h ?k ?m ?c ?s] =>
      rewrite (generateResponse_cases h k m c s); cbv zeta
  | |- context [formatDebugInfo toString ?r] =>
      let E := fresh "E" in
      destruct (formatDebugInfo_cases toString r) as [(? & E & _) | (? & E & _)];
      rewrite E; clear E
  | |- context [no_choices ?x] => is_var x; destruct x
  | |- context [deref ?x] => is_scrutinee x; destruct x eqn:?
  | |- context [negb ?x] => is_scrutinee x; destruct x eqn:?
  | |- context [orb ?x _] => is_scrutinee x; destruct x eqn:?
  | |- context [length ?x] => is_var x; destruct x
  | |- context [match ?x with _ => _ end] => is_scrutinee x; destruct x eqn:?
  end; run; cbn [deliver]; run.

Ltac explore_flow toString := repeat flow_step toString.

(** The flow always returns; it delivers nothing to the chat itself, and
    reads the cache once, for the given channel, exactly when a key is
    set. *)
Lemma generateAIResponse_shape (toString : Number.t -> jsstring)
    (h : Host.t) (channelId : jsstring) :
  (exists v, result (generateAIResponse toString h channelId) = Returns v) /\
  outputs (generateAIResponse toString h channelId) = [] /\
  filter is_store_read (trace (generateAIResponse toString h channelId)) =
    (if truthy (Settings.apiKey (Host.store h))
     then [MessageStore_getMessages channelId] else []).
Proof.
  unfold outputs, generateAIResponse.
  explore_flow toString; cbn [filter is_output is_store_read app];
    (split; [eexists; reflexivity | split; reflexivity]).
Qed.

(** Delivering a result never throws, contacts nothing and puts at most
    one item into the chat. *)
Lemma deliver_shape (toString : Number.t -> jsstring)
    (h : Host.t) (channelId : jsstring) (v : nullable Generated.t) :
  result (deliver toString h channelId v) = Returns tt /\
  (length (outputs (deliver toString h channelId v)) <= 1)%nat /\
  fetches (deliver toString h channelId v) = [] /\
  filter is_store_read (trace (deliver toString h channelId v)) = [].
Proof.
  unfold outputs, fetches. destruct v as [g | ]; cbn [deliver]; run.
  - explore_flow toString; cbn; repeat split; lia.
  - cbn. repeat split. lia.
Qed.

Lemma onClick_returns (toString : Number.t -> jsstring)
    (channel : Channel.t) (h : Host.t) :
  result (onClick toString channel h) = Returns tt.
Proof.
  unfold onClick.
  destruct (generateAIResponse_shape toString h (Channel.id channel)) as ((v & R) & _).
  rewrite (bind_returns _ _ R). cbn [result snd].
  apply (deliver_shape toString h (Channel.id channel) v).
Qed.

(** Past the scope check the command is the click handler: its own
    [catch] is not reached. *)
Lemma execute_as_onClick (toString : Number.t -> jsstring)
    (h : Host.t) (channel : Channel.t) :
  scope_mismatch (isGuildChannel channel) (Settings.chatScope (Host.store h)) = false ->
  execute toString h channel = onClick toString channel h.
Proof.
  intro Scope. unfold execute. rewrite Scope.
  apply try_catch_returns with (a := tt). apply onClick_returns.
Qed.

Lemma onClick_trace (toString : Number.t -> jsstring)
    (channel : Channel.t) (h : Host.t) :
  exists v,
    result (generateAIResponse toString h (Channel.id channel)) = Returns v /\
    trace (onClick toString channel h) =
      trace (generateAIResponse toString h (Channel.id channel)) ++
      trace (deliver toString h (Channel.id channel) v).
Proof.
  destruct (generateAIResponse_shape toString h (Channel.id channel)) as ((v & R) & _).
  exists v. split; [exact R | ].
  unfold onClick. rewrite (bind_returns _ _ R). reflexivity.
Qed.

(** X1.  The command always returns, and its own handler is not
    reached: whatever the host holds, every failure inside the flow is
    dealt with before it gets to the command, so nothing is written to
    the console under "Error in /respond command:". *)
Theorem command_handler_not_reached (toString : Number.t -> jsstring)
    (h : Host.t) (channel : Channel.t) :
  result (execute toString h channel) = Returns tt /\
  forall error,
    ~ In (console_error (lit "Error in /respond command:") error)
         (trace (execute toString h channel)).
Proof.
  unfold execute, generateAIResponse.
  destruct (scope_mismatch _ _); run.
  - split; [reflexivity | ]. intros error [H | []]. discriminate H.
  - explore_flow toString; (split; [reflexivity | ]);
      intros error Hin; cbn in Hin; intuition discriminate.
Qed.

(** X2.  One invocation of the command reads the message cache at most
    once, sends at most one request (a failed request is not retried)
    and puts at most one item into the chat. *)
Theorem command_one_of_each (toString : Number.t -> jsstring)
    (h : Host.t) (channel : Channel.t) :
  (length (filter is_store_read (trace (execute toString h channel))) <= 1)%nat /\
  (length (fetches (execute toString h channel)) <= 1)%nat /\
  (length (outputs (execute toString h channel)) <= 1)%nat.
Proof.
  unfold fetches, outputs, execute, generateAIResponse.
  destruct (scope_mismatch _ _); run.
  - cbn. lia.
  - explore_flow toString; cbn; lia.
Qed.

Lemma onClick_filter (toString : Number.t -> jsstring)
    (channel : Channel.t) (h : Host.t) (p : event -> bool) :
  exists v,
    result (generateAIResponse toString h (Channel.id channel)) = Returns v /\
    filter p (trace (onClick toString channel h)) =
      filter p (trace (generateAIResponse toString h (Channel.id channel))) ++
      filter p (trace (deliver toString h (Channel.id channel) v)).
Proof.
  destruct (onClick_trace toString channel h) as (v & R & T).
  exists v. split; [exact R | ]. rewrite T. apply filter_app.
Qed.

Lemma execute_fetches (toString : Number.t -> jsstring)
    (h : Host.t) (channel : Channel.t) :
  fetches (execute toString h channel) =
  if scope_mismatch (isGuildChannel channel) (Settings.chatScope (Host.store h)) then []
  else if truthy (Settings.apiKey (Host.store h)) then
    match result (getChatContext h (Channel.id channel)
                    (Settings.contextLength (Host.store h))) with
    | Returns (m :: ms) => [fetch (flow_request h (m :: ms))]
    | _ => []
    end
  else [].
Proof.
  destruct (scope_mismatch _ _) eqn:Scope.
  - unfold execute. rewrite Scope. reflexivity.
  - rewrite (execute_as_onClick toString h channel Scope). unfold fetches.
    destruct (onClick_filter toString channel h is_fetch) as (v & _ & ->).
    fold (fetches (generateAIResponse toString h (Channel.id channel))).
    fold (fetches (deliver toString h (Channel.id channel) v)).
    rewrite generateAIResponse_fetches.
    destruct (deliver_shape toString h (Channel.id channel) v) as (_ & _ & -> & _).
    apply app_nil_r.
Qed.

(** X3.  The command contacts the API exactly when the scope admits the
    channel, a key is set and the collected context is not empty; it
    then sends the one request built from the settings and that
    context, whatever happens afterwards. *)
Theorem command_requests (toString : Number.t -> jsstring)
    (h : Host.t) (channel : Channel.t) :
  fetches (execute toString h channel) =
  if scope_mismatch (isGuildChannel channel) (Settings.chatScope (Host.store h)) then []
  else if truthy (Settings.apiKey (Host.store h)) then
    match result (getChatContext h (Channel.id channel)
                    (Settings.contextLength (Host.store h))) with
    | Returns (m :: ms) => [fetch (flow_request h (m :: ms))]
    | _ => []
    end
  else [].
Proof. apply execute_fetches. Qed.

(** X4.  The command reads the message cache exactly when the scope
    admits the channel and a key is set, and then only the cache of the
    channel it was invoked in. *)
Theorem command_cache_reads (toString : Number.t -> jsstring)
    (h : Host.t) (channel : Channel.t) :
  filter is_store_read (trace (execute toString h channel)) =
  if scope_mismatch (isGuildChannel channel) (Settings.chatScope (Host.store h)) then []
  else if truthy (Settings.apiKey (Host.store h))
       then [MessageStore_getMessages (Channel.id channel)]
       else [].
Proof.
  destruct (scope_mismatch _ _) eqn:Scope.
  - unfold execute. rewrite Scope. reflexivity.
  - rewrite (execute_as_onClick toString h channel Scope).
    destruct (onClick_filter toString channel h is_store_read) as (v & _ & ->).
    destruct (generateAIResponse_shape toString h (Channel.id channel)) as (_ & _ & ->).
    destruct (deliver_shape toString h (Channel.id channel) v) as (_ & _ & _ & ->).
    apply app_nil_r.
Qed.

(** * The requests of the command *)

Lemma execute_fetch_inv (toString : Number.t -> jsstring)
    (h : Host.t) (channel : Channel.t) (request : Request.t) :
  In (fetch request) (trace (execute toString h channel)) ->
  truthy (Settings.apiKey (Host.store h)) = true /\
  exists m ms,
    result (getChatContext h (Channel.id channel)
              (Settings.contextLength (Host.store h))) = Returns (m :: ms) /\
    request = flow_request h (m :: ms).
Proof.
  intro Hin.
  assert (In (fetch request) (fetches (execute toString h channel))) as F.
  { unfold fetches. apply filter_In. split; [exact Hin | reflexivity]. }
  rewrite execute_fetches in F.
  destruct (scope_mismatch _ _); [destruct F | ].
  destruct (truthy (Settings.apiKey (Host.store h))); [ | destruct F].
  split; [reflexivity | ].
  destruct (result (getChatContext h (Channel.id channel) _)) as [[ | m ms] | e];
    [destruct F | | destruct F].
  destruct F as [F | []]. injection F as <-.
  exists m, ms. split; reflexivity.
Qed.

(** With a positive context length the collector returns at most that
    many messages. *)
Lemma getChatContext_bound (h : Host.t) (channelId : jsstring) (contextLength : Z)
    (out : list Message.t) :
  result (getChatContext h channelId contextLength) = Returns out ->
  (0 < contextLength)%Z ->
  (Z.of_nat (length out) <= contextLength)%Z /\
  Forall (fun m => Message.role m = user) out.
Proof.
  intros R Hpos. revert R.
  unfold getChatContext, getChatContext_body.
  destruct (Host.cache h channelId) as [cached | e]; simpl.
  - pose proof (mapM_to_context_cases
                  (Array_slice (match cached with Some a => a | None => [] end)
                               (- contextLength))) as C.
    destruct (mapM to_context _) as [t [out' | e]]; simpl; intro R; injection R as <-.
    + destruct C as (_ & Hlen & Hall). split; [ | exact Hall].
      rewrite Hlen, (Array_slice_last _ Hpos), last_n_length. lia.
    + split; [simpl; lia | constructor].
  - intro R. injection R as <-. split; [simpl; lia | constructor].
Qed.

(** X5.  Every request of the command is a POST to the completions
    endpoint of openrouter.ai with the four headers of the source, the
    stored key as bearer token and the stored model; a request is sent
    only with a non-empty key, and it never asks for a streamed
    answer. *)
Theorem command_request_destination (toString : Number.t -> jsstring)
    (h : Host.t) (channel : Channel.t) (request : Request.t) :
  In (fetch request) (trace (execute toString h channel)) ->
  Request.url request = lit "https://openrouter.ai/api/v1/chat/completions" /\
  Request.method request = POST /\
  Request.headers request =
    [ (lit "Content-Type", lit "application/json");
      (lit "Authorization", lit "Bearer " ++ Settings.apiKey (Host.store h));
      (lit "HTTP-Referer", lit "https://vencord.dev/");
      (lit "X-Title", lit "Vencord GPT Plugin") ] /\
  Settings.apiKey (Host.store h) <> [] /\
  RequestBody.model (Request.body request) = Settings.model (Host.store h) /\
  RequestBody.stream (Request.body request) = false.
Proof.
  intro Hin.
  destruct (execute_fetch_inv toString h channel request Hin) as (K & m & ms & _ & ->).
  apply truthy_nonempty in K.
  repeat split; assumption.
Qed.

(** X6.  With a positive context length L, every request of the command
    holds at most L conversation messages and at least one, all of role
    user, after the system message that is there exactly when the
    system instructions are not empty: at most L + 1 messages, none of
    role assistant. *)
Theorem command_request_messages (toString : Number.t -> jsstring)
    (h : Host.t) (channel : Channel.t) (request : Request.t) :
  In (fetch request) (trace (execute toString h channel)) ->
  (0 < Settings.contextLength (Host.store h))%Z ->
  let messages := RequestBody.messages (Request.body request) in
  exists context,
    messages =
      (if truthy (Settings.systemInstructions (Host.store h))
       then [SystemMessage (Settings.systemInstructions (Host.store h))]
       else []) ++ map Conversation context /\
    (1 <= Z.of_nat (length context) <= Settings.contextLength (Host.store h))%Z /\
    Forall (fun m => Message.role m = user) context /\
    Forall (fun b => BodyMessage_role b <> assistant) messages /\
    (Z.of_nat (length messages) <= Settings.contextLength (Host.store h) + 1)%Z.
Proof.
  intros Hin Hpos. cbv zeta.
  destruct (execute_fetch_inv toString h channel request Hin) as (_ & m & ms & R & ->).
  destruct (@getChatContext_bound _ _ _ _ R Hpos) as (Hlen & Hrole).
  exists (m :: ms).
  unfold flow_request, build_request. cbn [Request.body RequestBody.messages].
  rewrite allMessages_eq.
  split; [reflexivity | ].
  split; [cbn [length] in *; lia | ].
  split; [exact Hrole | ].
  split.
  - apply Forall_app. split.
    + destruct (truthy _); repeat constructor. discriminate.
    + apply Forall_map. apply (Forall_impl _ (P := fun m => Message.role m = user)); [ | exact Hrole].
      intros a Ha. cbn [BodyMessage_role]. rewrite Ha. discriminate.
  - rewrite length_app, length_map.
    destruct (truthy _); cbn [length] in *; lia.
Qed.

(* ================================================================== *)
(** * The ways the flow ends once the request is sent *)

Lemma getChatContext_nonempty (h : Host.t) (channelId : jsstring) (contextLength : Z)
    (context : list Message.t) :
  result (getChatContext h channelId contextLength) = Returns context ->
  context <> [] ->
  getChatContext h channelId contextLength
    = ([MessageStore_getMessages channelId], Returns context).
Proof.
  intros R Hne.
  destruct (getChatContext_cases h channelId contextLength)
    as [(out & E & _) | (e & E & _)]; rewrite E in R |- *;
    injection R as <-; [reflexivity | congruence].
Qed.

(** Up to the answer of the API, the flow reads the cache, announces the
    generation and sends the request. *)
Lemma completion_start (h : Host.t) (channelId : jsstring)
    (context : list Message.t) (value : nullable OpenRouterResponse.t) :
  completion h channelId context value ->
  truthy (Settings.apiKey (Host.store h)) = true /\
  (length context =? 0)%nat = false /\
  getChatContext h channelId (Settings.contextLength (Host.store h))
    = ([MessageStore_getMessages channelId], Returns context) /\
  generateResponse h (Settings.apiKey (Host.store h)) (Settings.model (Host.store h))
    context (Settings.systemInstructions (Host.store h))
    = ([fetch (flow_request h context)], Returns value).
Proof.
  intros (K & Hne & R & response & Hremote & Hok & Hjson).
  split; [exact K | ].
  split; [destruct context; [congruence | reflexivity] | ].
  split; [exact (getChatContext_nonempty _ _ _ R Hne) | ].
  rewrite generateResponse_cases. cbv zeta.
  fold (flow_request h context). rewrite Hremote, Hok, Hjson. reflexivity.
Qed.

Ltac start_completion H :=
  let K := fresh "K" in
  let L := fresh "L" in
  let C := fresh "C" in
  let G := fresh "G" in
  destruct (completion_start H) as (K & L & C & G);
  unfold generateAIResponse; rewrite K, C; run; rewrite L, G; run.

Lemma formatDebugInfo_usage (toString : Number.t -> jsstring)
    (r : OpenRouterResponse.t) (u : Usage.t) :
  OpenRouterResponse.usage r = Some u ->
  formatDebugInfo toString (Some r)
    = ([], Returns (debug_summary (OpenRouterResponse.model r) u
                      (Number.toFixed toString (totalCost u) 6))).
Proof.
  intro U. unfold formatDebugInfo, formatDebugInfo_body. cbn [deref bind ret].
  rewrite U. reflexivity.
Qed.

Lemma formatDebugInfo_no_usage (toString : Number.t -> jsstring)
    (r : OpenRouterResponse.t) :
  OpenRouterResponse.usage r = None ->
  formatDebugInfo toString (Some r)
    = ([console_error (lit "Error formatting debug info:") TypeError],
       Returns (lit "Error generating debug info")).
Proof.
  intro U. unfold formatDebugInfo, formatDebugInfo_body. cbn [deref bind ret].
  rewrite U. reflexivity.
Qed.

Lemma flow_completion (toString : Number.t -> jsstring)
    (h : Host.t) (channelId : jsstring) (context : list Message.t)
    (r : OpenRouterResponse.t) (c : Choice.t) (rest : list (nullable Choice.t))
    (message : ChoiceMessage.t) (u : Usage.t) :
  completion h channelId context (Some r) ->
  OpenRouterResponse.choices r = Some (Some c :: rest) ->
  Choice.message c = Some message ->
  OpenRouterResponse.usage r = Some u ->
  let store := Host.store h in
  let summary := debug_summary (OpenRouterResponse.model r) u
                   (Number.toFixed toString (totalCost u) 6) in
  generateAIResponse toString h channelId =
    ([MessageStore_getMessages channelId; generating; fetch (flow_request h context)]
       ++ (if Settings.showDebugInfo store || Settings.showTokenCount store
           then [console_log summary] else [])
       ++ (if Settings.showTokenCount store then [token_toast u] else []),
     Returns (Some (Generated.make (ChoiceMessage.content message) r))).
Proof.
  intros H Hc Hm Hu. cbv zeta.
  start_completion H. rewrite Hc. run. rewrite Hm. run.
  rewrite (formatDebugInfo_usage toString r Hu).
  destruct (Settings.showDebugInfo (Host.store h));
    destruct (Settings.showTokenCount (Host.store h)); run; rewrite ?Hu; reflexivity.
Qed.

(** X7.  When the API answers with a completion that has a first choice
    and a usage record (token counts up to 2^53 - 1), the flow causes,
    in this order: the cache read, the "Generating" toast, the request,
    then the debug summary on the console if one of the two debug
    switches is on, and the toast with the total token count if the
    token switch is on; it returns the content of the first choice.
    Nothing else happens: no error is logged and no failure is shown. *)
Theorem completion_events (toString : Number.t -> jsstring)
    (h : Host.t) (channelId : jsstring) (context : list Message.t)
    (r : OpenRouterResponse.t) (c : Choice.t) (rest : list (nullable Choice.t))
    (message : ChoiceMessage.t) (u : Usage.t) :
  completion h channelId context (Some r) ->
  OpenRouterResponse.choices r = Some (Some c :: rest) ->
  Choice.message c = Some message ->
  OpenRouterResponse.usage r = Some u ->
  Usage.safe u ->
  let store := Host.store h in
  let summary := debug_summary (OpenRouterResponse.model r) u
                   (Number.toFixed toString (totalCost u) 6) in
  generateAIResponse toString h channelId =
    ([MessageStore_getMessages channelId; generating; fetch (flow_request h context)]
       ++ (if Settings.showDebugInfo store || Settings.showTokenCount store
           then [console_log summary] else [])
       ++ (if Settings.showTokenCount store then [token_toast u] else []),
     Returns (Some (Generated.make (ChoiceMessage.content message) r))).
Proof. intros H Hc Hm Hu _. exact (flow_completion toString H Hc Hm Hu). Qed.

(** X8.  Past the scope check, the command puts into the chat exactly
    the generated text when the flow returned one, and nothing when it
    returned null.  In "typebar" mode the text is typed into the message
    bar unchanged, debug switch or not.  In "ephemeral" mode it is sent
    as a bot message to the invoking channel, followed -- only with the
    debug switch on -- by an empty line and what [formatDebugInfo]
    answers for the response. *)
Theorem delivery_by_output_mode (toString : Number.t -> jsstring)
    (h : Host.t) (channel : Channel.t) :
  scope_mismatch (isGuildChannel channel) (Settings.chatScope (Host.store h)) = false ->
  match result (generateAIResponse toString h (Channel.id channel)) with
  | Returns (Some g) =>
      exists info,
        result (formatDebugInfo toString (Some (Generated.response g))) = Returns info /\
        outputs (execute toString h channel) =
          [ match Settings.outputMode (Host.store h) with
            | typebar => insertTextIntoChatInputBox (Generated.text g)
            | ephemeral =>
                sendBotMessage (Channel.id channel)
                  (Generated.text g ++
                   if Settings.showDebugInfo (Host.store h)
                   then nl ++ nl ++ info
                   else [])
            end ]
  | _ => outputs (execute toString h channel) = []
  end.
Proof.
  intro Scope. rewrite (execute_as_onClick toString h channel Scope). unfold outputs.
  destruct (onClick_filter toString channel h is_output) as (v & R & ->).
  destruct (generateAIResponse_shape toString h (Channel.id channel)) as (_ & O & _).
  unfold outputs in O. rewrite O, R. cbn [app].
  destruct v as [g | ]; [ | reflexivity].
  cbn [deliver].
  destruct (formatDebugInfo_cases toString (Some (Generated.response g)))
    as [(info & E & _) | (e & E & _)]; rewrite E; eexists; (split; [reflexivity | ]);
    destruct (Settings.outputMode (Host.store h)); try reflexivity;
    destruct (Settings.showDebugInfo (Host.store h)); reflexivity.
Qed.

(** X9.  A completion with a first choice but without a usage record:
    with the token switch on, reading the token count fails after the
    text was extracted, so the flow logs the failed debug summary, shows
    the generic error notice and returns null -- the generated text is
    lost; with the token switch off the text is returned, and with the
    debug switch on the summary on the console is "Error generating
    debug info". *)
Theorem completion_without_usage (toString : Number.t -> jsstring)
    (h : Host.t) (channelId : jsstring) (context : list Message.t)
    (r : OpenRouterResponse.t) (c : Choice.t) (rest : list (nullable Choice.t))
    (message : ChoiceMessage.t) :
  completion h channelId context (Some r) ->
  OpenRouterResponse.choices r = Some (Some c :: rest) ->
  Choice.message c = Some message ->
  OpenRouterResponse.usage r = None ->
  let store := Host.store h in
  let sent := [MessageStore_getMessages channelId; generating;
               fetch (flow_request h context)] in
  let summary_failed :=
    [console_error (lit "Error formatting debug info:") TypeError;
     console_log (lit "Error generating debug info")] in
  generateAIResponse toString h channelId =
    if Settings.showTokenCount store then
      (sent ++ summary_failed
         ++ (if Settings.logErrors store
             then [console_error (lit "Error generating AI response:") TypeError]
             else [])
         ++ [error_notice],
       Returns None)
    else
      (sent ++ (if Settings.showDebugInfo store then summary_failed else []),
       Returns (Some (Generated.make (ChoiceMessage.content message) r))).
Proof.
  intros H Hc Hm Hu. cbv zeta.
  start_completion H. rewrite Hc. run. rewrite Hm. run.
  rewrite (formatDebugInfo_no_usage toString r Hu).
  destruct (Settings.showDebugInfo (Host.store h));
    destruct (Settings.showTokenCount (Host.store h)); run; rewrite ?Hu; run;
    try reflexivity;
    destruct (Settings.logErrors (Host.store h)); reflexivity.
Qed.

(** X10.  When the request itself fails, or the API answers with a
    status in 200-299 and a body that is not JSON, [generateResponse]
    logs the error and rethrows it; the flow logs it once more if error
    logging is on, shows the generic error notice and returns null.  The
    request is not repeated. *)
Theorem request_failure (toString : Number.t -> jsstring)
    (h : Host.t) (channelId : jsstring) (m : Message.t) (ms : list Message.t)
    (error : exn) :
  truthy (Settings.apiKey (Host.store h)) = true ->
  result (getChatContext h channelId (Settings.contextLength (Host.store h)))
    = Returns (m :: ms) ->
  (Host.remote h (flow_request h (m :: ms)) = Throws error \/
   exists response,
     Host.remote h (flow_request h (m :: ms)) = Returns response /\
     HttpResponse.ok response = true /\
     HttpResponse.json response = Throws error) ->
  generateAIResponse toString h channelId =
    ([MessageStore_getMessages channelId; generating; fetch (flow_request h (m :: ms));
      console_error (lit "Error in generateResponse:") error]
       ++ (if Settings.logErrors (Host.store h)
           then [console_error (lit "Error generating AI response:") error]
           else [])
       ++ [error_notice],
     Returns None).
Proof.
  intros K R Hfail.
  assert (generateResponse h (Settings.apiKey (Host.store h)) (Settings.model (Host.store h))
            (m :: ms) (Settings.systemInstructions (Host.store h))
          = ([fetch (flow_request h (m :: ms));
              console_error (lit "Error in generateResponse:") error], Throws error)) as G.
  { rewrite generateResponse_cases. cbv zeta. fold (flow_request h (m :: ms)).
    destruct Hfail as [-> | (response & -> & -> & ->)]; reflexivity. }
  unfold generateAIResponse.
  rewrite K, (getChatContext_nonempty _ _ _ R ltac:(discriminate)). run.
  rewrite G. run.
  destruct (Settings.logErrors (Host.store h)); reflexivity.
Qed.

(** X11.  A 2xx answer the flow cannot use.  If the parsed body is null,
    has no [choices] or an empty [choices] array, the flow shows "Failed
    to generate response" and returns null without logging anything.  If
    the first choice is null or has no message, reading the text fails:
    the flow shows the generic error notice instead, after logging a
    TypeError if error logging is on, and returns null. *)
Theorem unusable_completion (toString : Number.t -> jsstring)
    (h : Host.t) (channelId : jsstring) (context : list Message.t)
    (value : nullable OpenRouterResponse.t) :
  completion h channelId context value ->
  let sent := [MessageStore_getMessages channelId; generating;
               fetch (flow_request h context)] in
  (match value with
   | None => True
   | Some r => OpenRouterResponse.choices r = None \/ OpenRouterResponse.choices r = Some []
   end ->
   generateAIResponse toString h channelId = (sent ++ [failed_notice], Returns None)) /\
  (forall r first rest,
     value = Some r ->
     OpenRouterResponse.choices r = Some (first :: rest) ->
     match first with
     | None => True
     | Some c => Choice.message c = None
     end ->
     generateAIResponse toString h channelId =
       (sent ++ (if Settings.logErrors (Host.store h)
                 then [console_error (lit "Error generating AI response:") TypeError]
                 else [])
             ++ [error_notice],
        Returns None)).
Proof.
  intro H. cbv zeta. split.
  - intro Hv. start_completion H.
    destruct value as [r | ]; run; [ | reflexivity].
    destruct Hv as [-> | ->]; reflexivity.
  - intros r first rest -> Hc Hfirst. start_completion H.
    rewrite Hc. run.
    destruct first as [c | ]; run.
    + rewrite Hfirst. run. destruct (Settings.logErrors (Host.store h)); reflexivity.
    + destruct (Settings.logErrors (Host.store h)); reflexivity.
Qed.

(* ================================================================== *)
(** * The window of the context collector *)

Lemma last_n_app (A : Type) (older recent : list A) :
  last_n (length recent) (older ++ recent) = recent.
Proof.
  unfold last_n. rewrite length_app.
  replace (length older + length recent - length recent)%nat with (length older) by lia.
  rewrite skipn_app, skipn_all, Nat.sub_diag. reflexivity.
Qed.

(** X12.  With a positive context length L the collector looks at the
    last L cached messages only: whatever precedes them in the cache --
    well-formed or not -- changes neither its result nor what it
    logs. *)
Theorem getChatContext_window (h1 h2 : Host.t) (channelId : jsstring)
    (contextLength : Z) (older recent : list (nullable HostMessage.t)) :
  (0 < contextLength)%Z ->
  length recent = Z.to_nat contextLength ->
  Host.cache h1 channelId = Returns (Some (older ++ recent)) ->
  Host.cache h2 channelId = Returns (Some recent) ->
  getChatContext h1 channelId contextLength = getChatContext h2 channelId contextLength.
Proof.
  intros Hpos Hlen C1 C2.
  unfold getChatContext, getChatContext_body. rewrite C1, C2. run.
  rewrite !(Array_slice_last _ Hpos), <- Hlen, last_n_app.
  rewrite last_n_all by lia. reflexivity.
Qed.

Lemma mapM_to_context_unmappable (l : list (nullable HostMessage.t)) :
  Exists unmappable l -> mapM to_context l = ([], Throws TypeError).
Proof.
  induction l as [ | msg l IH]; intro E; [inversion E | ].
  cbn [mapM]. unfold to_context at 1.
  destruct msg as [m | ]; run; [ | reflexivity].
  destruct (HostMessage.author m) as [a | ] eqn:Ha; run; [ | reflexivity].
  inversion E as [? ? Hhead | ? ? Htail]; subst.
  - cbn in Hhead. congruence.
  - rewrite (IH Htail). reflexivity.
Qed.

(** X13.  When the cache read throws, or one of the messages in the
    window is absent or has no author, the collector logs the error --
    whether error logging is on or off -- and returns the empty context,
    dropping the messages it could have mapped; the flow then shows "No
    messages found to generate context" and sends no request. *)
Theorem collector_failure (toString : Number.t -> jsstring)
    (h : Host.t) (channelId : jsstring) (error : exn) :
  let contextLength := Settings.contextLength (Host.store h) in
  (Host.cache h channelId = Throws error \/
   exists cached,
     Host.cache h channelId = Returns (Some cached) /\
     (0 < contextLength)%Z /\
     Exists unmappable (last_n (Z.to_nat contextLength) cached) /\
     error = TypeError) ->
  getChatContext h channelId contextLength =
    ([MessageStore_getMessages channelId;
      console_error (lit "Error getting chat context:") error], Returns []) /\
  (Settings.apiKey (Host.store h) <> [] ->
   generateAIResponse toString h channelId =
     ([MessageStore_getMessages channelId;
       console_error (lit "Error getting chat context:") error;
       no_context_notice], Returns None)).
Proof.
  cbv zeta. intro Hfail.
  assert (getChatContext h channelId (Settings.contextLength (Host.store h)) =
            ([MessageStore_getMessages channelId;
              console_error (lit "Error getting chat context:") error], Returns [])) as E.
  { unfold getChatContext, getChatContext_body.
    destruct Hfail as [-> | (cached & -> & Hpos & Hex & ->)]; [reflexivity | ].
    run. rewrite (Array_slice_last _ Hpos), (mapM_to_context_unmappable Hex).
    reflexivity. }
  split; [exact E | ].
  intro K. apply truthy_nonempty in K.
  unfold generateAIResponse. rewrite K, E. reflexivity.
Qed.

(** X14.  A context length that is not positive does not give an empty
    context: with 0 the collector returns the whole cache ([slice(-0)]
    is [slice(0)]), and with a negative length -k it returns the cache
    without its first k messages. *)
Theorem getChatContext_nonpositive_length (h : Host.t) (channelId : jsstring)
    (contextLength : Z) (cached : list (nullable jsstring * HostAuthor.t)) :
  (contextLength <= 0)%Z ->
  Host.cache h channelId = Returns (Some (map cached_message cached)) ->
  getChatContext h channelId contextLength =
    ([MessageStore_getMessages channelId],
     Returns (map context_message (skipn (Z.to_nat (- contextLength)) cached))) /\
  (contextLength = 0%Z ->
   result (getChatContext h channelId contextLength)
     = Returns (map context_message cached)).
Proof.
  intros Hle Hcache.
  assert (getChatContext h channelId contextLength =
            ([MessageStore_getMessages channelId],
             Returns (map context_message (skipn (Z.to_nat (- contextLength)) cached)))) as E.
  { unfold getChatContext, getChatContext_body. rewrite Hcache. run.
    assert (Array_slice (map cached_message cached) (- contextLength)
            = map cached_message (skipn (Z.to_nat (- contextLength)) cached)) as S.
    { unfold Array_slice. rewrite length_map.
      destruct (Z.ltb_spec (- contextLength) 0) as [H | _]; [lia | ].
      rewrite <- skipn_map.
      destruct (Z.min_spec (- contextLength) (Z.of_nat (length cached)))
        as [[_ ->] | [Hge ->]]; [reflexivity | ].
      rewrite Nat2Z.id, !skipn_all2; rewrite ?length_map; try reflexivity; lia. }
    rewrite S, mapM_to_context_cached. reflexivity. }
  split; [exact E | ].
  intros ->. rewrite E. reflexivity.
Qed.

(* ================================================================== *)
(** * More on the token estimate *)








(* ================================================================== *)
(** * More on the debug summary *)

(** X18.  [formatDebugInfo] answers "Error generating debug info", after
    logging a TypeError, when the response is null or has no usage
    record; on every other response it logs nothing and answers a
    summary, which is never that text. *)
Theorem formatDebugInfo_fallback (toString : Number.t -> jsstring)
    (response : nullable OpenRouterResponse.t) :
  let absent := match response with
                | None => True
                | Some r => OpenRouterResponse.usage r = None
                end in
  (absent ->
   formatDebugInfo toString response =
     ([console_error (lit "Error formatting debug info:") TypeError],
      Returns (lit "Error generating debug info"))) /\
  (~ absent ->
   trace (formatDebugInfo toString response) = [] /\
   result (formatDebugInfo toString response)
     <> Returns (lit "Error generating debug info")).
Proof.
  cbv zeta. destruct response as [r | ].
  - destruct (OpenRouterResponse.usage r) as [u | ] eqn:U.
    + split; [discriminate | intros _].
      rewrite (formatDebugInfo_usage toString r U). split; [reflexivity | ].
      cbn [result snd]. unfold debug_summary. intro E. injection E as E.
      discriminate E.
    + split; [intros _; exact (formatDebugInfo_no_usage toString r U) | ].
      intro H. now destruct H.
  - split; [reflexivity | intro H; now destruct H].
Qed.

(** X19.  For token counts up to 2^48 whose weighted sum
    [prompt_tokens + 2 * completion_tokens] does not end in the digit 5
    -- so that the exact cost, that sum over 10^7, is not halfway
    between two multiples of 10^-6 -- the cost shown is the exact cost
    rounded to six decimals: binary64 arithmetic does not show. *)
Theorem cost_off_ties (toString : Number.t -> jsstring) (p c t : N) :
  (p <= 2 ^ 48)%N -> (c <= 2 ^ 48)%N ->
  ((p + 2 * c) mod 10 <> 5)%N ->
  denotes_millionths
    (Number.toFixed toString (totalCost (Usage.make p c t)) 6)
    ((p + 2 * c + 5) / 10)%N.
Proof.
  intros Hp Hc Htie.
  assert (2 ^ 48 <= Number.MAX_SAFE_INTEGER)%N as Hsafe by (vm_compute; discriminate).
  destruct (toFixed_six_decimals toString (totalCost (Usage.make p c t))) as (n & Hd & Hn).
  { apply below_pow2_small. apply totalCost_below; cbn; lia. }
  pose proof (reported_cost_accuracy p c t n Hp Hc Hn) as A.
  replace ((p + 2 * c + 5) / 10)%N with n; [exact Hd | ].
  pose proof (N.div_mod (p + 2 * c + 5) 10 ltac:(discriminate)) as D1.
  pose proof (N.mod_upper_bound (p + 2 * c + 5) 10 ltac:(discriminate)) as B1.
  pose proof (N.div_mod (p + 2 * c) 10 ltac:(discriminate)) as D2.
  pose proof (N.mod_upper_bound (p + 2 * c) 10 ltac:(discriminate)) as B2.
  clear Hd Hn Hp Hc Hsafe.
  set (s := (p + 2 * c)%N) in *.
  set (q1 := ((s + 5) / 10)%N) in *. set (r1 := ((s + 5) mod 10)%N) in *.
  set (q2 := (s / 10)%N) in *. set (r2 := (s mod 10)%N) in *.
  clearbody q1 r1 q2 r2 s.
  assert (r2 < 5 \/ 5 < r2)%N as [Hr | Hr] by lia.
  - assert (q1 = q2) by lia. lia.
  - assert (q1 = q2 + 1)%N by lia. lia.
Qed.

Lemma app_same_length (A : Type) (l1 l1' l2 l2' : list A) :
  length l1 = length l1' ->
  l1 ++ l2 = l1' ++ l2' ->
  l1 = l1' /\ l2 = l2'.
Proof.
  revert l1'. induction l1 as [ | a l1 IH]; intros [ | a' l1'] Hlen E;
    try discriminate Hlen; [split; [reflexivity | exact E] | ].
  cbn [app] in E. injection E as -> E. injection Hlen as Hlen.
  destruct (IH l1' Hlen E) as (-> & ->). split; reflexivity.
Qed.

(** A text denotes at most one number of millionths. *)
Lemma denotes_millionths_unique (text : jsstring) (n1 n2 : N) :
  denotes_millionths text n1 -> denotes_millionths text n2 -> n1 = n2.
Proof.
  intros (ip1 & fp1 & E1 & _ & L1 & R1) (ip2 & fp2 & E2 & _ & L2 & R2).
  rewrite E1 in E2.
  assert (length ip1 = length ip2) as Hlen.
  { apply (f_equal (@length _)) in E2. rewrite !length_app, L1, L2 in E2. lia. }
  destruct (@app_same_length _ _ _ _ _ Hlen E2) as (-> & E).
  apply app_inv_head in E. subst fp2. congruence.
Qed.

(** X20.  For token counts up to 2^48, more tokens never show a lower
    cost: if a usage record has at least as many prompt tokens and at
    least as many completion tokens as another, the cost shown for it is
    at least the cost shown for the other. *)
Theorem cost_monotone (toString : Number.t -> jsstring)
    (p1 c1 t1 p2 c2 t2 n1 n2 : N) :
  (p1 <= p2)%N -> (c1 <= c2)%N ->
  (p2 <= 2 ^ 48)%N -> (c2 <= 2 ^ 48)%N ->
  denotes_millionths (Number.toFixed toString (totalCost (Usage.make p1 c1 t1)) 6) n1 ->
  denotes_millionths (Number.toFixed toString (totalCost (Usage.make p2 c2 t2)) 6) n2 ->
  (n1 <= n2)%N.
Proof.
  intros Hp Hc Hp2 Hc2 D1 D2.
  assert (2 ^ 48 <= Number.MAX_SAFE_INTEGER)%N as Hsafe by (vm_compute; discriminate).
  destruct (toFixed_six_decimals toString (totalCost (Usage.make p1 c1 t1)))
    as (m1 & Hd1 & Hn1).
  { apply below_pow2_small. apply totalCost_below; cbn; lia. }
  destruct (toFixed_six_decimals toString (totalCost (Usage.make p2 c2 t2)))
    as (m2 & Hd2 & Hn2).
  { apply below_pow2_small. apply totalCost_below; cbn; lia. }
  rewrite (@denotes_millionths_unique _ _ _ D1 Hd1), (@denotes_millionths_unique _ _ _ D2 Hd2).
  destruct (N.eq_dec p1 p2) as [-> | Np].
  - destruct (N.eq_dec c1 c2) as [-> | Nc].
    + assert (m1 = m2); [ | lia].
      apply (@denotes_millionths_unique _ _ _ Hd1). exact Hd2.
    + pose proof (reported_cost_accuracy p2 c1 t1 m1 ltac:(lia) ltac:(lia) Hn1).
      pose proof (reported_cost_accuracy p2 c2 t2 m2 ltac:(lia) ltac:(lia) Hn2).
      lia.
  - pose proof (reported_cost_accuracy p1 c1 t1 m1 ltac:(lia) ltac:(lia) Hn1).
    pose proof (reported_cost_accuracy p2 c2 t2 m2 ltac:(lia) ltac:(lia) Hn2).
    lia.
Qed.

(* ================================================================== *)
(** * What the user is told, and what the console *)

(** X21.  The flow returns null exactly when it has shown a failure
    notice, and then it has shown exactly one; when it returns a text it
    has shown none.  It never throws. *)
Theorem flow_null_iff_failure_shown (toString : Number.t -> jsstring)
    (h : Host.t) (channelId : jsstring) :
  let run := generateAIResponse toString h channelId in
  match result run with
  | Returns None => length (filter is_failure_toast (trace run)) = 1%nat
  | Returns (Some _) => filter is_failure_toast (trace run) = []
  | Throws _ => False
  end.
Proof.
  cbv zeta. unfold generateAIResponse.
  explore_flow toString; reflexivity.
Qed.

(** X22.  With error logging switched off, the only errors the command
    still writes to the console are those logged by [generateResponse],
    [formatDebugInfo] and [getChatContext] themselves, which do not look
    at the switch.  And the command writes a debug summary to the
    console only if one of the two debug switches is on. *)
Theorem console_discipline (toString : Number.t -> jsstring)
    (h : Host.t) (channel : Channel.t) :
  (Settings.logErrors (Host.store h) = false ->
   forall label error,
     In (console_error label error) (trace (execute toString h channel)) ->
     In label helper_labels) /\
  (forall text,
     In (console_log text) (trace (execute toString h channel)) ->
     Settings.showDebugInfo (Host.store h) || Settings.showTokenCount (Host.store h)
       = true).
Proof.
  unfold execute, generateAIResponse, helper_labels.
  destruct (scope_mismatch _ _); run.
  - split; [intros _ label error | intro text]; intros [H | []]; discriminate H.
  - explore_flow toString;
      (split;
       [ intros Hlog label error Hin; try discriminate Hlog
       | intros text Hin ]);
      cbn [In] in Hin |- *;
      repeat match goal with
             | H : _ \/ _ |- _ => destruct H as [H | H]
             | H : False |- _ => destruct H
             | H : console_error _ _ = console_error _ _ |- _ => injection H as <- <-
             | H : _ = _ |- _ => discriminate H
             end;
      auto.
Qed.

(* ================================================================== *)
(** * The message popover button *)

(** X23.  The button is rendered exactly for the channels the command
    would serve under the settings at that time, for the message and
    channel given.  A click never throws, although the handler has no
    [catch] of its own; under settings that admit the channel it does
    exactly what the command does.  The handler does not look at the
    scope: if the scope was narrowed after the button was rendered, a
    click still sends the request the flow would send. *)
Theorem popover_button_click (toString : Number.t -> jsstring) (A : Type)
    (store : Settings.t) (message : A) (channel : Channel.t) :
  (renderMessagePopoverButton toString store message channel = None <->
   scope_mismatch (isGuildChannel channel) (Settings.chatScope store) = true) /\
  forall b,
    renderMessagePopoverButton toString store message channel = Some b ->
    PopoverButton.label b = lit "AI Response" /\
    PopoverButton.message b = message /\
    PopoverButton.channel b = channel /\
    forall h : Host.t,
      result (PopoverButton.onClick b h) = Returns tt /\
      (scope_mismatch (isGuildChannel channel) (Settings.chatScope (Host.store h)) = false ->
       PopoverButton.onClick b h = execute toString h channel) /\
      fetches (PopoverButton.onClick b h) =
        fetches (generateAIResponse toString h (Channel.id channel)).
Proof.
  unfold renderMessagePopoverButton. cbv zeta.
  destruct (scope_mismatch (isGuildChannel channel) (Settings.chatScope store)).
  - split; [split; reflexivity | discriminate].
  - split; [split; discriminate | ].
    intros b E. injection E as <-. cbn [PopoverButton.label PopoverButton.message
                                         PopoverButton.channel PopoverButton.onClick].
    repeat split.
    + apply onClick_returns.
    + intro Scope. symmetry. apply execute_as_onClick. exact Scope.
    + unfold fetches.
      destruct (onClick_filter toString channel h is_fetch) as (v & _ & ->).
      destruct (deliver_shape toString h (Channel.id channel) v) as (_ & _ & F & _).
      unfold fetches in F. rewrite F. apply app_nil_r.
Qed.

(* ================================================================== *)
(** * The settings panel and the defaults *)

(** X24.  The key field of the panel starts with the stored key.  A key
    typed into it is stored at once and changes no other setting; the
    next invocation of the command uses it: every request carries it as
    bearer token, and after the field was emptied the command sends no
    request and reads no cache. *)
Theorem key_entry_takes_effect (toString : Number.t -> jsstring)
    (h : Host.t) (newValue : jsstring) (channel : Channel.t) :
  let before := Host.store h in
  let panel := SettingsComponent.updateApiKey newValue (SettingsComponent.mount before) in
  let after := SettingsComponent.store panel in
  SettingsComponent.apiKey (SettingsComponent.mount before) = Settings.apiKey before /\
  SettingsComponent.apiKey panel = newValue /\
  after = Settings.make (Settings.contextLength before) (Settings.model before)
            (Settings.chatScope before) (Settings.systemInstructions before)
            (Settings.outputMode before) (Settings.showDebugInfo before)
            (Settings.showTokenCount before) (Settings.logErrors before) newValue /\
  (forall request,
     In (fetch request) (trace (execute toString (with_store h after) channel)) ->
     In (lit "Authorization", lit "Bearer " ++ newValue) (Request.headers request)) /\
  (newValue = [] ->
   fetches (execute toString (with_store h after) channel) = [] /\
   filter is_store_read (trace (execute toString (with_store h after) channel)) = []).
Proof.
  cbv zeta. split.
  { unfold SettingsComponent.mount. cbn [SettingsComponent.apiKey].
    destruct (Settings.apiKey (Host.store h)); reflexivity. }
  split; [reflexivity | ]. split; [reflexivity | ]. split.
  - intros request Hin.
    destruct (execute_fetch_inv _ _ _ _ Hin) as (_ & m & ms & _ & ->).
    right. left. reflexivity.
  - intros ->. split.
    + rewrite execute_fetches. destruct (scope_mismatch _ _); reflexivity.
    + unfold execute. destruct (scope_mismatch _ _); reflexivity.
Qed.

(** X25.  Under the default settings, which hold no key, the command
    does nothing in any channel but ask for the key.  Once a key is
    entered and the API answers with a completion that has usage data
    (token counts up to 2^53 - 1),
    the command logs the debug summary, shows the token count and sends
    the text of the first choice, and nothing but that text, as a bot
    message to the invoking channel; the request starts with the default
    system instructions and holds at most 20 messages of context. *)
Theorem default_settings_behaviour (toString : Number.t -> jsstring)
    (cache : jsstring -> outcome (nullable (list (nullable HostMessage.t))))
    (remote : Request.t -> outcome HttpResponse.t) (channel : Channel.t) :
  execute toString (Host.make default_settings cache remote) channel
    = ([key_notice], Returns tt) /\
  forall (key : jsstring) (context : list Message.t) (r : OpenRouterResponse.t)
         (c : Choice.t) (rest : list (nullable Choice.t))
         (message : ChoiceMessage.t) (u : Usage.t),
    let h := Host.make (SettingsComponent.set_apiKey default_settings key) cache remote in
    completion h (Channel.id channel) context (Some r) ->
    OpenRouterResponse.choices r = Some (Some c :: rest) ->
    Choice.message c = Some message ->
    OpenRouterResponse.usage r = Some u ->
    Usage.safe u ->
    execute toString h channel =
      ([MessageStore_getMessages (Channel.id channel);
        generating;
        fetch (flow_request h context);
        console_log (debug_summary (OpenRouterResponse.model r) u
                       (Number.toFixed toString (totalCost u) 6));
        token_toast u;
        sendBotMessage (Channel.id channel) (ChoiceMessage.content message)],
       Returns tt) /\
    RequestBody.messages (Request.body (flow_request h context)) =
      SystemMessage (Settings.systemInstructions default_settings)
        :: map Conversation context /\
    (length context <= 20)%nat.
Proof.
  split.
  { unfold execute. cbn [Host.store default_settings Settings.chatScope].
    destruct (isGuildChannel channel); reflexivity. }
  intros key context r c rest message u. cbv zeta. intros H Hc Hm Hu _.
  pose proof (flow_completion toString H Hc Hm Hu) as E. cbv zeta in E.
  cbn [Host.store SettingsComponent.set_apiKey default_settings
       Settings.showDebugInfo Settings.showTokenCount orb app] in E.
  split; [ | split].
  - rewrite execute_as_onClick
      by (cbn [Host.store]; destruct (isGuildChannel channel); reflexivity).
    unfold onClick. rewrite E. run.
    cbn [deliver Host.store SettingsComponent.set_apiKey default_settings
         Settings.showDebugInfo Settings.outputMode].
    run. rewrite ?app_nil_r. reflexivity.
  - reflexivity.
  - destruct H as (_ & _ & R & _).
    destruct (@getChatContext_bound _ _ _ _ R ltac:(reflexivity)) as (B & _).
    cbn [Host.store SettingsComponent.set_apiKey default_settings
         Settings.contextLength] in B.
    lia.
Qed.

(* ================================================================== *)
(** * More on [generateResponse] *)


Lemma decimal_digits_are_digits (fuel : nat) :
  forall (n : N) (acc : jsstring),
    Forall is_digit acc -> Forall is_digit (decimal_digits fuel n acc).
Proof.
  induction fuel as [ | fuel IH]; intros n acc Hacc; [exact Hacc | ].
  rewrite decimal_digits_step.
  assert (Forall is_digit ((48 + n mod 10)%N :: acc)) as Hacc'.
  { constructor; [ | exact Hacc]. unfold is_digit.
    pose proof (N.mod_upper_bound n 10 ltac:(discriminate)).
    unfold code_unit in *. generalize dependent (n mod 10)%N. intros. lia. }
  destruct (n <? 10)%N; [exact Hacc' | apply IH; exact Hacc'].
Qed.

Lemma decimal_is_digits (n : N) : Forall is_digit (decimal n).
Proof. apply decimal_digits_are_digits. constructor. Qed.

Lemma decimal_injective (a b : N) : decimal a = decimal b -> a = b.
Proof.
  intro E. apply (f_equal read_decimal) in E.
  rewrite !read_decimal_decimal in E. congruence.
Qed.

(** X27.  The message of the error thrown for a status outside 200-299
    determines the status and the body: two such errors with the same
    message come from the same status and the same body text. *)
Theorem upstream_error_injective (status1 status2 : N) (text1 text2 : jsstring) :
  upstream_error status1 text1 = upstream_error status2 text2 ->
  status1 = status2 /\ text1 = text2.
Proof.
  unfold upstream_error. intro E. injection E as E.
  assert (forall n, ~ In 41%N (decimal n)) as Hparen.
  { intros n Hin.
    pose proof (proj1 (Forall_forall _ _) (decimal_is_digits n) _ Hin) as D.
    unfold is_digit in D. lia. }
  destruct (app_inj_pivot _ _ _ _ _ E) as [[(H & _) | (_ & H)] | (Ed & Et)];
    try (exfalso; exact (Hparen _ H)).
  split; [exact (decimal_injective _ _ Ed) | ].
  injection Et as Et. exact Et.
Qed.

(** With the three switches off, everything the command does. *)
Lemma quiet_command (toString : Number.t -> jsstring) (h : Host.t) (channel : Channel.t) :
  Settings.showDebugInfo (Host.store h) = false ->
  Settings.showTokenCount (Host.store h) = false ->
  Settings.logErrors (Host.store h) = false ->
  forall ev,
    In ev (trace (execute toString h channel)) ->
    match ev with
    | console_log _ => False
    | showToast _ SUCCESS => False
    | console_error label _ => In label helper_labels
    | sendBotMessage _ text =>
        text = lit "AI responses are not enabled for this type of channel. Check your plugin settings."
        \/ exists g, result (generateAIResponse toString h (Channel.id channel))
                       = Returns (Some g) /\ text = Generated.text g
    | insertTextIntoChatInputBox text =>
        exists g, result (generateAIResponse toString h (Channel.id channel))
                    = Returns (Some g) /\ text = Generated.text g
    | _ => True
    end.
Proof.
  intros Hd Ht Hl.
  unfold helper_labels, execute, generateAIResponse.
  destruct (scope_mismatch _ _); run.
  - intros ev [<- | []]. left. reflexivity.
  - explore_flow toString; try congruence;
      intros ev Hin; cbn [In] in Hin;
      repeat match goal with
             | H : _ \/ _ |- _ => destruct H as [H | H]
             | H : False |- _ => destruct H
             | H : _ = ev |- _ => subst ev
             end;
      cbn [In]; rewrite ?app_nil_r; auto;
      try (right; eexists; split; reflexivity);
      try (eexists; split; reflexivity).
Qed.

(** X28.  The three switches of the panel write to the store and to
    nothing else.  After all three were turned off, the command writes
    no debug summary to the console, shows no token count, and logs no
    error but those of [generateResponse], [formatDebugInfo] and
    [getChatContext]; what it puts into the chat is the scope notice or
    the generated text alone. *)
Theorem panel_switches_take_effect (toString : Number.t -> jsstring)
    (h : Host.t) (channel : Channel.t) :
  let before := Host.store h in
  let panel :=
    SettingsComponent.onChange_logErrors false
      (SettingsComponent.onChange_showTokenCount false
         (SettingsComponent.onChange_showDebugInfo false
            (SettingsComponent.mount before))) in
  let after := SettingsComponent.store panel in
  after = Settings.make (Settings.contextLength before) (Settings.model before)
            (Settings.chatScope before) (Settings.systemInstructions before)
            (Settings.outputMode before) false false false (Settings.apiKey before) /\
  SettingsComponent.apiKey panel = Settings.apiKey before /\
  forall ev,
    In ev (trace (execute toString (with_store h after) channel)) ->
    match ev with
    | console_log _ => False
    | showToast _ SUCCESS => False
    | console_error label _ => In label helper_labels
    | sendBotMessage _ text =>
        text = lit "AI responses are not enabled for this type of channel. Check your plugin settings."
        \/ exists g, result (generateAIResponse toString (with_store h after) (Channel.id channel))
                       = Returns (Some g) /\ text = Generated.text g
    | insertTextIntoChatInputBox text =>
        exists g, result (generateAIResponse toString (with_store h after) (Channel.id channel))
                    = Returns (Some g) /\ text = Generated.text g
    | _ => True
    end.
Proof.
  cbv zeta. split; [reflexivity | ]. split.
  { unfold SettingsComponent.mount. cbn [SettingsComponent.apiKey
      SettingsComponent.onChange_logErrors SettingsComponent.onChange_showTokenCount
      SettingsComponent.onChange_showDebugInfo].
    destruct (Settings.apiKey (Host.store h)); reflexivity. }
  apply quiet_command; reflexivity.
Qed.

(* ================================================================== *)
(** * The theorems above on the sample invocations *)

Lemma completion_host_ok :
  completion host_ok (lit "c1") sample_context (Some sample_response).
Proof.
  split; [reflexivity | ]. split; [discriminate | ]. split; [reflexivity | ].
  eexists. split; [reflexivity | ]. split; reflexivity.
Defined.

Lemma fetch_host_ok :
  In (fetch (flow_request host_ok sample_context))
     (trace (execute (fun _ => []) host_ok dm_channel)).
Proof. right. right. left. reflexivity. Defined.

Lemma command_request_destination_witness :
  Request.method (flow_request host_ok sample_context) = POST /\
  In (lit "Authorization", lit "Bearer or-key")
     (Request.headers (flow_request host_ok sample_context)).
Proof.
  destruct (@command_request_destination (fun _ => []) host_ok dm_channel _ fetch_host_ok)
    as (_ & Hm & Hh & _).
  split; [exact Hm | ]. rewrite Hh. right. left. reflexivity.
Defined.

Lemma command_request_messages_witness :
  (Z.of_nat (length (RequestBody.messages
                       (Request.body (flow_request host_ok sample_context)))) <= 21)%Z.
Proof.
  destruct (@command_request_messages (fun _ => []) host_ok dm_channel _ fetch_host_ok
              eq_refl) as (context & _ & _ & _ & _ & B).
  exact B.
Defined.

Lemma sample_usage_safe : Usage.safe sample_usage.
Proof. repeat split; vm_compute; discriminate. Defined.

Lemma completion_events_witness :
  generateAIResponse (fun _ => []) host_ok (lit "c1") =
    ([MessageStore_getMessages (lit "c1"); generating;
      fetch (flow_request host_ok sample_context);
      console_log (debug_summary (lit "google/gemini-flash-1.5-8b-exp") sample_usage
                     (Number.toFixed (fun _ => []) (totalCost sample_usage) 6));
      token_toast sample_usage],
     Returns (Some (Generated.make (lit "you are welcome") sample_response))).
Proof.
  exact (@completion_events (fun _ => []) host_ok (lit "c1") sample_context
           sample_response _ _ _ sample_usage completion_host_ok
           eq_refl eq_refl eq_refl sample_usage_safe).
Defined.

Lemma delivery_by_output_mode_witness :
  outputs (execute (fun _ => []) host_ok dm_channel)
  = [sendBotMessage (lit "c1") (lit "you are welcome")].
Proof.
  destruct (@delivery_by_output_mode (fun _ => []) host_ok dm_channel eq_refl)
    as (info & _ & E).
  exact E.
Defined.

Lemma completion_host_no_usage :
  completion host_no_usage (lit "c1") sample_context (Some sample_response_no_usage).
Proof.
  split; [reflexivity | ]. split; [discriminate | ]. split; [reflexivity | ].
  eexists. split; [reflexivity | ]. split; reflexivity.
Defined.

Lemma completion_without_usage_witness :
  generateAIResponse (fun _ => []) host_no_usage (lit "c1") =
    ([MessageStore_getMessages (lit "c1"); generating;
      fetch (flow_request host_no_usage sample_context);
      console_error (lit "Error formatting debug info:") TypeError;
      console_log (lit "Error generating debug info");
      console_error (lit "Error generating AI response:") TypeError;
      error_notice],
     Returns None).
Proof.
  exact (@completion_without_usage (fun _ => []) host_no_usage (lit "c1") sample_context
           sample_response_no_usage _ _ _ completion_host_no_usage
           eq_refl eq_refl eq_refl).
Defined.

Lemma request_failure_witness :
  generateAIResponse (fun _ => []) host_offline (lit "c1") =
    ([MessageStore_getMessages (lit "c1"); generating;
      fetch (flow_request host_offline sample_context);
      console_error (lit "Error in generateResponse:") TypeError;
      console_error (lit "Error generating AI response:") TypeError;
      error_notice],
     Returns None).
Proof.
  exact (@request_failure (fun _ => []) host_offline (lit "c1")
           (context_message (Some (lit "hi"), ana))
           (map context_message (tl sample_cached)) TypeError
           eq_refl eq_refl (or_introl eq_refl)).
Defined.

Lemma completion_host_null :
  completion host_null (lit "c1") sample_context None.
Proof.
  split; [reflexivity | ]. split; [discriminate | ]. split; [reflexivity | ].
  eexists. split; [reflexivity | ]. split; reflexivity.
Defined.

Lemma unusable_completion_witness :
  generateAIResponse (fun _ => []) host_null (lit "c1") =
    ([MessageStore_getMessages (lit "c1"); generating;
      fetch (flow_request host_null sample_context); failed_notice],
     Returns None).
Proof.
  exact (proj1 (@unusable_completion (fun _ => []) host_null (lit "c1") sample_context
                  None completion_host_null) I).
Defined.

Lemma getChatContext_window_witness :
  getChatContext host_ok (lit "c1") 2 = getChatContext host_recent (lit "c1") 2.
Proof.
  exact (@getChatContext_window host_ok host_recent (lit "c1") 2
           (map cached_message (firstn 3 sample_cached))
           (map cached_message (skipn 3 sample_cached))
           eq_refl eq_refl eq_refl eq_refl).
Defined.

Lemma collector_failure_witness :
  generateAIResponse (fun _ => []) host_cache_fails (lit "c1") =
    ([MessageStore_getMessages (lit "c1");
      console_error (lit "Error getting chat context:") TypeError;
      no_context_notice], Returns None).
Proof.
  refine (proj2 (@collector_failure (fun _ => []) host_cache_fails (lit "c1") TypeError
                   (or_introl eq_refl)) _).
  discriminate.
Defined.

(** One message without author among six: the five good ones are
    dropped with it, and the flow stops. *)
Example collector_failure_authorless :
  generateAIResponse (fun _ => []) host_authorless (lit "c1") =
    ([MessageStore_getMessages (lit "c1");
      console_error (lit "Error getting chat context:") TypeError;
      no_context_notice], Returns None).
Proof. reflexivity. Qed.

Lemma getChatContext_nonpositive_length_witness :
  result (getChatContext host_ok (lit "c1") 0) = Returns sample_context.
Proof.
  refine (proj2 (@getChatContext_nonpositive_length host_ok (lit "c1") 0 sample_cached
                   _ eq_refl) eq_refl).
  discriminate.
Defined.




Lemma cost_off_ties_witness :
  denotes_millionths
    (Number.toFixed (fun _ => []) (totalCost sample_usage) 6) 20.
Proof.
  refine (@cost_off_ties (fun _ => []) 100 50 150 _ _ _); vm_compute; discriminate.
Defined.

Lemma cost_samples :
  denotes_millionths (Number.toFixed (fun _ => []) (totalCost (Usage.make 100 50 150)) 6) 20 /\
  denotes_millionths (Number.toFixed (fun _ => []) (totalCost (Usage.make 1000 500 1500)) 6) 200.
Proof.
  split.
  - exists (lit "0"), (lit "000020"). repeat split; try reflexivity. discriminate.
  - exists (lit "0"), (lit "000200"). repeat split; try reflexivity. discriminate.
Defined.

Lemma cost_monotone_witness : (20 <= 200)%N.
Proof.
  refine (@cost_monotone (fun _ => []) 100 50 150 1000 500 1500 20 200 _ _ _ _
            (proj1 cost_samples) (proj2 cost_samples));
    vm_compute; discriminate.
Defined.

Lemma upstream_error_injective_witness :
  401%N = 401%N /\ lit "Unauthorized" = lit "Unauthorized".
Proof.
  exact (@upstream_error_injective 401 401 (lit "Unauthorized") (lit "Unauthorized") eq_refl).
Defined.
